(** * A manifest validator in Go: shallow embedding and verification

    The program under study is [main.go], a command line tool that
    parses a YAML manifest with [gopkg.in/yaml.v3] and validates every
    document of it as a Pod.  The source file holds two revisions of the
    program, one after the other; both are embedded here, the first one
    (lines 1-461) as [Rev1], the second one (lines 462-906) as [Rev2].
    What the two revisions share word for word (the node model of the
    yaml library, the reporter, [getField], the three regular
    expressions and the two fixed sets) is stated once, before the two
    modules.

    Conventions of the embedding:
    - a Go [string] is a [string] of bytes; Go [int] is a [Z] (the
      program does no arithmetic on it, and [strconv.Atoi] only returns
      values that fit in 64 bits);
    - the reporter [*reporter] is mutated in place in Go; here it is
      threaded through a small state monad [M];
    - indexing a slice out of range panics in Go; [M] therefore also has
      a [Panic] outcome;
    - [map[string]struct{}] is a finite set of strings, a [gset string];
    - a function of the source that checks several fields in a row is
      the sequence of its blocks, one definition per block, each with
      the lines it comes from.

    What is proved, for both revisions unless said otherwise:
    - what [asInt] accepts, and what it returns;
    - how a name that is present and empty is reported, in each
      revision;
    - the diagnostics of a port, of an empty list of containers, of a
      probe without a usable [httpGet];
    - that the four fields of a Pod are checked one after the other,
      none depending on another;
    - which container names are registered, and which are reported as
      duplicates;
    - that the list of diagnostics only grows;
    - that on a well-formed tree the validation returns, with a number
      of diagnostics linear in the size of the tree;
    - which pair [getField] returns, and when it returns none;
    - what the three patterns accept;
    - where the two revisions do the same, and that they always report
      on the same lines;
    - which nodes pass without a diagnostic, from a port up to a whole
      file, and with which status the program then exits;
    - that every diagnostic carries the name of the file and stands on
      a line of the document, or has the form without a line;
    - what is written at the end, and in which order;
    - that fields that are not read change nothing. *)

From Stdlib Require Import ZArith NArith Ascii String List Bool Lia.
Local Open Scope string_scope.
From stdpp Require Import base gmap strings list sets pretty.
Import ListNotations.
Local Open Scope Z_scope.

(** ** Bytes of a Go string *)

Definition bytesOf (s : string) : list N :=
  List.map N_of_ascii (list_ascii_of_string s).

Definition ofBytes (l : list N) : string :=
  string_of_list_ascii (List.map ascii_of_N l).

(** ** [strings.TrimSpace]

    The library function removes from both ends every rune for which
    [unicode.IsSpace] holds.  On a UTF-8 string this is the removal of
    the encodings listed below: the six ASCII spaces, U+0085 and U+00A0
    (two bytes), and U+1680, U+2000..U+200A, U+2028, U+2029, U+202F,
    U+205F, U+3000 (three bytes).  A byte that does not start a valid
    encoding decodes to U+FFFD, which is not a space. *)

Definition asciiSpace (c : N) : bool :=
  ((9 <=? c) && (c <=? 13) || (c =? 32))%N.

Definition space2 (c d : N) : bool :=
  ((c =? 194) && ((d =? 133) || (d =? 160)))%N.

Definition space3 (c d e : N) : bool :=
  (((c =? 225) && (d =? 154) && (e =? 128))
   || ((c =? 226) && (d =? 128)
        && (((128 <=? e) && (e <=? 138)) || (e =? 168) || (e =? 169) || (e =? 175)))
   || ((c =? 226) && (d =? 129) && (e =? 159))
   || ((c =? 227) && (d =? 128) && (e =? 128)))%N.

Fixpoint trimLeft (s : list N) : list N :=
  match s with
  | [] => []
  | c :: r1 =>
      if asciiSpace c then trimLeft r1
      else match r1 with
           | [] => s
           | d :: r2 =>
               if space2 c d then trimLeft r2
               else match r2 with
                    | [] => s
                    | e :: r3 => if space3 c d e then trimLeft r3 else s
                    end
           end
  end.

(** The same scan from the end of the string, on the reversed bytes. *)
Fixpoint trimLeftRev (s : list N) : list N :=
  match s with
  | [] => []
  | c :: r1 =>
      if asciiSpace c then trimLeftRev r1
      else match r1 with
           | [] => s
           | d :: r2 =>
               if space2 d c then trimLeftRev r2
               else match r2 with
                    | [] => s
                    | e :: r3 => if space3 e d c then trimLeftRev r3 else s
                    end
           end
  end.

Definition trimRight (s : list N) : list N := rev (trimLeftRev (rev s)).

Definition TrimSpace (s : string) : string :=
  ofBytes (trimRight (trimLeft (bytesOf s))).

(** ** [strconv.Atoi]

    [Atoi s] is [ParseInt(s, 10, 0)] converted to [int]: an optional
    sign, then one or more decimal digits; the value has to fit in the
    64 bits of [int].  The value returned with an error is the one the
    library returns: 0 for a syntax error, the nearest bound for a range
    error. *)

Inductive error : Type :=
  | ErrSyntax          (* strconv.ErrSyntax *)
  | ErrRange           (* strconv.ErrRange *)
  | ErrNotInt.         (* errors.New("not int") *)

Definition isDigit (c : N) : bool := ((48 <=? c) && (c <=? 57))%N.

Definition maxUint64 : Z := 2 ^ 64 - 1.
Definition maxInt : Z := 2 ^ 63 - 1.
Definition minInt : Z := - 2 ^ 63.

(** The loop of [ParseUint] in base 10: digits are read left to right;
    the first byte that is not a digit is a syntax error, the first
    digit that overflows 64 bits is a range error. *)
Fixpoint parseUintLoop (s : list N) (n : Z) : Z * option error :=
  match s with
  | [] => (n, None)
  | c :: r =>
      if isDigit c then
        let n1 := n * 10 + (Z.of_N c - 48) in
        if maxUint64 <? n1 then (maxUint64, Some ErrRange)
        else parseUintLoop r n1
      else (0, Some ErrSyntax)
  end.

Definition ParseUint (s : list N) : Z * option error :=
  match s with
  | [] => (0, Some ErrSyntax)
  | _ => parseUintLoop s 0
  end.

Definition Atoi (s : string) : Z * option error :=
  match bytesOf s with
  | [] => (0, Some ErrSyntax)
  | c :: r =>
      let neg := (c =? 45)%N in
      let body := if ((c =? 43) || (c =? 45))%N then r else c :: r in
      match ParseUint body with
      | (_, Some ErrRange) =>
          if neg then (minInt, Some ErrRange) else (maxInt, Some ErrRange)
      | (_, Some e) => (0, Some e)
      | (un, None) =>
          if negb neg && (maxInt <? un) then (maxInt, Some ErrRange)
          else if neg && (maxInt + 1 <? un) then (minInt, Some ErrRange)
          else (if neg then - un else un, None)
      end
  end.

(** ** The regular expressions and the fixed sets (lines 49-55, 511-517) *)

(** [^[a-z][a-z0-9_]*$] *)
Definition isLower (c : N) : bool := ((97 <=? c) && (c <=? 122))%N.
Definition isSnakeTail (c : N) : bool := (isLower c || isDigit c || (c =? 95))%N.

Definition reSnake (s : string) : bool :=
  match bytesOf s with
  | [] => false
  | c :: r => isLower c && forallb isSnakeTail r
  end.

(** [^\d+(Gi|Mi|Ki)$] *)
Fixpoint memTail (s : list N) (seenDigit : bool) : bool :=
  match s with
  | [] => false
  | c :: r =>
      if isDigit c then memTail r true
      else seenDigit
           && match r with
              | [i] => ((c =? 71) || (c =? 77) || (c =? 75))%N && (i =? 105)%N
              | _ => false
              end
  end.

Definition reMem (s : string) : bool := memTail (bytesOf s) false.

(** [^registry\.bigbrother\.io/.+:.+$]: after the fixed prefix, no
    newline anywhere, and a colon with at least one byte on each side. *)
Definition notNewline (c : N) : bool := negb (c =? 10)%N.

Fixpoint colonInside (s : list N) : bool :=
  match s with
  | c :: r =>
      match r with
      | [] => false
      | _ :: _ => (c =? 58)%N || colonInside r
      end
  | [] => false
  end.

Definition dotPlusColonDotPlus (s : list N) : bool :=
  match s with
  | [] => false
  | _ :: r => forallb notNewline s && colonInside r
  end.

Definition reImage (s : string) : bool :=
  let p := "registry.bigbrother.io/" in
  String.prefix p s
  && dotPlusColonDotPlus
       (bytesOf (String.substring (String.length p)
                   (String.length s - String.length p)%nat s)).

Definition validOS : gset string := {[ "linux"; "windows" ]}.
Definition validProtocol : gset string := {[ "TCP"; "UDP" ]}.

(** ** The node model of [gopkg.in/yaml.v3]

    Only the fields the program reads are kept.  [Content] is the flat
    slice of the library: for a mapping, key and value nodes alternate. *)

Inductive yaml_Kind : Type :=
  | DocumentNode | SequenceNode | MappingNode | ScalarNode | AliasNode.

Global Instance yaml_Kind_eq_dec : EqDecision yaml_Kind.
Proof. solve_decision. Defined.

#[local] Unset Elimination Schemes.
Inductive Node : Type :=
  mkNode { Kind : yaml_Kind;
           Tag : string;
           Value : string;
           Line : Z;
           Content : list Node }.
#[local] Set Elimination Schemes.

Definition isMapping (n : Node) : bool := bool_decide (Kind n = MappingNode).
Definition isSequence (n : Node) : bool := bool_decide (Kind n = SequenceNode).
Definition isScalar (n : Node) : bool := bool_decide (Kind n = ScalarNode).

(** [n.Kind != yaml.ScalarNode || n.Tag != "!!str"] *)
Definition notStr (n : Node) : bool :=
  negb (isScalar n) || negb (Tag n =? "!!str")%string.

(** A tree as the parser builds it: the content of every mapping node
    has even length. *)
Fixpoint wf (n : Node) : bool :=
  match n with
  | mkNode k _ _ _ c =>
      (if bool_decide (k = MappingNode) then Nat.even (length c) else true)
      && forallb wf c
  end.

(** ** The reporter (lines 15-36 and 476-499) *)

Record errOut : Type := mkErrOut { file : string; line : Z; msg : string }.

Record reporter : Type := mkReporter { r_file : string; errs : list errOut }.

(** ** Outcomes and the monad of the validators *)

Inductive result (A : Type) : Type :=
  | Ok (a : A)
  | Panic.
Arguments Ok {A} a.
Arguments Panic {A}.

Definition M (A : Type) : Type := reporter -> result (A * reporter).

Definition ret {A} (a : A) : M A := fun rep => Ok (a, rep).

Definition bind {A B} (m : M A) (f : A -> M B) : M B :=
  fun rep => match m rep with
             | Ok (a, rep') => f a rep'
             | Panic => Panic
             end.

Definition lift {A} (r : result A) : M A :=
  fun rep => match r with
             | Ok a => Ok (a, rep)
             | Panic => Panic
             end.

Definition skip : M unit := ret tt.

Notation "'do' x <- m ; k" := (bind m (fun x => k))
  (at level 10, x name, m at level 100, k at level 200).
Notation "m >> k" := (bind m (fun _ => k))
  (at level 65, right associativity).

(** [for _, x := range l { body }], [continue] being the end of [body]. *)
Fixpoint forRange {A} (body : A -> M unit) (l : list A) : M unit :=
  match l with
  | [] => skip
  | x :: rest => body x >> forRange body rest
  end.

(** The same loop with a local variable that the body updates. *)
Fixpoint foldRange {A S} (body : A -> S -> M S) (l : list A) (s : S) : M S :=
  match l with
  | [] => ret s
  | x :: rest => do s' <- body x s; foldRange body rest s'
  end.

(** [for i := 0; i < len(c); i += 2 { k := c[i]; v := c[i+1]; body }]:
    reading [c[i+1]] past the end of the slice panics. *)
Fixpoint forPairs (body : Node -> Node -> M unit) (c : list Node) : M unit :=
  match c with
  | [] => skip
  | k :: v :: rest => body k v >> forPairs body rest
  | [_] => fun _ => Panic
  end.

Definition add (line : Z) (msg : string) : M unit :=
  fun r => Ok (tt, {| r_file := r_file r;
                      errs := errs r ++ [ {| file := r_file r; line := line; msg := msg |} ] |}).

Definition hasErrors (r : reporter) : bool := (0 <? length (errs r))%nat.

(** ** YAML helpers (lines 424-436 and 874-886) *)

Fixpoint getFieldLoop (c : list Node) (key : string) : result (option Node) :=
  match c with
  | [] => Ok None
  | k :: v :: rest =>
      if isScalar k && (Value k =? key)%string then Ok (Some v)
      else getFieldLoop rest key
  | [_] => Panic
  end.

Definition getField (obj : Node) (key : string) : result (option Node) :=
  if negb (isMapping obj) then Ok None
  else getFieldLoop (Content obj) key.

(** [fmt.Sprintf("%s has unsupported value '%s'", what, v)] and friends *)
Definition quoted (what v : string) : string := what +:+ " '" +:+ v +:+ "'".

Definition msgDuplicate : string := "name has invalid format 'duplicate'".

(** ** What a run leaves behind

    The text written to each stream, one string for each call of a
    printing function, in order, and the status of the exit. *)

Record outcome : Type :=
  mkOutcome { stdout : list string; stderr : list string; status : Z }.

(** A run that writes nothing and exits with status 0. *)
Definition quiet : outcome := {| stdout := []; stderr := []; status := 0 |}.

(** The end of a line, as the format strings write it. *)
Definition newline : string := String "010" EmptyString.

(** The verb of the line number, a decimal integer. *)
Definition fmtInt (n : Z) : string := pretty n.

(** * First revision (lines 1-461) *)

Module Rev1.

(** [addRequired] (lines 31-34): the form without a line. *)
Definition addRequired (field : string) : M unit :=
  fun r => Ok (tt, {| r_file := r_file r;
                      errs := errs r ++ [ {| file := r_file r; line := 0;
                                             msg := field +:+ " is required" |} ] |}).

(** [asInt] (lines 438-461): value, line, error. *)
Definition asInt (n : Node) : Z * Z * option error :=
  match Kind n with
  | ScalarNode =>
      if (Tag n =? "!!int")%string then
        match Atoi (Value n) with
        | (_, Some err) => (0, Line n, Some err)
        | (v, None) => (v, Line n, None)
        end
      else if (Tag n =? "!!str")%string then
        match Atoi (TrimSpace (Value n)) with
        | (_, Some _) => (0, Line n, Some ErrNotInt)
        | (v, None) => (v, Line n, None)
        end
      else (0, Line n, Some ErrNotInt)
  | _ => (0, Line n, Some ErrNotInt)
  end.

(** [validateResKV] (lines 382-420): first the body of its loop (lines
    389-415); [cpuSeen] and [memSeen] are written and never read. *)
Definition resKVBody (prefix : string) (k v : Node) : M unit :=
  if notStr k then add (Line k) (prefix +:+ " key must be string")
  else if (Value k =? "cpu")%string then
    match asInt v with
    | (_, line, Some _) => add line "cpu must be int"
    | (ival, line, None) =>
        if ival <? 0 then add line "cpu value out of range" else skip
    end
  else if (Value k =? "memory")%string then
    if notStr v then add (Line v) "memory must be string"
    else if negb (reMem (Value v)) then
      add (Line v) (quoted "resources.limits.memory has invalid format" (Value v))
    else skip
  else skip.

(** The function itself (lines 382-420). *)
Definition validateResKV (n : Node) (prefix : string) : M unit :=
  if negb (isMapping n) then add (Line n) (prefix +:+ " must be object")
  else forPairs (resKVBody prefix) (Content n).

(** [validateResources] (lines 368-380) *)
Definition validateResources (n : Node) : M unit :=
  if negb (isMapping n) then add (Line n) "resources must be object"
  else
    (do lim <- lift (getField n "limits");
     match lim with
     | Some lim => validateResKV lim "resources.limits"
     | None => skip
     end) >>
    (do req <- lift (getField n "requests");
     match req with
     | Some req => validateResKV req "resources.requests"
     | None => skip
     end).

(** [validateProbe] (lines 328-365) *)
Definition validateProbe (n : Node) (prefix : string) : M unit :=
  if negb (isMapping n) then add (Line n) (prefix +:+ " must be object")
  else
    do hg <- lift (getField n "httpGet");
    match hg with
    | None => addRequired (prefix +:+ ".httpGet")
    | Some hg =>
        if negb (isMapping hg) then add (Line hg) "httpGet must be object"
        else
          (do path <- lift (getField hg "path");
           match path with
           | None => addRequired (prefix +:+ ".httpGet.path")
           | Some path =>
               if notStr path then add (Line path) "path must be string"
               else if negb (String.prefix "/" (Value path)) then
                 add (Line path) (quoted "path has invalid format" (Value path))
               else skip
           end) >>
          (do port <- lift (getField hg "port");
           match port with
           | None => addRequired (prefix +:+ ".httpGet.port")
           | Some port =>
               match asInt port with
               | (_, line, Some _) => add line "port must be int"
               | (ival, line, None) =>
                   if (ival <=? 0) || (65536 <=? ival)
                   then add line "port value out of range" else skip
               end
           end)
    end.

(** [validateContainerPort] (lines 306-325), field by field: first the
    [containerPort] block (lines 307-317). *)
Definition portContainerPort (n : Node) : M unit :=
  do cp <- lift (getField n "containerPort");
  match cp with
  | None => addRequired "ports.containerPort"
  | Some cp =>
      match asInt cp with
      | (_, line, Some _) => add line "containerPort must be int"
      | (ival, line, None) =>
          if (ival <=? 0) || (65536 <=? ival)
          then add line "containerPort value out of range" else skip
      end
  end.

(** The [protocol] block (lines 318-324). *)
Definition portProtocol (n : Node) : M unit :=
  do pr <- lift (getField n "protocol");
  match pr with
  | None => skip
  | Some pr =>
      if notStr pr then add (Line pr) "protocol must be string"
      else if negb (bool_decide (Value pr ∈ validProtocol)) then
        add (Line pr) (quoted "protocol has unsupported value" (Value pr))
      else skip
  end.

(** The function itself (lines 306-325). *)
Definition validateContainerPort (n : Node) : M unit :=
  portContainerPort n >> portProtocol n.

(** The body of the loop over the containers (lines 237-301), which
    the first revision has inside [validatePodSpec]; the map
    [seenNames] is updated in place in Go and returned here.  The name
    block comes first. *)
Definition containerName (item : Node) (seen : gset string) : M (gset string) :=
  do nameNode <- lift (getField item "name");
  match nameNode with
  | None => addRequired "containers.name" >> ret seen
  | Some nameNode =>
      if notStr nameNode then add (Line nameNode) "name must be string" >> ret seen
      else if (TrimSpace (Value nameNode) =? "")%string || negb (reSnake (Value nameNode)) then
        add (Line nameNode) (quoted "name has invalid format" (Value nameNode)) >> ret seen
      else
        let cname := Value nameNode in
        (if bool_decide (cname ∈ seen) then add (Line nameNode) msgDuplicate else skip) >>
        ret ({[ cname ]} ∪ seen)
  end.

(** The [image] block (lines 261-270). *)
Definition containerImage (item : Node) : M unit :=
  do img <- lift (getField item "image");
  match img with
  | None => addRequired "containers.image"
  | Some img =>
      if notStr img then add (Line img) "image must be string"
      else if negb (reImage (Value img)) then
        add (Line img) (quoted "image has invalid format" (Value img))
      else skip
  end.

(** The body of the loop over the ports (lines 277-283). *)
Definition portsItem (pn : Node) : M unit :=
  if negb (isMapping pn) then add (Line pn) "ports item must be object"
  else validateContainerPort pn.

(** The [ports] block (lines 272-285). *)
Definition containerPorts (item : Node) : M unit :=
  do ports <- lift (getField item "ports");
  match ports with
  | None => skip
  | Some ports =>
      if negb (isSequence ports) then add (Line ports) "ports must be array"
      else forRange portsItem (Content ports)
  end.

(** The two probe blocks (lines 287-294), one for each prefix. *)
Definition containerProbe (item : Node) (prefix : string) : M unit :=
  do p <- lift (getField item prefix);
  match p with
  | None => skip
  | Some p => validateProbe p prefix
  end.

(** The [resources] block (lines 296-301). *)
Definition containerResources (item : Node) : M unit :=
  do res <- lift (getField item "resources");
  match res with
  | None => addRequired "containers.resources"
  | Some res => validateResources res
  end.

(** Everything of the loop body after the name block (lines 261-301). *)
Definition containerFields (item : Node) : M unit :=
  containerImage item >>
  containerPorts item >>
  containerProbe item "readinessProbe" >>
  containerProbe item "livenessProbe" >>
  containerResources item.

(** The whole body of the loop (lines 237-301). *)
Definition containerBody (item : Node) (seen : gset string) : M (gset string) :=
  do seen' <- containerName item seen;
  containerFields item >> ret seen'.

(** [validatePodSpec] (lines 192-303): first the [os] block (lines
    193-218). *)
Definition specOs (n : Node) : M unit :=
  do osNode <- lift (getField n "os");
  match osNode with
  | None => skip
  | Some osNode =>
      match Kind osNode with
      | ScalarNode =>
          if negb (Tag osNode =? "!!str")%string then add (Line osNode) "os must be string"
          else if negb (bool_decide (Value osNode ∈ validOS)) then
            add (Line osNode) (quoted "os has unsupported value" (Value osNode))
          else skip
      | MappingNode =>
          do nameNode <- lift (getField osNode "name");
          match nameNode with
          | None => addRequired "spec.os.name"
          | Some nameNode =>
              if notStr nameNode then add (Line nameNode) "os.name must be string"
              else if negb (bool_decide (Value nameNode ∈ validOS)) then
                add (Line nameNode) (quoted "os has unsupported value" (Value nameNode))
              else skip
          end
      | _ => add (Line osNode) "os must be string or object"
      end
  end.

(** One turn of the loop over the containers (lines 236-302). *)
Definition containersItem (item : Node) (seen : gset string) : M (gset string) :=
  if negb (isMapping item) then add (Line item) "container must be object" >> ret seen
  else containerBody item seen.

(** The [containers] block (lines 220-302); [seenNames] starts empty. *)
Definition specContainers (n : Node) : M unit :=
  do containers <- lift (getField n "containers");
  match containers with
  | None => addRequired "spec.containers"
  | Some containers =>
      if negb (isSequence containers) then add (Line containers) "containers must be array"
      else
        (if (length (Content containers) =? 0)%nat
         then add (Line containers) "containers value out of range" else skip) >>
        (do _ <- foldRange containersItem (Content containers) ∅; skip)
  end.

(** The function itself (lines 192-303). *)
Definition validatePodSpec (n : Node) : M unit :=
  specOs n >> specContainers n.

(** [validateObjectMeta] (lines 154-189): first the [name] block (lines
    155-164). *)
Definition metaName (n : Node) : M unit :=
  do name <- lift (getField n "name");
  match name with
  | None => addRequired "metadata.name"
  | Some name =>
      if notStr name then add (Line name) "name must be string"
      else if (TrimSpace (Value name) =? "")%string then
        add (Line name) "name has invalid format ''"
      else skip
  end.

(** The [namespace] block (lines 166-170). *)
Definition metaNamespace (n : Node) : M unit :=
  do ns <- lift (getField n "namespace");
  match ns with
  | None => skip
  | Some ns => if notStr ns then add (Line ns) "namespace must be string" else skip
  end.

(** The body of the loop over the labels (lines 178-185): the value first. *)
Definition labelsBody (k v : Node) : M unit :=
  (if notStr v then add (Line v) "labels value must be string" else skip) >>
  (if notStr k then add (Line k) "labels key must be string" else skip).

(** The [labels] block (lines 172-188). *)
Definition metaLabels (n : Node) : M unit :=
  do labels <- lift (getField n "labels");
  match labels with
  | None => skip
  | Some labels =>
      if negb (isMapping labels) then add (Line labels) "labels must be object"
      else forPairs labelsBody (Content labels)
  end.

(** The function itself (lines 154-189). *)
Definition validateObjectMeta (n : Node) : M unit :=
  metaName n >> metaNamespace n >> metaLabels n.

(** [validatePod] (lines 106-151): four blocks, one per field; first
    the [apiVersion] block (lines 108-117).  The argument [filename] is
    not used by the function. *)
Definition podApiVersion (doc : Node) : M unit :=
  do n <- lift (getField doc "apiVersion");
  match n with
  | None => addRequired "apiVersion"
  | Some n =>
      if notStr n then add (Line n) "apiVersion must be string"
      else if negb (Value n =? "v1")%string then
        add (Line n) (quoted "apiVersion has unsupported value" (Value n))
      else skip
  end.

(** The [kind] block (lines 119-128). *)
Definition podKind (doc : Node) : M unit :=
  do n <- lift (getField doc "kind");
  match n with
  | None => addRequired "kind"
  | Some n =>
      if notStr n then add (Line n) "kind must be string"
      else if negb (Value n =? "Pod")%string then
        add (Line n) (quoted "kind has unsupported value" (Value n))
      else skip
  end.

(** The [metadata] block (lines 130-139). *)
Definition podMetadata (doc : Node) : M unit :=
  do n <- lift (getField doc "metadata");
  match n with
  | None => addRequired "metadata"
  | Some n =>
      if negb (isMapping n) then add (Line n) "metadata must be object"
      else validateObjectMeta n
  end.

(** The [spec] block (lines 141-150). *)
Definition podSpec (doc : Node) : M unit :=
  do n <- lift (getField doc "spec");
  match n with
  | None => addRequired "spec"
  | Some n =>
      if negb (isMapping n) then add (Line n) "spec must be object"
      else validatePodSpec n
  end.

(** The function itself (lines 106-151). *)
Definition validatePod (filename : string) (doc : Node) : M unit :=
  podApiVersion doc >> podKind doc >> podMetadata doc >> podSpec doc.

(** The loop of [main] over the documents (lines 91-97); [abs] is the
    absolute path that [main] passes on. *)
Definition mainDocument (abs : string) (doc : Node) : M unit :=
  if negb (isMapping doc) then add (Line doc) "root must be object"
  else validatePod abs doc.

(** The loop (lines 91-97). *)
Definition mainLoop (abs : string) (docs : list Node) : M unit :=
  forRange (mainDocument abs) docs.

(** [flushToStderr] (lines 38-47): the text of each call of [Fprintf];
    the name printed is that of the reporter. *)
Definition flushToStderr (r : reporter) : list string :=
  List.map (fun e =>
              if 0 <? line e
              then r_file r +:+ ":" +:+ fmtInt (line e) +:+ " " +:+ msg e +:+ newline
              else r_file r +:+ ": " +:+ msg e +:+ newline)
           (errs r).

(** The end of [main] (lines 89-103), from the documents of the file
    to the exit: [file] is the argument of the command line. *)
Definition mainReport (file abs : string) (docs : list Node) : result outcome :=
  match mainLoop abs docs {| r_file := file; errs := [] |} with
  | Ok (_, rep) =>
      if hasErrors rep
      then Ok {| stdout := []; stderr := flushToStderr rep; status := 1 |}
      else Ok {| stdout := []; stderr := []; status := 0 |}
  | Panic => Panic
  end.

End Rev1.

(** * Second revision (lines 462-906) *)

Module Rev2.

(** [addRequiredNoLine] (lines 491-493): the form without a line. *)
Definition addRequiredNoLine (field : string) : M unit :=
  fun r => Ok (tt, {| r_file := r_file r;
                      errs := errs r ++ [ {| file := r_file r; line := 0;
                                             msg := field +:+ " is required" |} ] |}).

(** [addRequiredAt] (lines 495-497): the same message, on a line. *)
Definition addRequiredAt (line : Z) (field : string) : M unit :=
  fun r => Ok (tt, {| r_file := r_file r;
                      errs := errs r ++ [ {| file := r_file r; line := line;
                                             msg := field +:+ " is required" |} ] |}).

(** [asInt] (lines 888-906): value, line, error. *)
Definition asInt (n : Node) : Z * Z * option error :=
  match Kind n with
  | ScalarNode =>
      if (Tag n =? "!!int")%string then
        let '(v, err) := Atoi (Value n) in (v, Line n, err)
      else if (Tag n =? "!!str")%string then
        match Atoi (TrimSpace (Value n)) with
        | (_, Some _) => (0, Line n, Some ErrNotInt)
        | (v, None) => (v, Line n, None)
        end
      else (0, Line n, Some ErrNotInt)
  | _ => (0, Line n, Some ErrNotInt)
  end.

(** [validateResKV] (lines 840-870): first the body of its loop (lines
    846-868). *)
Definition resKVBody (prefix : string) (k v : Node) : M unit :=
  if notStr k then add (Line k) (prefix +:+ " key must be string")
  else if (Value k =? "cpu")%string then
    match asInt v with
    | (_, line, Some _) => add line "cpu must be int"
    | (ival, line, None) =>
        if ival <? 0 then add line "cpu value out of range" else skip
    end
  else if (Value k =? "memory")%string then
    if notStr v then add (Line v) "memory must be string"
    else if negb (reMem (Value v)) then
      add (Line v) (quoted (prefix +:+ ".memory has invalid format") (Value v))
    else skip
  else skip.

(** The function itself (lines 840-870). *)
Definition validateResKV (n : Node) (prefix : string) : M unit :=
  if negb (isMapping n) then add (Line n) (prefix +:+ " must be object")
  else forPairs (resKVBody prefix) (Content n).

(** [validateResources] (lines 827-838) *)
Definition validateResources (n : Node) : M unit :=
  if negb (isMapping n) then add (Line n) "resources must be object"
  else
    (do lim <- lift (getField n "limits");
     match lim with
     | Some lim => validateResKV lim "resources.limits"
     | None => skip
     end) >>
    (do req <- lift (getField n "requests");
     match req with
     | Some req => validateResKV req "resources.requests"
     | None => skip
     end).

(** [validateProbe] (lines 790-823) *)
Definition validateProbe (n : Node) (prefix : string) : M unit :=
  if negb (isMapping n) then add (Line n) (prefix +:+ " must be object")
  else
    do hg <- lift (getField n "httpGet");
    match hg with
    | None => addRequiredNoLine (prefix +:+ ".httpGet")
    | Some hg =>
        if negb (isMapping hg) then add (Line hg) "httpGet must be object"
        else
          (do path <- lift (getField hg "path");
           match path with
           | None => addRequiredNoLine (prefix +:+ ".httpGet.path")
           | Some path =>
               if notStr path then add (Line path) "path must be string"
               else if negb (String.prefix "/" (Value path)) then
                 add (Line path) (quoted "path has invalid format" (Value path))
               else skip
           end) >>
          (do port <- lift (getField hg "port");
           match port with
           | None => addRequiredNoLine (prefix +:+ ".httpGet.port")
           | Some port =>
               match asInt port with
               | (_, line, Some _) => add line "port must be int"
               | (ival, line, None) =>
                   if (ival <=? 0) || (65536 <=? ival)
                   then add line "port value out of range" else skip
               end
           end)
    end.

(** [validateContainerPort] (lines 768-786), field by field: first the
    [containerPort] block (lines 769-778). *)
Definition portContainerPort (n : Node) : M unit :=
  do cp <- lift (getField n "containerPort");
  match cp with
  | None => addRequiredNoLine "ports.containerPort"
  | Some cp =>
      match asInt cp with
      | (_, line, Some _) => add line "containerPort must be int"
      | (ival, line, None) =>
          if (ival <=? 0) || (65536 <=? ival)
          then add line "containerPort value out of range" else skip
      end
  end.

(** The [protocol] block (lines 779-785). *)
Definition portProtocol (n : Node) : M unit :=
  do pr <- lift (getField n "protocol");
  match pr with
  | None => skip
  | Some pr =>
      if notStr pr then add (Line pr) "protocol must be string"
      else if negb (bool_decide (Value pr ∈ validProtocol)) then
        add (Line pr) (quoted "protocol has unsupported value" (Value pr))
      else skip
  end.

(** The function itself (lines 768-786). *)
Definition validateContainerPort (n : Node) : M unit :=
  portContainerPort n >> portProtocol n.

(** [validateContainer] (lines 702-764); the map [seen] is updated in
    place in Go and returned here.  The name block comes first. *)
Definition containerName (item : Node) (seen : gset string) : M (gset string) :=
  do nameNode <- lift (getField item "name");
  match nameNode with
  | None => addRequiredNoLine "containers.name" >> ret seen
  | Some nameNode =>
      if notStr nameNode then add (Line nameNode) "name must be string" >> ret seen
      else if (TrimSpace (Value nameNode) =? "")%string then
        addRequiredAt (Line nameNode) "name" >> ret seen
      else if negb (reSnake (Value nameNode)) then
        add (Line nameNode) (quoted "name has invalid format" (Value nameNode)) >> ret seen
      else
        let cname := Value nameNode in
        (if bool_decide (cname ∈ seen) then add (Line nameNode) msgDuplicate else skip) >>
        ret ({[ cname ]} ∪ seen)
  end.

(** The [image] block (lines 725-733). *)
Definition containerImage (item : Node) : M unit :=
  do img <- lift (getField item "image");
  match img with
  | None => addRequiredNoLine "containers.image"
  | Some img =>
      if notStr img then add (Line img) "image must be string"
      else if negb (reImage (Value img)) then
        add (Line img) (quoted "image has invalid format" (Value img))
      else skip
  end.

(** The body of the loop over the ports (lines 741-745). *)
Definition portsItem (pn : Node) : M unit :=
  if negb (isMapping pn) then add (Line pn) "ports item must be object"
  else validateContainerPort pn.

(** The [ports] block (lines 736-748). *)
Definition containerPorts (item : Node) : M unit :=
  do ports <- lift (getField item "ports");
  match ports with
  | None => skip
  | Some ports =>
      if negb (isSequence ports) then add (Line ports) "ports must be array"
      else forRange portsItem (Content ports)
  end.

(** The two probe blocks (lines 751-756), one for each prefix. *)
Definition containerProbe (item : Node) (prefix : string) : M unit :=
  do p <- lift (getField item prefix);
  match p with
  | None => skip
  | Some p => validateProbe p prefix
  end.

(** The [resources] block (lines 759-763). *)
Definition containerResources (item : Node) : M unit :=
  do res <- lift (getField item "resources");
  match res with
  | None => addRequiredNoLine "containers.resources"
  | Some res => validateResources res
  end.

(** Everything of [validateContainer] after the name block (lines
    725-763). *)
Definition containerFields (item : Node) : M unit :=
  containerImage item >>
  containerPorts item >>
  containerProbe item "readinessProbe" >>
  containerProbe item "livenessProbe" >>
  containerResources item.

(** The function itself (lines 702-764). *)
Definition validateContainer (item : Node) (seen : gset string) : M (gset string) :=
  do seen' <- containerName item seen;
  containerFields item >> ret seen'.

(** [validatePodSpec] (lines 653-698): first the [os] block (lines
    655-674). *)
Definition specOs (n : Node) : M unit :=
  do osNode <- lift (getField n "os");
  match osNode with
  | None => skip
  | Some osNode =>
      match Kind osNode with
      | ScalarNode =>
          if negb (Tag osNode =? "!!str")%string then add (Line osNode) "os must be string"
          else if negb (bool_decide (Value osNode ∈ validOS)) then
            add (Line osNode) (quoted "os has unsupported value" (Value osNode))
          else skip
      | MappingNode =>
          do nameNode <- lift (getField osNode "name");
          match nameNode with
          | None => addRequiredNoLine "spec.os.name"
          | Some nameNode =>
              if notStr nameNode then add (Line nameNode) "os.name must be string"
              else if negb (bool_decide (Value nameNode ∈ validOS)) then
                add (Line nameNode) (quoted "os has unsupported value" (Value nameNode))
              else skip
          end
      | _ => add (Line osNode) "os must be string or object"
      end
  end.

(** One turn of the loop over the containers (lines 692-696). *)
Definition containersItem (item : Node) (seen : gset string) : M (gset string) :=
  if negb (isMapping item) then add (Line item) "container must be object" >> ret seen
  else validateContainer item seen.

(** The [containers] block (lines 677-697); [seenNames] starts empty. *)
Definition specContainers (n : Node) : M unit :=
  do containers <- lift (getField n "containers");
  match containers with
  | None => addRequiredNoLine "spec.containers"
  | Some containers =>
      if negb (isSequence containers) then add (Line containers) "containers must be array"
      else
        (if (length (Content containers) =? 0)%nat
         then add (Line containers) "containers value out of range" else skip) >>
        (do _ <- foldRange containersItem (Content containers) ∅; skip)
  end.

(** The function itself (lines 653-698). *)
Definition validatePodSpec (n : Node) : M unit :=
  specOs n >> specContainers n.

(** [validateObjectMeta] (lines 615-649): first the [name] block (lines
    616-625). *)
Definition metaName (n : Node) : M unit :=
  do name <- lift (getField n "name");
  match name with
  | None => addRequiredNoLine "metadata.name"
  | Some name =>
      if notStr name then add (Line name) "name must be string"
      else if (TrimSpace (Value name) =? "")%string then addRequiredAt (Line name) "name"
      else skip
  end.

(** The [namespace] block (lines 627-631). *)
Definition metaNamespace (n : Node) : M unit :=
  do ns <- lift (getField n "namespace");
  match ns with
  | None => skip
  | Some ns => if notStr ns then add (Line ns) "namespace must be string" else skip
  end.

(** The body of the loop over the labels (lines 638-645): the key first. *)
Definition labelsBody (k v : Node) : M unit :=
  (if notStr k then add (Line k) "labels key must be string" else skip) >>
  (if notStr v then add (Line v) "labels value must be string" else skip).

(** The [labels] block (lines 633-648). *)
Definition metaLabels (n : Node) : M unit :=
  do labels <- lift (getField n "labels");
  match labels with
  | None => skip
  | Some labels =>
      if negb (isMapping labels) then add (Line labels) "labels must be object"
      else forPairs labelsBody (Content labels)
  end.

(** The function itself (lines 615-649). *)
Definition validateObjectMeta (n : Node) : M unit :=
  metaName n >> metaNamespace n >> metaLabels n.

(** [validatePod] (lines 567-611): four blocks, one per field; first
    the [apiVersion] block (lines 569-577). *)
Definition podApiVersion (doc : Node) : M unit :=
  do n <- lift (getField doc "apiVersion");
  match n with
  | None => addRequiredNoLine "apiVersion"
  | Some n =>
      if notStr n then add (Line n) "apiVersion must be string"
      else if negb (Value n =? "v1")%string then
        add (Line n) (quoted "apiVersion has unsupported value" (Value n))
      else skip
  end.

(** The [kind] block (lines 580-588). *)
Definition podKind (doc : Node) : M unit :=
  do n <- lift (getField doc "kind");
  match n with
  | None => addRequiredNoLine "kind"
  | Some n =>
      if notStr n then add (Line n) "kind must be string"
      else if negb (Value n =? "Pod")%string then
        add (Line n) (quoted "kind has unsupported value" (Value n))
      else skip
  end.

(** The [metadata] block (lines 591-599). *)
Definition podMetadata (doc : Node) : M unit :=
  do n <- lift (getField doc "metadata");
  match n with
  | None => addRequiredNoLine "metadata"
  | Some n =>
      if negb (isMapping n) then add (Line n) "metadata must be object"
      else validateObjectMeta n
  end.

(** The [spec] block (lines 602-610). *)
Definition podSpec (doc : Node) : M unit :=
  do n <- lift (getField doc "spec");
  match n with
  | None => addRequiredNoLine "spec"
  | Some n =>
      if negb (isMapping n) then add (Line n) "spec must be object"
      else validatePodSpec n
  end.

(** The function itself (lines 567-611). *)
Definition validatePod (doc : Node) : M unit :=
  podApiVersion doc >> podKind doc >> podMetadata doc >> podSpec doc.

(** The loop of [main] over the documents (lines 550-556). *)
Definition mainDocument (doc : Node) : M unit :=
  if negb (isMapping doc) then add (Line doc) "root must be object"
  else validatePod doc.

(** The loop (lines 550-556). *)
Definition mainLoop (docs : list Node) : M unit := forRange mainDocument docs.

(** [flushToStdout] (lines 501-509): the text of each call of [Printf];
    the name printed is that of the diagnostic. *)
Definition flushToStdout (r : reporter) : list string :=
  List.map (fun e =>
              if 0 <? line e
              then file e +:+ ":" +:+ fmtInt (line e) +:+ " " +:+ msg e +:+ newline
              else file e +:+ ": " +:+ msg e +:+ newline)
           (errs r).

(** The end of [main] (lines 548-562), from the documents of the file
    to the exit: [base] is the last element of the path of the file. *)
Definition mainReport (base : string) (docs : list Node) : result outcome :=
  match mainLoop docs {| r_file := base; errs := [] |} with
  | Ok (_, rep) =>
      if hasErrors rep
      then Ok {| stdout := flushToStdout rep; stderr := []; status := 1 |}
      else Ok {| stdout := []; stderr := []; status := 0 |}
  | Panic => Panic
  end.

End Rev2.

(** * Vocabulary of the statements *)

(** The reporter [r] after the diagnostics [ds] have been appended. *)
Definition appendErrs (r : reporter) (ds : list errOut) : reporter :=
  {| r_file := r_file r; errs := errs r ++ ds |}.

(** What a computation appends when it starts on an empty reporter for
    the file [f]; a panic appends nothing. *)
Definition diags {A} (m : M A) (f : string) : list errOut :=
  match m {| r_file := f; errs := [] |} with
  | Ok (_, r) => errs r
  | Panic => []
  end.

(** A computation is append-only when, on any reporter, it does what it
    does on the empty one and keeps what was there in front of it. *)
Definition framed {A} (m : M A) : Prop :=
  forall rep,
    m rep = match m {| r_file := r_file rep; errs := [] |} with
            | Ok (a, r0) => Ok (a, appendErrs rep (errs r0))
            | Panic => Panic
            end.

(** A computation is safe when it never panics. *)
Definition safe {A} (m : M A) : Prop :=
  forall rep, exists a rep', m rep = Ok (a, rep').

(** ** Integer literals, as the claims on [asInt] speak of them *)

(** The number that a string of decimal digits denotes. *)
Definition decimal (ds : list N) : Z :=
  fold_left (fun acc c => acc * 10 + (Z.of_N c - 48)) ds 0.

(** A base-10 literal: an optional sign, then one or more digits. *)
Definition literal (s : string) : option Z :=
  match bytesOf s with
  | [] => None
  | c :: r =>
      let body := if ((c =? 43) || (c =? 45))%N then r else c :: r in
      if negb (length body =? 0)%nat && forallb isDigit body
      then Some (if (c =? 45)%N then - decimal body else decimal body)
      else None
  end.

(** A literal whose value is an [int] of 64 bits. *)
Definition intLiteral (s : string) : option Z :=
  match literal s with
  | Some v => if (minInt <=? v) && (v <=? maxInt) then Some v else None
  | None => None
  end.

(** A text made of decimal digits only, and of at least one. *)
Definition onlyDigits (s : string) : bool :=
  match bytesOf s with
  | [] => false
  | l => forallb isDigit l
  end.

(** ** Sample trees, with the tags and lines the parser gives *)

Definition str (v : string) (l : Z) : Node := mkNode ScalarNode "!!str" v l [].
Definition int (v : string) (l : Z) : Node := mkNode ScalarNode "!!int" v l [].
Definition mapping (l : Z) (c : list Node) : Node := mkNode MappingNode "!!map" "" l c.
Definition sequence (l : Z) (c : list Node) : Node := mkNode SequenceNode "!!seq" "" l c.

(** A container named [name] on line [l], with its image on line
    [l + 1] and empty resources on line [l + 2]. *)
Definition container (name : string) (l : Z) : Node :=
  mapping l [ str "name" l; str name l;
              str "image" (l + 1); str "registry.bigbrother.io/app:1.0" (l + 1);
              str "resources" (l + 2); mapping (l + 2) [] ].

(** A Pod on nine lines and more: metadata name [mname] on line 4, the
    containers from line 7 on. *)
Definition pod (mname : string) (containers : list Node) : Node :=
  mapping 1 [ str "apiVersion" 1; str "v1" 1;
              str "kind" 2; str "Pod" 2;
              str "metadata" 3; mapping 4 [ str "name" 4; str mname 4 ];
              str "spec" 5; mapping 6 [ str "containers" 6; sequence 7 containers ] ].

Definition emptyReporter (f : string) : reporter := {| r_file := f; errs := [] |}.

(** An item of [ports] on line 3. *)
Definition portItem (cp : Node) : Node := mapping 3 [ str "containerPort" 3; cp ].

(** The specification [containers: []], the sequence on line 6. *)
Definition specNoContainers : Node := mapping 6 [ str "containers" 6; sequence 6 [] ].

(** Two probes on line 9: one without [httpGet], one whose [httpGet]
    is the scalar on line 10. *)
Definition probeNoHttpGet : Node := mapping 9 [ str "exec" 9; str "true" 9 ].
Definition probeScalarHttpGet : Node :=
  mapping 9 [ str "httpGet" 9; str "/health" 10; str "path" 11; int "7" 11 ].

(** A document whose four fields are all wrong in their own way: no
    [apiVersion], a [kind] that is not the literal, a scalar for
    [metadata], a sequence for [spec]. *)
Definition podAllWrong : Node :=
  mapping 1 [ str "kind" 1; str "Deployment" 1;
              str "metadata" 2; str "x" 2;
              str "spec" 3; sequence 3 [] ].

(** A reporter that already holds one diagnostic. *)
Definition oneError : reporter :=
  {| r_file := "pod.yaml"; errs := [ mkErrOut "pod.yaml" 3 "root must be object" ] |}.

(** ** Container names *)

(** A name that passes both tests of the name block: not empty once
    trimmed, and in snake case. *)
Definition validName (v : string) : bool :=
  negb (TrimSpace v =? "")%string && reSnake v.

(** The name under which a container is entered in the map of the names
    seen: its [name] field, when that is a string scalar with a valid
    name. *)
Definition registeredName (item : Node) : option string :=
  match getField item "name" with
  | Ok (Some nm) =>
      if notStr nm then None
      else if validName (Value nm) then Some (Value nm) else None
  | _ => None
  end.

Definition registeredNames (items : list Node) : list string :=
  omap registeredName items.

(** ** The size of a tree *)

(** The number of nodes of a tree. *)
Fixpoint size (n : Node) : nat :=
  match n with
  | mkNode _ _ _ _ c => S (list_sum (List.map size c))
  end.

(** A computation appends at most [b] diagnostics. *)
Definition emitsAtMost {A} (m : M A) (b : nat) : Prop :=
  forall rep a rep',
    m rep = Ok (a, rep') -> (length (errs rep') <= length (errs rep) + b)%nat.

(** A container on line 7 whose resources hold the given limits. *)
Definition containerWithLimits (limits : list Node) : Node :=
  mapping 7 [ str "name" 7; str "web" 7;
              str "image" 8; str "registry.bigbrother.io/app:1.0" 8;
              str "resources" 9; mapping 10 [ str "limits" 10; mapping 11 limits ] ].

(** ** Keys of a mapping *)

(** The key nodes of the content of a mapping: the nodes at the even
    positions that have a value after them. *)
Fixpoint keysOf (c : list Node) : list Node :=
  match c with
  | k :: _ :: rest => k :: keysOf rest
  | _ => []
  end.

(** The key node [k] stands for the field [key]. *)
Definition isKey (key : string) (k : Node) : Prop :=
  Kind k = ScalarNode /\ Value k = key.

(** A mapping on line 1 with the field [kind] twice and a key without a
    value at the end. *)
Definition twoKinds : Node :=
  mapping 1 [ str "apiVersion" 1; str "v1" 1;
              str "kind" 2; str "Pod" 2;
              str "kind" 3; str "Job" 3;
              str "spec" 4 ].

(** ** Texts *)

(** The text [s] holds no newline. *)
Definition noNewline (s : string) : Prop :=
  ~ In "010"%char (list_ascii_of_string s).

(** ** Scalars *)

(** A string scalar. *)
Definition isStr (n : Node) : Prop := Kind n = ScalarNode /\ Tag n = "!!str".

(** The node [n] is a scalar that reads as the integer [v]: it is
    tagged as an integer and its text is a literal of an [int], or it
    is tagged as a string and its text is one once trimmed. *)
Definition coerces (n : Node) (v : Z) : Prop :=
  Kind n = ScalarNode
  /\ ((Tag n = "!!int" /\ intLiteral (Value n) = Some v)
      \/ (Tag n = "!!str" /\ intLiteral (TrimSpace (Value n)) = Some v)).

(** ** Documents that pass *)

(** The key and value nodes of the content of a mapping, pair by pair. *)
Fixpoint pairsOf (c : list Node) : list (Node * Node) :=
  match c with
  | k :: v :: rest => (k, v) :: pairsOf rest
  | _ => []
  end.

(** The field [key] of [n] is there and its value satisfies [P]. *)
Definition fieldIs (n : Node) (key : string) (P : Node -> Prop) : Prop :=
  exists v, getField n key = Ok (Some v) /\ P v.

(** The field [key] of [n] is not there, or its value satisfies [P]. *)
Definition fieldMayBe (n : Node) (key : string) (P : Node -> Prop) : Prop :=
  getField n key = Ok None \/ fieldIs n key P.

(** A string scalar whose value is one of [values]. *)
Definition strIn (values : list string) (n : Node) : Prop :=
  isStr n /\ In (Value n) values.

(** A scalar that reads as a port number. *)
Definition portNumber (n : Node) : Prop :=
  exists v, coerces n v /\ 1 <= v <= 65535.

(** A mapping whose content is made of pairs. *)
Definition pairedMapping (n : Node) : Prop :=
  Kind n = MappingNode /\ Nat.even (length (Content n)) = true.

Definition portItemPasses (pn : Node) : Prop :=
  fieldIs pn "containerPort" portNumber
  /\ fieldMayBe pn "protocol" (strIn [ "TCP"; "UDP" ]).

Definition httpGetPasses (hg : Node) : Prop :=
  Kind hg = MappingNode
  /\ fieldIs hg "path" (fun path => isStr path /\ String.prefix "/" (Value path) = true)
  /\ fieldIs hg "port" portNumber.

Definition probePasses (p : Node) : Prop :=
  Kind p = MappingNode /\ fieldIs p "httpGet" httpGetPasses.

(** A pair of [limits] or [requests]: the key is a string; under [cpu]
    stands a scalar that reads as a natural number, under [memory] a
    string of the form of a quantity; any other key goes with any
    value. *)
Definition quantityPairPasses (kv : Node * Node) : Prop :=
  isStr kv.1
  /\ (Value kv.1 = "cpu" -> exists z, coerces kv.2 z /\ 0 <= z)
  /\ (Value kv.1 = "memory" -> isStr kv.2 /\ reMem (Value kv.2) = true).

Definition quantitiesPass (m : Node) : Prop :=
  pairedMapping m /\ Forall quantityPairPasses (pairsOf (Content m)).

Definition resourcesPass (r : Node) : Prop :=
  Kind r = MappingNode
  /\ fieldMayBe r "limits" quantitiesPass
  /\ fieldMayBe r "requests" quantitiesPass.

Definition labelsPass (l : Node) : Prop :=
  pairedMapping l /\ Forall (fun kv : Node * Node => isStr kv.1 /\ isStr kv.2) (pairsOf (Content l)).

Definition metadataPasses (m : Node) : Prop :=
  fieldIs m "name" (fun nm => isStr nm /\ TrimSpace (Value nm) <> "")
  /\ fieldMayBe m "namespace" isStr
  /\ fieldMayBe m "labels" labelsPass.

Definition namePasses (nm : Node) : Prop := isStr nm /\ reSnake (Value nm) = true.

Definition imagePasses (i : Node) : Prop := isStr i /\ reImage (Value i) = true.

Definition portsPass (ps : Node) : Prop :=
  Kind ps = SequenceNode /\ Forall portItemPasses (Content ps).

Definition containerPasses (item : Node) : Prop :=
  fieldIs item "name" namePasses
  /\ fieldIs item "image" imagePasses
  /\ fieldMayBe item "ports" portsPass
  /\ fieldMayBe item "readinessProbe" probePasses
  /\ fieldMayBe item "livenessProbe" probePasses
  /\ fieldIs item "resources" resourcesPass.

(** [os] is the name of a system, or a mapping whose [name] is. *)
Definition osPasses (o : Node) : Prop :=
  strIn [ "linux"; "windows" ] o
  \/ (Kind o = MappingNode /\ fieldIs o "name" (strIn [ "linux"; "windows" ])).

(** [containers] is a sequence that is not empty, of containers that
    pass and whose names differ from each other. *)
Definition containersPass (cs : Node) : Prop :=
  Kind cs = SequenceNode
  /\ Content cs <> []
  /\ Forall containerPasses (Content cs)
  /\ NoDup (registeredNames (Content cs)).

Definition specPasses (s : Node) : Prop :=
  fieldMayBe s "os" osPasses /\ fieldIs s "containers" containersPass.

Definition podPasses (doc : Node) : Prop :=
  fieldIs doc "apiVersion" (strIn [ "v1" ])
  /\ fieldIs doc "kind" (strIn [ "Pod" ])
  /\ fieldIs doc "metadata" metadataPasses
  /\ fieldIs doc "spec" specPasses.

(** One turn of the loop over the containers, from the names seen
    before it to the names seen after it: the container passes, and its
    name is new and is added. *)
Definition turnPasses (item : Node) (seen seen' : gset string) : Prop :=
  containerPasses item
  /\ exists v, registeredName item = Some v /\ (v ∉ seen) /\ seen' = {[ v ]} ∪ seen.

(** ** Where the diagnostics point *)

(** The lines of the nodes of a tree. *)
Fixpoint linesOf (n : Node) : list Z :=
  match n with
  | mkNode _ _ _ l c => l :: flat_map linesOf c
  end.

(** A diagnostic of the validation of the tree [n], in a reporter for
    the file [f]: it carries the name [f]; and it has the form without
    a line, [<field> is required], or it stands on the line of a node
    of [n]. *)
Definition anchored (n : Node) (f : string) (e : errOut) : Prop :=
  file e = f
  /\ ((line e = 0 /\ exists field, msg e = field +:+ " is required")
      \/ In (line e) (linesOf n)).

(** All that a computation appends satisfies [P], which may speak of
    the file of the reporter. *)
Definition emits {A} (P : string -> errOut -> Prop) (m : M A) : Prop :=
  forall rep a rep',
    m rep = Ok (a, rep') ->
    exists ds, rep' = appendErrs rep ds /\ Forall (P (r_file rep)) ds.

(** ** What is written *)

(** The text written for one diagnostic of a reporter for the file
    [f]: with the line when it is positive, without it otherwise. *)
Definition render (f : string) (e : errOut) : string :=
  if 0 <? line e
  then f +:+ ":" +:+ fmtInt (line e) +:+ " " +:+ msg e +:+ newline
  else f +:+ ": " +:+ msg e +:+ newline.

(** The status of the exit, from the diagnostics. *)
Definition statusOf (ds : list errOut) : Z :=
  match ds with
  | [] => 0
  | _ :: _ => 1
  end.


(** ** Fields that are not read *)

(** The node [n'] is the mapping [n] with one more pair, of key [k],
    somewhere between its pairs. *)
Definition extends (n n' k : Node) : Prop :=
  Kind n = MappingNode /\ Kind n' = MappingNode /\ Line n' = Line n
  /\ exists pre v post,
       Content n = pre ++ post
       /\ Content n' = pre ++ k :: v :: post
       /\ Nat.even (length pre) = true.

(** The key [k] stands for none of the fields [keys]. *)
Definition unread (keys : list string) (k : Node) : Prop :=
  Forall (fun key => ~ isKey key k) keys.

(** The mapping on line 1 of a Pod with its four fields, and the same
    with a field [status] more. *)
Definition fourFields : Node :=
  mapping 1 [ str "apiVersion" 1; str "v1" 1; str "kind" 2; str "Pod" 2;
              str "metadata" 3; mapping 4 []; str "spec" 5; mapping 6 [] ].

Definition fiveFields : Node :=
  mapping 1 [ str "apiVersion" 1; str "v1" 1; str "kind" 2; str "Pod" 2;
              str "status" 7; str "Running" 7;
              str "metadata" 3; mapping 4 []; str "spec" 5; mapping 6 [] ].


(** ** The two revisions side by side *)

(** Two computations report on the same lines: started on reporters for
    the same file they both panic, or they return the same value after
    appending diagnostics whose lines are the same up to their order. *)
Definition sameLines {A} (m1 m2 : M A) : Prop :=
  forall rep1 rep2,
    r_file rep1 = r_file rep2 ->
    match m1 rep1, m2 rep2 with
    | Ok (a1, r1), Ok (a2, r2) =>
        a1 = a2
        /\ exists ds1 ds2,
             r1 = appendErrs rep1 ds1 /\ r2 = appendErrs rep2 ds2
             /\ Permutation (List.map line ds1) (List.map line ds2)
    | Panic, Panic => True
    | _, _ => False
    end.

(** * Append-only behaviour of the reporter *)

Lemma appendErrs_nil r : appendErrs r [] = r.
Proof. destruct r; unfold appendErrs; simpl. by rewrite app_nil_r. Qed.

Lemma appendErrs_app r ds1 ds2 :
  appendErrs (appendErrs r ds1) ds2 = appendErrs r (ds1 ++ ds2).
Proof. unfold appendErrs; simpl. by rewrite app_assoc. Qed.

Lemma framed_ret {A} (a : A) : framed (ret a).
Proof. intros rep. unfold ret. simpl. by rewrite appendErrs_nil. Qed.

Lemma framed_skip : framed skip.
Proof. apply framed_ret. Qed.

Lemma framed_lift {A} (r : result A) : framed (lift r).
Proof. intros rep. destruct r; simpl; [|done]. by rewrite appendErrs_nil. Qed.

Lemma framed_panic {A} : framed (fun _ : reporter => @Panic (A * reporter)).
Proof. by intros rep. Qed.

Lemma framed_add l m : framed (add l m).
Proof. by intros rep. Qed.

Lemma framed_file {A} (m : M A) f a r0 :
  framed m -> m {| r_file := f; errs := [] |} = Ok (a, r0) -> r_file r0 = f.
Proof.
  intros Hm Hrun. specialize (Hm {| r_file := f; errs := [] |}).
  simpl in Hm. rewrite Hrun in Hm. by injection Hm as ->.
Qed.

Lemma framed_bind {A B} (m : M A) (k : A -> M B) :
  framed m -> (forall a, framed (k a)) -> framed (bind m k).
Proof.
  intros Hm Hk rep. unfold bind.
  rewrite (Hm rep).
  destruct (m {| r_file := r_file rep; errs := [] |}) as [[a r0]|] eqn:Hrun; [|done].
  pose proof (framed_file _ _ _ _ Hm Hrun) as Hf.
  rewrite (Hk a (appendErrs rep (errs r0))), (Hk a r0). simpl. rewrite Hf.
  destruct (k a {| r_file := r_file rep; errs := [] |}) as [[b r1]|]; [|done].
  by rewrite !appendErrs_app.
Qed.

Lemma framed_forRange {A} (body : A -> M unit) l :
  (forall x, framed (body x)) -> framed (forRange body l).
Proof.
  intros Hb. induction l as [|x l IH]; simpl.
  - apply framed_skip.
  - apply framed_bind; auto.
Qed.

Lemma framed_foldRange {A S} (body : A -> S -> M S) l :
  (forall x s, framed (body x s)) -> forall s, framed (foldRange body l s).
Proof.
  intros Hb. induction l as [|x l IH]; intros s; simpl.
  - apply framed_ret.
  - apply framed_bind; auto.
Qed.

(** Induction two elements at a time, the way the loops over a mapping
    walk its content. *)
Lemma pairs_ind {A} (P : list A -> Prop) :
  P [] -> (forall x, P [x]) -> (forall x y l, P l -> P (x :: y :: l)) ->
  forall l, P l.
Proof.
  intros H0 H1 H2 l.
  enough (P l /\ forall x, P (x :: l)) by tauto.
  induction l as [|y l [IHl IHyl]]; split; auto.
Qed.

Lemma framed_forPairs body c :
  (forall k v, framed (body k v)) -> framed (forPairs body c).
Proof.
  intros Hb. induction c as [|k|k v rest IH] using pairs_ind; simpl.
  - apply framed_skip.
  - apply framed_panic.
  - apply framed_bind; [apply Hb | intros _; apply IH].
Qed.

(** What an append-only computation returns, in terms of [diags]. *)
Lemma framed_run {A} (m : M A) rep a rep' :
  framed m -> m rep = Ok (a, rep') -> rep' = appendErrs rep (diags m (r_file rep)).
Proof.
  intros Hm Hrun. rewrite (Hm rep) in Hrun. unfold diags.
  destruct (m {| r_file := r_file rep; errs := [] |}) as [[a0 r0]|]; [|done].
  by injection Hrun as _ <-.
Qed.

(** The step of the proofs of [framed]: one construct of the program at
    a time. *)
Ltac framed_step :=
  match goal with
  | |- framed (bind _ _) => apply framed_bind; [|intros ?]
  | |- framed (ret _) => apply framed_ret
  | |- framed skip => apply framed_skip
  | |- framed (lift _) => apply framed_lift
  | |- framed (add _ _) => apply framed_add
  | |- framed (forRange _ _) => apply framed_forRange; intros ?
  | |- framed (forPairs _ _) => apply framed_forPairs; intros ? ?
  | |- framed (foldRange _ _ _) => apply framed_foldRange; intros ? ?
  | |- framed (if ?b then _ else _) => destruct b
  | |- framed (match ?x with _ => _ end) => destruct x
  | |- framed (let '(_, _) := ?x in _) => destruct x
  end.

Create HintDb framed discriminated.
#[global] Hint Constants Opaque : framed.

Ltac framed_auto := repeat (first [ solve [auto with framed] | framed_step ]).

(** ** Every validator of the first revision is append-only *)

Lemma framed_addRequired_1 field : framed (Rev1.addRequired field).
Proof. by intros rep. Qed.
#[global] Hint Resolve framed_addRequired_1 : framed.

Lemma framed_validateResKV_1 n prefix : framed (Rev1.validateResKV n prefix).
Proof. unfold Rev1.validateResKV, Rev1.resKVBody. framed_auto. Qed.
#[global] Hint Resolve framed_validateResKV_1 : framed.

Lemma framed_validateResources_1 n : framed (Rev1.validateResources n).
Proof. unfold Rev1.validateResources. framed_auto. Qed.
#[global] Hint Resolve framed_validateResources_1 : framed.

Lemma framed_validateProbe_1 n prefix : framed (Rev1.validateProbe n prefix).
Proof. unfold Rev1.validateProbe. framed_auto. Qed.
#[global] Hint Resolve framed_validateProbe_1 : framed.

Lemma framed_portContainerPort_1 n : framed (Rev1.portContainerPort n).
Proof. unfold Rev1.portContainerPort. framed_auto. Qed.
#[global] Hint Resolve framed_portContainerPort_1 : framed.

Lemma framed_portProtocol_1 n : framed (Rev1.portProtocol n).
Proof. unfold Rev1.portProtocol. framed_auto. Qed.
#[global] Hint Resolve framed_portProtocol_1 : framed.

Lemma framed_validateContainerPort_1 n : framed (Rev1.validateContainerPort n).
Proof. unfold Rev1.validateContainerPort. framed_auto. Qed.
#[global] Hint Resolve framed_validateContainerPort_1 : framed.

Lemma framed_containerName_1 item seen : framed (Rev1.containerName item seen).
Proof. unfold Rev1.containerName. framed_auto. Qed.
#[global] Hint Resolve framed_containerName_1 : framed.

Lemma framed_containerFields_1 item : framed (Rev1.containerFields item).
Proof.
  unfold Rev1.containerFields, Rev1.containerImage, Rev1.containerPorts,
    Rev1.portsItem, Rev1.containerProbe, Rev1.containerResources.
  framed_auto.
Qed.
#[global] Hint Resolve framed_containerFields_1 : framed.

Lemma framed_containerBody_1 item seen : framed (Rev1.containerBody item seen).
Proof. unfold Rev1.containerBody. framed_auto. Qed.
#[global] Hint Resolve framed_containerBody_1 : framed.

Lemma framed_containersItem_1 item seen : framed (Rev1.containersItem item seen).
Proof. unfold Rev1.containersItem. framed_auto. Qed.
#[global] Hint Resolve framed_containersItem_1 : framed.

Lemma framed_specOs_1 n : framed (Rev1.specOs n).
Proof. unfold Rev1.specOs. framed_auto. Qed.
#[global] Hint Resolve framed_specOs_1 : framed.

Lemma framed_specContainers_1 n : framed (Rev1.specContainers n).
Proof. unfold Rev1.specContainers. framed_auto. Qed.
#[global] Hint Resolve framed_specContainers_1 : framed.

Lemma framed_validatePodSpec_1 n : framed (Rev1.validatePodSpec n).
Proof. unfold Rev1.validatePodSpec. framed_auto. Qed.
#[global] Hint Resolve framed_validatePodSpec_1 : framed.

Lemma framed_metaName_1 n : framed (Rev1.metaName n).
Proof. unfold Rev1.metaName. framed_auto. Qed.
#[global] Hint Resolve framed_metaName_1 : framed.

Lemma framed_metaNamespace_1 n : framed (Rev1.metaNamespace n).
Proof. unfold Rev1.metaNamespace. framed_auto. Qed.
#[global] Hint Resolve framed_metaNamespace_1 : framed.

Lemma framed_metaLabels_1 n : framed (Rev1.metaLabels n).
Proof. unfold Rev1.metaLabels, Rev1.labelsBody. framed_auto. Qed.
#[global] Hint Resolve framed_metaLabels_1 : framed.

Lemma framed_validateObjectMeta_1 n : framed (Rev1.validateObjectMeta n).
Proof. unfold Rev1.validateObjectMeta. framed_auto. Qed.
#[global] Hint Resolve framed_validateObjectMeta_1 : framed.

Lemma framed_podApiVersion_1 doc : framed (Rev1.podApiVersion doc).
Proof. unfold Rev1.podApiVersion. framed_auto. Qed.
#[global] Hint Resolve framed_podApiVersion_1 : framed.

Lemma framed_podKind_1 doc : framed (Rev1.podKind doc).
Proof. unfold Rev1.podKind. framed_auto. Qed.
#[global] Hint Resolve framed_podKind_1 : framed.

Lemma framed_podMetadata_1 doc : framed (Rev1.podMetadata doc).
Proof. unfold Rev1.podMetadata. framed_auto. Qed.
#[global] Hint Resolve framed_podMetadata_1 : framed.

Lemma framed_podSpec_1 doc : framed (Rev1.podSpec doc).
Proof. unfold Rev1.podSpec. framed_auto. Qed.
#[global] Hint Resolve framed_podSpec_1 : framed.

Lemma framed_validatePod_1 filename doc : framed (Rev1.validatePod filename doc).
Proof. unfold Rev1.validatePod. framed_auto. Qed.
#[global] Hint Resolve framed_validatePod_1 : framed.

Lemma framed_mainLoop_1 abs docs : framed (Rev1.mainLoop abs docs).
Proof. unfold Rev1.mainLoop, Rev1.mainDocument. framed_auto. Qed.
#[global] Hint Resolve framed_mainLoop_1 : framed.

(** ** Every validator of the second revision is append-only *)

Lemma framed_addRequiredNoLine_2 field : framed (Rev2.addRequiredNoLine field).
Proof. by intros rep. Qed.
#[global] Hint Resolve framed_addRequiredNoLine_2 : framed.

Lemma framed_addRequiredAt_2 l field : framed (Rev2.addRequiredAt l field).
Proof. by intros rep. Qed.
#[global] Hint Resolve framed_addRequiredAt_2 : framed.

Lemma framed_validateResKV_2 n prefix : framed (Rev2.validateResKV n prefix).
Proof. unfold Rev2.validateResKV, Rev2.resKVBody. framed_auto. Qed.
#[global] Hint Resolve framed_validateResKV_2 : framed.

Lemma framed_validateResources_2 n : framed (Rev2.validateResources n).
Proof. unfold Rev2.validateResources. framed_auto. Qed.
#[global] Hint Resolve framed_validateResources_2 : framed.

Lemma framed_validateProbe_2 n prefix : framed (Rev2.validateProbe n prefix).
Proof. unfold Rev2.validateProbe. framed_auto. Qed.
#[global] Hint Resolve framed_validateProbe_2 : framed.

Lemma framed_portContainerPort_2 n : framed (Rev2.portContainerPort n).
Proof. unfold Rev2.portContainerPort. framed_auto. Qed.
#[global] Hint Resolve framed_portContainerPort_2 : framed.

Lemma framed_portProtocol_2 n : framed (Rev2.portProtocol n).
Proof. unfold Rev2.portProtocol. framed_auto. Qed.
#[global] Hint Resolve framed_portProtocol_2 : framed.

Lemma framed_validateContainerPort_2 n : framed (Rev2.validateContainerPort n).
Proof. unfold Rev2.validateContainerPort. framed_auto. Qed.
#[global] Hint Resolve framed_validateContainerPort_2 : framed.

Lemma framed_containerName_2 item seen : framed (Rev2.containerName item seen).
Proof. unfold Rev2.containerName. framed_auto. Qed.
#[global] Hint Resolve framed_containerName_2 : framed.

Lemma framed_containerFields_2 item : framed (Rev2.containerFields item).
Proof.
  unfold Rev2.containerFields, Rev2.containerImage, Rev2.containerPorts,
    Rev2.portsItem, Rev2.containerProbe, Rev2.containerResources.
  framed_auto.
Qed.
#[global] Hint Resolve framed_containerFields_2 : framed.

Lemma framed_validateContainer_2 item seen : framed (Rev2.validateContainer item seen).
Proof. unfold Rev2.validateContainer. framed_auto. Qed.
#[global] Hint Resolve framed_validateContainer_2 : framed.

Lemma framed_containersItem_2 item seen : framed (Rev2.containersItem item seen).
Proof. unfold Rev2.containersItem. framed_auto. Qed.
#[global] Hint Resolve framed_containersItem_2 : framed.

Lemma framed_specOs_2 n : framed (Rev2.specOs n).
Proof. unfold Rev2.specOs. framed_auto. Qed.
#[global] Hint Resolve framed_specOs_2 : framed.

Lemma framed_specContainers_2 n : framed (Rev2.specContainers n).
Proof. unfold Rev2.specContainers. framed_auto. Qed.
#[global] Hint Resolve framed_specContainers_2 : framed.

Lemma framed_validatePodSpec_2 n : framed (Rev2.validatePodSpec n).
Proof. unfold Rev2.validatePodSpec. framed_auto. Qed.
#[global] Hint Resolve framed_validatePodSpec_2 : framed.

Lemma framed_metaName_2 n : framed (Rev2.metaName n).
Proof. unfold Rev2.metaName. framed_auto. Qed.
#[global] Hint Resolve framed_metaName_2 : framed.

Lemma framed_metaNamespace_2 n : framed (Rev2.metaNamespace n).
Proof. unfold Rev2.metaNamespace. framed_auto. Qed.
#[global] Hint Resolve framed_metaNamespace_2 : framed.

Lemma framed_metaLabels_2 n : framed (Rev2.metaLabels n).
Proof. unfold Rev2.metaLabels, Rev2.labelsBody. framed_auto. Qed.
#[global] Hint Resolve framed_metaLabels_2 : framed.

Lemma framed_validateObjectMeta_2 n : framed (Rev2.validateObjectMeta n).
Proof. unfold Rev2.validateObjectMeta. framed_auto. Qed.
#[global] Hint Resolve framed_validateObjectMeta_2 : framed.

Lemma framed_podApiVersion_2 doc : framed (Rev2.podApiVersion doc).
Proof. unfold Rev2.podApiVersion. framed_auto. Qed.
#[global] Hint Resolve framed_podApiVersion_2 : framed.

Lemma framed_podKind_2 doc : framed (Rev2.podKind doc).
Proof. unfold Rev2.podKind. framed_auto. Qed.
#[global] Hint Resolve framed_podKind_2 : framed.

Lemma framed_podMetadata_2 doc : framed (Rev2.podMetadata doc).
Proof. unfold Rev2.podMetadata. framed_auto. Qed.
#[global] Hint Resolve framed_podMetadata_2 : framed.

Lemma framed_podSpec_2 doc : framed (Rev2.podSpec doc).
Proof. unfold Rev2.podSpec. framed_auto. Qed.
#[global] Hint Resolve framed_podSpec_2 : framed.

Lemma framed_validatePod_2 doc : framed (Rev2.validatePod doc).
Proof. unfold Rev2.validatePod. framed_auto. Qed.
#[global] Hint Resolve framed_validatePod_2 : framed.

Lemma framed_mainLoop_2 docs : framed (Rev2.mainLoop docs).
Proof. unfold Rev2.mainLoop, Rev2.mainDocument. framed_auto. Qed.
#[global] Hint Resolve framed_mainLoop_2 : framed.

(** * Well-formed trees never make the validators panic *)

Lemma wf_unfold n :
  wf n = (if isMapping n then Nat.even (length (Content n)) else true)
         && forallb wf (Content n).
Proof. by destruct n. Qed.

Lemma wf_even n :
  wf n = true -> isMapping n = true -> Nat.even (length (Content n)) = true.
Proof.
  rewrite wf_unfold. intros [H _]%andb_prop Hm. by rewrite Hm in H.
Qed.

Lemma wf_content n x : wf n = true -> In x (Content n) -> wf x = true.
Proof.
  rewrite wf_unfold. intros [_ H]%andb_prop Hin.
  rewrite forallb_forall in H. by apply H.
Qed.

Lemma getFieldLoop_even c key :
  Nat.even (length c) = true ->
  exists o, getFieldLoop c key = Ok o /\ forall v, o = Some v -> In v c.
Proof.
  induction c as [|k|k v rest IH] using pairs_ind; intros Hev.
  - exists None. by split.
  - discriminate Hev.
  - simpl. destruct (isScalar k && (Value k =? key)%string).
    + exists (Some v). split; [done|]. intros ? [= <-]. right. by left.
    + destruct (IH Hev) as (o & Ho & Hin). exists o. split; [done|].
      intros w Hw. right. right. by apply Hin.
Qed.

Lemma getField_In obj key v : getField obj key = Ok (Some v) -> In v (Content obj).
Proof.
  unfold getField. destruct (isMapping obj); simpl; [|done].
  induction (Content obj) as [|k|k w rest IH] using pairs_ind; simpl; try done.
  destruct (isScalar k && (Value k =? key)%string).
  - intros [= <-]. right. by left.
  - intros H. right. right. by apply IH.
Qed.

Lemma getField_mapping obj key v : getField obj key = Ok (Some v) -> isMapping obj = true.
Proof. unfold getField. by destruct (isMapping obj). Qed.

Lemma getField_wf n key :
  wf n = true ->
  exists o, getField n key = Ok o /\ forall v, o = Some v -> wf v = true.
Proof.
  intros Hwf. unfold getField. destruct (isMapping n) eqn:Hm; simpl.
  - destruct (getFieldLoop_even (Content n) key (wf_even n Hwf Hm)) as (o & Ho & Hin).
    exists o. split; [done|]. intros v Hv. eapply wf_content; eauto.
  - exists None. by split.
Qed.

Lemma safe_ret {A} (a : A) : safe (ret a).
Proof. intros rep. by exists a, rep. Qed.

Lemma safe_skip : safe skip.
Proof. apply safe_ret. Qed.

Lemma safe_add l m : safe (add l m).
Proof. intros rep. by eexists _, _. Qed.

Lemma safe_bind {A B} (m : M A) (k : A -> M B) :
  safe m -> (forall a, safe (k a)) -> safe (bind m k).
Proof.
  intros Hm Hk rep. unfold bind. destruct (Hm rep) as (a & rep' & ->). apply Hk.
Qed.

Lemma safe_getField {B} n key (k : option Node -> M B) :
  wf n = true ->
  (forall o, (forall v, o = Some v -> wf v = true) -> safe (k o)) ->
  safe (bind (lift (getField n key)) k).
Proof.
  intros Hwf Hk rep. unfold bind, lift.
  destruct (getField_wf n key Hwf) as (o & -> & Ho). by apply Hk.
Qed.

Lemma safe_forRange {A} (body : A -> M unit) l :
  (forall x, In x l -> safe (body x)) -> safe (forRange body l).
Proof.
  induction l as [|x l IH]; intros Hb; simpl.
  - apply safe_skip.
  - apply safe_bind; [apply Hb; by left|]. intros _. apply IH.
    intros y Hy. apply Hb. by right.
Qed.

Lemma safe_foldRange {A S} (body : A -> S -> M S) l :
  (forall x s, In x l -> safe (body x s)) -> forall s, safe (foldRange body l s).
Proof.
  induction l as [|x l IH]; intros Hb s; simpl.
  - apply safe_ret.
  - apply safe_bind; [apply Hb; by left|]. intros s'. apply IH.
    intros y s0 Hy. apply Hb. by right.
Qed.

Lemma safe_forPairs body c :
  Nat.even (length c) = true ->
  (forall k v, safe (body k v)) -> safe (forPairs body c).
Proof.
  intros Hev Hb. induction c as [|k|k v rest IH] using pairs_ind; simpl.
  - apply safe_skip.
  - discriminate Hev.
  - apply safe_bind; [apply Hb|]. intros _. by apply IH.
Qed.

Create HintDb safe discriminated.
#[global] Hint Constants Opaque : safe.
#[global] Hint Resolve safe_skip safe_add safe_ret : safe.

(** One construct of the program at a time; a looked-up node inherits
    the well-formedness of the mapping it was found in. *)
Ltac safe_step :=
  match goal with
  | |- safe (bind (lift (getField _ _)) _) =>
      let o := fresh "o" in let Ho := fresh "Ho" in
      apply safe_getField; [assumption|];
      intros o Ho; destruct o as [?|]; [specialize (Ho _ eq_refl)|clear Ho]
  | |- safe (bind _ _) => apply safe_bind; [|intros ?]
  | |- safe (forPairs _ (Content ?n)) =>
      apply safe_forPairs; [by apply wf_even|intros ? ?]
  | |- safe (forRange _ (Content ?n)) =>
      let Hin := fresh "Hin" in
      apply safe_forRange; intros ? Hin; apply (wf_content n) in Hin; [|assumption]
  | |- safe (foldRange _ (Content ?n) _) =>
      let Hin := fresh "Hin" in
      apply safe_foldRange; intros ? ? Hin; apply (wf_content n) in Hin; [|assumption]
  | |- safe (if negb (isMapping ?n) then _ else _) =>
      let E := fresh "E" in destruct (isMapping n) eqn:E; simpl negb; cbv iota
  | |- safe (if ?b then _ else _) => destruct b
  | |- safe (match ?x with _ => _ end) => destruct x
  end.

Ltac safe_auto := repeat (first [ solve [auto with safe] | safe_step ]).

(** ** The first revision on well-formed trees *)

Lemma safe_addRequired_1 field : safe (Rev1.addRequired field).
Proof. intros rep. by eexists _, _. Qed.
#[global] Hint Resolve safe_addRequired_1 : safe.

Lemma safe_validateResKV_1 n prefix : wf n = true -> safe (Rev1.validateResKV n prefix).
Proof. intros Hwf. unfold Rev1.validateResKV, Rev1.resKVBody. safe_auto. Qed.
#[global] Hint Resolve safe_validateResKV_1 : safe.

Lemma safe_validateResources_1 n : wf n = true -> safe (Rev1.validateResources n).
Proof. intros Hwf. unfold Rev1.validateResources. safe_auto. Qed.
#[global] Hint Resolve safe_validateResources_1 : safe.

Lemma safe_validateProbe_1 n prefix : wf n = true -> safe (Rev1.validateProbe n prefix).
Proof. intros Hwf. unfold Rev1.validateProbe. safe_auto. Qed.
#[global] Hint Resolve safe_validateProbe_1 : safe.

Lemma safe_validateContainerPort_1 n : wf n = true -> safe (Rev1.validateContainerPort n).
Proof.
  intros Hwf.
  unfold Rev1.validateContainerPort, Rev1.portContainerPort, Rev1.portProtocol.
  safe_auto.
Qed.
#[global] Hint Resolve safe_validateContainerPort_1 : safe.

Lemma safe_containerName_1 item seen : wf item = true -> safe (Rev1.containerName item seen).
Proof. intros Hwf. unfold Rev1.containerName. safe_auto. Qed.
#[global] Hint Resolve safe_containerName_1 : safe.

Lemma safe_containerFields_1 item : wf item = true -> safe (Rev1.containerFields item).
Proof.
  intros Hwf.
  unfold Rev1.containerFields, Rev1.containerImage, Rev1.containerPorts,
    Rev1.portsItem, Rev1.containerProbe, Rev1.containerResources.
  safe_auto.
Qed.
#[global] Hint Resolve safe_containerFields_1 : safe.

Lemma safe_containersItem_1 item seen : wf item = true -> safe (Rev1.containersItem item seen).
Proof. intros Hwf. unfold Rev1.containersItem, Rev1.containerBody. safe_auto. Qed.
#[global] Hint Resolve safe_containersItem_1 : safe.

Lemma safe_validatePodSpec_1 n : wf n = true -> safe (Rev1.validatePodSpec n).
Proof.
  intros Hwf.
  unfold Rev1.validatePodSpec, Rev1.specOs, Rev1.specContainers.
  safe_auto.
Qed.
#[global] Hint Resolve safe_validatePodSpec_1 : safe.

Lemma safe_validateObjectMeta_1 n : wf n = true -> safe (Rev1.validateObjectMeta n).
Proof.
  intros Hwf.
  unfold Rev1.validateObjectMeta, Rev1.metaName, Rev1.metaNamespace, Rev1.metaLabels,
    Rev1.labelsBody.
  safe_auto.
Qed.
#[global] Hint Resolve safe_validateObjectMeta_1 : safe.

Lemma safe_validatePod_1 filename doc : wf doc = true -> safe (Rev1.validatePod filename doc).
Proof.
  intros Hwf.
  unfold Rev1.validatePod, Rev1.podApiVersion, Rev1.podKind, Rev1.podMetadata,
    Rev1.podSpec.
  safe_auto.
Qed.

Lemma safe_mainDocument_1 abs doc : wf doc = true -> safe (Rev1.mainDocument abs doc).
Proof.
  intros Hwf. unfold Rev1.mainDocument.
  destruct (negb (isMapping doc)); [apply safe_add | by apply safe_validatePod_1].
Qed.

(** ** The second revision on well-formed trees *)

Lemma safe_addRequiredNoLine_2 field : safe (Rev2.addRequiredNoLine field).
Proof. intros rep. by eexists _, _. Qed.
#[global] Hint Resolve safe_addRequiredNoLine_2 : safe.

Lemma safe_addRequiredAt_2 l field : safe (Rev2.addRequiredAt l field).
Proof. intros rep. by eexists _, _. Qed.
#[global] Hint Resolve safe_addRequiredAt_2 : safe.

Lemma safe_validateResKV_2 n prefix : wf n = true -> safe (Rev2.validateResKV n prefix).
Proof. intros Hwf. unfold Rev2.validateResKV, Rev2.resKVBody. safe_auto. Qed.
#[global] Hint Resolve safe_validateResKV_2 : safe.

Lemma safe_validateResources_2 n : wf n = true -> safe (Rev2.validateResources n).
Proof. intros Hwf. unfold Rev2.validateResources. safe_auto. Qed.
#[global] Hint Resolve safe_validateResources_2 : safe.

Lemma safe_validateProbe_2 n prefix : wf n = true -> safe (Rev2.validateProbe n prefix).
Proof. intros Hwf. unfold Rev2.validateProbe. safe_auto. Qed.
#[global] Hint Resolve safe_validateProbe_2 : safe.

Lemma safe_validateContainerPort_2 n : wf n = true -> safe (Rev2.validateContainerPort n).
Proof.
  intros Hwf.
  unfold Rev2.validateContainerPort, Rev2.portContainerPort, Rev2.portProtocol.
  safe_auto.
Qed.
#[global] Hint Resolve safe_validateContainerPort_2 : safe.

Lemma safe_containerName_2 item seen : wf item = true -> safe (Rev2.containerName item seen).
Proof. intros Hwf. unfold Rev2.containerName. safe_auto. Qed.
#[global] Hint Resolve safe_containerName_2 : safe.

Lemma safe_containerFields_2 item : wf item = true -> safe (Rev2.containerFields item).
Proof.
  intros Hwf.
  unfold Rev2.containerFields, Rev2.containerImage, Rev2.containerPorts,
    Rev2.portsItem, Rev2.containerProbe, Rev2.containerResources.
  safe_auto.
Qed.
#[global] Hint Resolve safe_containerFields_2 : safe.

Lemma safe_containersItem_2 item seen : wf item = true -> safe (Rev2.containersItem item seen).
Proof. intros Hwf. unfold Rev2.containersItem, Rev2.validateContainer. safe_auto. Qed.
#[global] Hint Resolve safe_containersItem_2 : safe.

Lemma safe_validatePodSpec_2 n : wf n = true -> safe (Rev2.validatePodSpec n).
Proof.
  intros Hwf.
  unfold Rev2.validatePodSpec, Rev2.specOs, Rev2.specContainers.
  safe_auto.
Qed.
#[global] Hint Resolve safe_validatePodSpec_2 : safe.

Lemma safe_validateObjectMeta_2 n : wf n = true -> safe (Rev2.validateObjectMeta n).
Proof.
  intros Hwf.
  unfold Rev2.validateObjectMeta, Rev2.metaName, Rev2.metaNamespace, Rev2.metaLabels,
    Rev2.labelsBody.
  safe_auto.
Qed.
#[global] Hint Resolve safe_validateObjectMeta_2 : safe.

Lemma safe_validatePod_2 doc : wf doc = true -> safe (Rev2.validatePod doc).
Proof.
  intros Hwf.
  unfold Rev2.validatePod, Rev2.podApiVersion, Rev2.podKind, Rev2.podMetadata,
    Rev2.podSpec.
  safe_auto.
Qed.

Lemma safe_mainDocument_2 doc : wf doc = true -> safe (Rev2.mainDocument doc).
Proof.
  intros Hwf. unfold Rev2.mainDocument.
  destruct (negb (isMapping doc)); [apply safe_add | by apply safe_validatePod_2].
Qed.

(** * Scalar coercion *)

Lemma fold_digits_ge s n :
  forallb isDigit s = true ->
  n <= fold_left (fun acc c => acc * 10 + (Z.of_N c - 48)) s n \/ n < 0.
Proof.
  revert n. induction s as [|c r IH]; intros n Hd; simpl in *.
  - left. lia.
  - apply andb_prop in Hd as [Hc Hr].
    unfold isDigit in Hc. apply andb_prop in Hc as [Hc1 Hc2].
    apply N.leb_le in Hc1, Hc2.
    destruct (IH (n * 10 + (Z.of_N c - 48)) Hr) as [H|H]; lia.
Qed.

Lemma parseUintLoop_ok s : forall n v,
  0 <= n ->
  parseUintLoop s n = (v, None) <->
  forallb isDigit s = true
  /\ v = fold_left (fun acc c => acc * 10 + (Z.of_N c - 48)) s n
  /\ (v <= maxUint64 \/ s = []).
Proof.
  induction s as [|c r IH]; intros n v Hn; simpl.
  - split.
    + intros [= <-]. auto.
    + by intros (_ & -> & _).
  - destruct (isDigit c) eqn:Hc; simpl.
    + assert (0 <= n * 10 + (Z.of_N c - 48)) as Hn1.
      { unfold isDigit in Hc. apply andb_prop in Hc as [Hc1 Hc2].
        apply N.leb_le in Hc1, Hc2. lia. }
      destruct (maxUint64 <? n * 10 + (Z.of_N c - 48)) eqn:Hov.
      * apply Z.ltb_lt in Hov. split; [done|].
        intros (Hr & Hv & [Hle|?]); [|done].
        destruct (fold_digits_ge r (n * 10 + (Z.of_N c - 48)) Hr); lia.
      * apply Z.ltb_ge in Hov. rewrite (IH _ _ Hn1). split.
        -- intros (Hr & Hv & [Hle | ->]); repeat split; auto.
           left. simpl in Hv. lia.
        -- intros (Hr & Hv & [Hle|?]); [|done]. repeat split; auto.
    + split; [done|]. by intros (? & _).
Qed.

Lemma Atoi_ok s v : Atoi s = (v, None) <-> intLiteral s = Some v.
Proof.
  unfold Atoi, intLiteral, literal.
  destruct (bytesOf s) as [|c r]; [done|].
  set (body := if ((c =? 43) || (c =? 45))%N then r else c :: r).
  fold (decimal body).
  destruct (ParseUint body) as [un e] eqn:HP.
  unfold ParseUint in HP.
  destruct body as [|b0 body'] eqn:Hbody.
  { injection HP as <- <-. simpl. done. }
  rewrite <- Hbody in *. 
  assert ((length body =? 0)%nat = false) as -> by (by rewrite Hbody).
  simpl negb. cbv iota. simpl andb.
  assert (body <> []) as Hne by (by rewrite Hbody).
  clear Hbody. clearbody body.
  destruct e as [e|].
  - assert (forallb isDigit body = false \/ maxUint64 < decimal body) as Hfail.
    { destruct (forallb isDigit body) eqn:Hd; [|by left]. right.
      destruct (Z_lt_le_dec maxUint64 (decimal body)) as [|Hle]; [done|].
      exfalso.
      assert (parseUintLoop body 0 = (decimal body, None)) as Hok.
      { apply parseUintLoop_ok; [lia|]. repeat split; auto. }
      congruence. }
    split.
    + destruct e; destruct (c =? 45)%N; done.
    + destruct Hfail as [-> | Hbig]; [done|].
      destruct (forallb isDigit body); [|done].
      unfold minInt, maxInt, maxUint64 in *.
      destruct (c =? 45)%N; intros H; destruct (_ && _) eqn:Hr in H; try done;
        apply andb_prop in Hr as [H1%Z.leb_le H2%Z.leb_le]. all: exfalso; lia.
  - apply (parseUintLoop_ok body 0 un ltac:(lia)) in HP as (Hd & -> & Hle).
    fold (decimal body). rewrite Hd.
    assert (0 <= decimal body) as Hpos.
    { destruct (fold_digits_ge body 0 Hd); [done|lia]. }
    unfold minInt, maxInt, maxUint64 in *.
    destruct (c =? 45)%N; simpl.
    + destruct (2 ^ 63 - 1 + 1 <? decimal body) eqn:E1.
      * apply Z.ltb_lt in E1. split; [done|].
        destruct (_ && _) eqn:Hr; [|done].
        apply andb_prop in Hr as [H1%Z.leb_le H2%Z.leb_le]. lia.
      * apply Z.ltb_ge in E1.
        assert ((- 2 ^ 63 <=? - decimal body) && (- decimal body <=? 2 ^ 63 - 1) = true) as ->.
        { apply andb_true_intro. split; apply Z.leb_le; lia. }
        split; congruence.
    + destruct (2 ^ 63 - 1 <? decimal body) eqn:E1.
      * apply Z.ltb_lt in E1. split; [done|].
        destruct (_ && _) eqn:Hr; [|done].
        apply andb_prop in Hr as [H1%Z.leb_le H2%Z.leb_le]. lia.
      * apply Z.ltb_ge in E1.
        assert ((- 2 ^ 63 <=? decimal body) && (decimal body <=? 2 ^ 63 - 1) = true) as ->.
        { apply andb_true_intro. split; apply Z.leb_le; lia. }
        split; congruence.
Qed.

Lemma asInt_line_1 n : snd (fst (Rev1.asInt n)) = Line n.
Proof.
  unfold Rev1.asInt. destruct (Kind n); try done.
  destruct (Tag n =? "!!int")%string.
  - by destruct (Atoi (Value n)) as [v [e|]].
  - destruct (Tag n =? "!!str")%string; [|done].
    by destruct (Atoi (TrimSpace (Value n))) as [v [e|]].
Qed.

Lemma asInt_line_2 n : snd (fst (Rev2.asInt n)) = Line n.
Proof.
  unfold Rev2.asInt. destruct (Kind n); try done.
  destruct (Tag n =? "!!int")%string.
  - by destruct (Atoi (Value n)) as [v [e|]].
  - destruct (Tag n =? "!!str")%string; [|done].
    by destruct (Atoi (TrimSpace (Value n))) as [v [e|]].
Qed.

(** C2, as amended: [asInt] always returns the line of the node; it
    fails with "not int" on every node that is not a scalar and on every
    scalar whose tag is neither the integer nor the string tag; on an
    integer-tagged scalar it succeeds exactly when the text is a base-10
    literal (optional sign, one or more digits) that fits in an [int],
    and returns its value; on a string-tagged scalar it succeeds exactly
    when the text, once trimmed, is such a literal, and fails with
    "not int" otherwise.  Both revisions. *)
Theorem asInt_coercion (n : Node) :
  (snd (fst (Rev1.asInt n)) = Line n /\ snd (fst (Rev2.asInt n)) = Line n)
  /\ (Kind n <> ScalarNode \/ (Tag n <> "!!int" /\ Tag n <> "!!str") ->
      Rev1.asInt n = (0, Line n, Some ErrNotInt)
      /\ Rev2.asInt n = (0, Line n, Some ErrNotInt))
  /\ (Kind n = ScalarNode -> Tag n = "!!int" ->
      match intLiteral (Value n) with
      | Some v => Rev1.asInt n = (v, Line n, None) /\ Rev2.asInt n = (v, Line n, None)
      | None => exists v e, Rev1.asInt n = (0, Line n, Some e)
                            /\ Rev2.asInt n = (v, Line n, Some e)
      end)
  /\ (Kind n = ScalarNode -> Tag n = "!!str" ->
      match intLiteral (TrimSpace (Value n)) with
      | Some v => Rev1.asInt n = (v, Line n, None) /\ Rev2.asInt n = (v, Line n, None)
      | None => Rev1.asInt n = (0, Line n, Some ErrNotInt)
                /\ Rev2.asInt n = (0, Line n, Some ErrNotInt)
      end).
Proof.
  split; [split; [apply asInt_line_1 | apply asInt_line_2]|].
  unfold Rev1.asInt, Rev2.asInt. repeat split.
  - destruct H as [Hk|[Hi Hs]].
    + by destruct (Kind n).
    + apply String.eqb_neq in Hi, Hs. rewrite Hi, Hs. by destruct (Kind n).
  - destruct H as [Hk|[Hi Hs]].
    + by destruct (Kind n).
    + apply String.eqb_neq in Hi, Hs. rewrite Hi, Hs. by destruct (Kind n).
  - intros -> ->. simpl.
    destruct (intLiteral (Value n)) as [v|] eqn:Hv.
    + apply Atoi_ok in Hv. by rewrite Hv.
    + destruct (Atoi (Value n)) as [v [e|]] eqn:Ha.
      * by exists v, e.
      * apply Atoi_ok in Ha. congruence.
  - intros -> Ht. rewrite Ht. simpl.
    destruct (intLiteral (TrimSpace (Value n))) as [v|] eqn:Hv.
    + apply Atoi_ok in Hv. by rewrite Hv.
    + destruct (Atoi (TrimSpace (Value n))) as [v [e|]] eqn:Ha; [done|].
      apply Atoi_ok in Ha. congruence.
Qed.

(** The coercion at work on the string-tagged scalar [" 8080 "] of
    line 4. *)
Lemma asInt_coercion_witness :
  Rev1.asInt (mkNode ScalarNode "!!str" " 8080 " 4 []) = (8080, 4, None)
  /\ Rev2.asInt (mkNode ScalarNode "!!str" " 8080 " 4 []) = (8080, 4, None).
Proof.
  pose proof (asInt_coercion (mkNode ScalarNode "!!str" " 8080 " 4 [])) as (_ & _ & _ & H).
  exact (H eq_refl eq_refl).
Defined.

(** C2, as it is written, fails in both directions: the string-tagged
    scalar ["-1"] is coerced to -1 although its text does not consist of
    digits only, and a string of twenty nines consists of digits only
    and is not coerced. *)
Lemma asInt_onlyDigits_counterexample :
  ~ (forall n, Kind n = ScalarNode -> Tag n = "!!str" ->
       (snd (Rev1.asInt n) = None <-> onlyDigits (TrimSpace (Value n)) = true))
  /\ ~ (forall n, Kind n = ScalarNode -> Tag n = "!!str" ->
       (snd (Rev2.asInt n) = None <-> onlyDigits (TrimSpace (Value n)) = true))
  /\ Rev2.asInt (mkNode ScalarNode "!!str" "-1" 7 []) = (-1, 7, None)
  /\ onlyDigits (TrimSpace "-1") = false
  /\ Rev2.asInt (mkNode ScalarNode "!!str" "99999999999999999999" 7 [])
     = (0, 7, Some ErrNotInt)
  /\ onlyDigits (TrimSpace "99999999999999999999") = true.
Proof.
  repeat split; try by vm_compute.
  - intros H.
    specialize (H (mkNode ScalarNode "!!str" "-1" 7 []) eq_refl eq_refl).
    destruct H as [H _]. vm_compute in H. by specialize (H eq_refl).
  - intros H.
    specialize (H (mkNode ScalarNode "!!str" "99999999999999999999" 7 []) eq_refl eq_refl).
    destruct H as [_ H]. vm_compute in H. by specialize (H eq_refl).
Qed.

(** * The name that is present and empty *)

Lemma metaName_empty_2 n nm rep :
  getField n "name" = Ok (Some nm) -> notStr nm = false ->
  TrimSpace (Value nm) = "" ->
  Rev2.metaName n rep
  = Ok (tt, appendErrs rep [ mkErrOut (r_file rep) (Line nm) "name is required" ]).
Proof.
  intros Hf Hs Ht. unfold Rev2.metaName, bind, lift. by rewrite Hf, Hs, Ht.
Qed.

Lemma containerName_empty_2 item nm seen rep :
  getField item "name" = Ok (Some nm) -> notStr nm = false ->
  TrimSpace (Value nm) = "" ->
  Rev2.containerName item seen rep
  = Ok (seen, appendErrs rep [ mkErrOut (r_file rep) (Line nm) "name is required" ]).
Proof.
  intros Hf Hs Ht. unfold Rev2.containerName, bind, lift. by rewrite Hf, Hs, Ht.
Qed.

Lemma metaName_empty_1 n nm rep :
  getField n "name" = Ok (Some nm) -> notStr nm = false ->
  TrimSpace (Value nm) = "" ->
  Rev1.metaName n rep
  = Ok (tt, appendErrs rep [ mkErrOut (r_file rep) (Line nm) "name has invalid format ''" ]).
Proof.
  intros Hf Hs Ht. unfold Rev1.metaName, bind, lift. by rewrite Hf, Hs, Ht.
Qed.

Lemma containerName_empty_1 item nm seen rep :
  getField item "name" = Ok (Some nm) -> notStr nm = false ->
  TrimSpace (Value nm) = "" ->
  Rev1.containerName item seen rep
  = Ok (seen, appendErrs rep
                [ mkErrOut (r_file rep) (Line nm) (quoted "name has invalid format" (Value nm)) ]).
Proof.
  intros Hf Hs Ht. unfold Rev1.containerName, bind, lift. by rewrite Hf, Hs, Ht.
Qed.

(** In the second revision the diagnostic of a name that is present and
    empty has the message of the absent field and the line of the node;
    when that line is a line of the source, which is positive, it is
    neither the diagnostic without a line nor an invalid format one. *)
Lemma name_required_on_line_2 n nm rep :
  getField n "name" = Ok (Some nm) -> notStr nm = false ->
  TrimSpace (Value nm) = "" -> 0 < Line nm ->
  exists d,
    Rev2.metaName n rep = Ok (tt, appendErrs rep [d])
    /\ (forall seen, Rev2.containerName n seen rep = Ok (seen, appendErrs rep [d]))
    /\ msg d = "name is required"
    /\ line d = Line nm
    /\ line d <> 0
    /\ (forall v, msg d <> quoted "name has invalid format" v).
Proof.
  intros Hf Hs Ht Hl. eexists. split; [by apply metaName_empty_2|].
  split; [intros seen; by apply containerName_empty_2|]. simpl.
  repeat split; [lia|]. intros v. unfold quoted. simpl. discriminate.
Qed.

(** In the second revision the diagnostic is part of what
    [validateObjectMeta] reports, whatever the other fields hold. *)
Lemma validateObjectMeta_empty_2 n nm rep rep' :
  getField n "name" = Ok (Some nm) -> notStr nm = false ->
  TrimSpace (Value nm) = "" ->
  Rev2.validateObjectMeta n rep = Ok (tt, rep') ->
  exists ds,
    errs rep' = errs rep ++ mkErrOut (r_file rep) (Line nm) "name is required" :: ds.
Proof.
  intros Hf Hs Ht. unfold Rev2.validateObjectMeta.
  unfold bind at 1. rewrite (metaName_empty_2 _ _ _ Hf Hs Ht).
  intros Hrest. apply framed_run in Hrest; [|framed_auto]. subst rep'.
  eexists. simpl. by rewrite <- app_assoc.
Qed.

(** C1 on the first revision: a Pod whose metadata name and whose only
    container name are the empty string.  The first revision reports
    both as an invalid format; the second one reports both as "name is
    required", on the line of the node. *)
Theorem empty_name_first_revision :
  Rev1.mainLoop "/srv/pod.yaml" [ pod "" [ container "" 7 ] ] (emptyReporter "pod.yaml")
  = Ok (tt, {| r_file := "pod.yaml";
               errs := [ mkErrOut "pod.yaml" 4 "name has invalid format ''";
                         mkErrOut "pod.yaml" 7 "name has invalid format ''" ] |}).
Proof. by vm_compute. Qed.

(** The same document in the second revision. *)
Lemma empty_name_second_revision :
  Rev2.mainLoop [ pod "" [ container "" 7 ] ] (emptyReporter "pod.yaml")
  = Ok (tt, {| r_file := "pod.yaml";
               errs := [ mkErrOut "pod.yaml" 4 "name is required";
                         mkErrOut "pod.yaml" 7 "name is required" ] |}).
Proof. by vm_compute. Qed.

(** * Container ports *)

Lemma validateContainerPort_found_1 n cp rep :
  getField n "containerPort" = Ok (Some cp) ->
  Rev1.validateContainerPort n rep
  = Rev1.portProtocol n
      (appendErrs rep
         match Rev1.asInt cp with
         | (_, _, Some _) => [ mkErrOut (r_file rep) (Line cp) "containerPort must be int" ]
         | (ival, _, None) =>
             if (ival <=? 0) || (65536 <=? ival)
             then [ mkErrOut (r_file rep) (Line cp) "containerPort value out of range" ]
             else []
         end).
Proof.
  intros Hf. unfold Rev1.validateContainerPort, Rev1.portContainerPort.
  unfold bind at 1 2. unfold lift. rewrite Hf.
  pose proof (asInt_line_1 cp) as Hl.
  destruct (Rev1.asInt cp) as [[ival l] [e|]]; simpl in Hl; subst l; [done|].
  destruct ((ival <=? 0) || (65536 <=? ival)); [done|]. simpl.
  by rewrite appendErrs_nil.
Qed.

Lemma validateContainerPort_found_2 n cp rep :
  getField n "containerPort" = Ok (Some cp) ->
  Rev2.validateContainerPort n rep
  = Rev2.portProtocol n
      (appendErrs rep
         match Rev2.asInt cp with
         | (_, _, Some _) => [ mkErrOut (r_file rep) (Line cp) "containerPort must be int" ]
         | (ival, _, None) =>
             if (ival <=? 0) || (65536 <=? ival)
             then [ mkErrOut (r_file rep) (Line cp) "containerPort value out of range" ]
             else []
         end).
Proof.
  intros Hf. unfold Rev2.validateContainerPort, Rev2.portContainerPort.
  unfold bind at 1 2. unfold lift. rewrite Hf.
  pose proof (asInt_line_2 cp) as Hl.
  destruct (Rev2.asInt cp) as [[ival l] [e|]]; simpl in Hl; subst l; [done|].
  destruct ((ival <=? 0) || (65536 <=? ival)); [done|]. simpl.
  by rewrite appendErrs_nil.
Qed.

Lemma port_in_range ival : 1 <= ival <= 65535 -> (ival <=? 0) || (65536 <=? ival) = false.
Proof. intros H. apply orb_false_intro; apply Z.leb_gt; lia. Qed.

Lemma port_out_of_range ival :
  ival < 1 \/ 65535 < ival -> (ival <=? 0) || (65536 <=? ival) = true.
Proof. intros H. apply orb_true_iff. destruct H; [left|right]; apply Z.leb_le; lia. Qed.

(** C3: when [containerPort] is present, [validateContainerPort] appends
    for it "value out of range" exactly when the coerced integer lies
    outside 1..65535, "must be int" when the coercion fails, and nothing
    when the integer is in range; the two diagnostics differ; it then
    goes on with [protocol].  Both revisions. *)
Theorem containerPort_range (n cp : Node) (rep : reporter) :
  getField n "containerPort" = Ok (Some cp) ->
  let outOfRange := mkErrOut (r_file rep) (Line cp) "containerPort value out of range" in
  let mustBeInt := mkErrOut (r_file rep) (Line cp) "containerPort must be int" in
  outOfRange <> mustBeInt
  /\ (forall ival l, Rev1.asInt cp = (ival, l, None) ->
        (1 <= ival <= 65535 ->
           Rev1.validateContainerPort n rep = Rev1.portProtocol n rep)
        /\ (ival < 1 \/ 65535 < ival ->
           Rev1.validateContainerPort n rep
           = Rev1.portProtocol n (appendErrs rep [outOfRange])))
  /\ (forall v l e, Rev1.asInt cp = (v, l, Some e) ->
        Rev1.validateContainerPort n rep
        = Rev1.portProtocol n (appendErrs rep [mustBeInt]))
  /\ (forall ival l, Rev2.asInt cp = (ival, l, None) ->
        (1 <= ival <= 65535 ->
           Rev2.validateContainerPort n rep = Rev2.portProtocol n rep)
        /\ (ival < 1 \/ 65535 < ival ->
           Rev2.validateContainerPort n rep
           = Rev2.portProtocol n (appendErrs rep [outOfRange])))
  /\ (forall v l e, Rev2.asInt cp = (v, l, Some e) ->
        Rev2.validateContainerPort n rep
        = Rev2.portProtocol n (appendErrs rep [mustBeInt])).
Proof.
  intros Hf outOfRange mustBeInt. split; [done|].
  rewrite (validateContainerPort_found_1 n cp rep Hf),
          (validateContainerPort_found_2 n cp rep Hf).
  split; [|split; [|split]].
  - intros ival l H. split.
    + intros Hin. rewrite H, (port_in_range _ Hin). by rewrite appendErrs_nil.
    + intros Hout. by rewrite H, (port_out_of_range _ Hout).
  - intros v l e H. by rewrite H.
  - intros ival l H. split.
    + intros Hin. rewrite H, (port_in_range _ Hin). by rewrite appendErrs_nil.
    + intros Hout. by rewrite H, (port_out_of_range _ Hout).
  - intros v l e H. by rewrite H.
Qed.

(** The four examples of the specification: 0 and 65536 are out of
    range, 8080 is in range, ["abc"] is not an integer. *)

Lemma containerPort_range_witness :
  Rev2.validateContainerPort (portItem (int "8080" 3)) (emptyReporter "pod.yaml")
  = Ok (tt, emptyReporter "pod.yaml")
  /\ Rev2.validateContainerPort (portItem (int "0" 3)) (emptyReporter "pod.yaml")
     = Ok (tt, {| r_file := "pod.yaml";
                  errs := [ mkErrOut "pod.yaml" 3 "containerPort value out of range" ] |})
  /\ Rev2.validateContainerPort (portItem (int "65536" 3)) (emptyReporter "pod.yaml")
     = Ok (tt, {| r_file := "pod.yaml";
                  errs := [ mkErrOut "pod.yaml" 3 "containerPort value out of range" ] |})
  /\ Rev2.validateContainerPort (portItem (str "abc" 3)) (emptyReporter "pod.yaml")
     = Ok (tt, {| r_file := "pod.yaml";
                  errs := [ mkErrOut "pod.yaml" 3 "containerPort must be int" ] |}).
Proof.
  set (rep := emptyReporter "pod.yaml").
  split; [|split; [|split]].
  - destruct (containerPort_range (portItem (int "8080" 3)) (int "8080" 3) rep eq_refl)
      as (_ & _ & _ & H & _).
    destruct (H 8080 3 eq_refl) as [Hin _]. rewrite Hin; [reflexivity|lia].
  - destruct (containerPort_range (portItem (int "0" 3)) (int "0" 3) rep eq_refl)
      as (_ & _ & _ & H & _).
    destruct (H 0 3 eq_refl) as [_ Hout]. rewrite Hout; [reflexivity|lia].
  - destruct (containerPort_range (portItem (int "65536" 3)) (int "65536" 3) rep eq_refl)
      as (_ & _ & _ & H & _).
    destruct (H 65536 3 eq_refl) as [_ Hout]. rewrite Hout; [reflexivity|lia].
  - destruct (containerPort_range (portItem (str "abc" 3)) (str "abc" 3) rep eq_refl)
      as (_ & _ & _ & _ & H).
    rewrite (H 0 3 ErrNotInt eq_refl). reflexivity.
Defined.

(** * The pod specification *)

Lemma isSequence_true n : Kind n = SequenceNode -> isSequence n = true.
Proof. intros H. unfold isSequence. by apply bool_decide_eq_true. Qed.

Lemma isMapping_true n : Kind n = MappingNode -> isMapping n = true.
Proof. intros H. unfold isMapping. by apply bool_decide_eq_true. Qed.

Lemma isMapping_false n : Kind n <> MappingNode -> isMapping n = false.
Proof. intros H. unfold isMapping. by apply bool_decide_eq_false. Qed.

(** C5: a [containers] field that is present and is a sequence without
    items gets "containers value out of range" on the line of the
    sequence, after whatever the [os] field got; an absent [containers]
    field gets the other diagnostic, "spec.containers is required",
    without a line.  Both revisions. *)
Theorem empty_containers (n c : Node) (rep : reporter) :
  getField n "containers" = Ok (Some c) ->
  Kind c = SequenceNode ->
  Content c = [] ->
  let outOfRange f := mkErrOut f (Line c) "containers value out of range" in
  let required f := mkErrOut f 0 "spec.containers is required" in
  Rev1.specContainers n rep = Ok (tt, appendErrs rep [outOfRange (r_file rep)])
  /\ Rev2.specContainers n rep = Ok (tt, appendErrs rep [outOfRange (r_file rep)])
  /\ Rev1.validatePodSpec n rep
     = match Rev1.specOs n rep with
       | Ok (_, r) => Ok (tt, appendErrs r [outOfRange (r_file r)])
       | Panic => Panic
       end
  /\ Rev2.validatePodSpec n rep
     = match Rev2.specOs n rep with
       | Ok (_, r) => Ok (tt, appendErrs r [outOfRange (r_file r)])
       | Panic => Panic
       end
  /\ (forall f, outOfRange f <> required f)
  /\ (forall n', getField n' "containers" = Ok None ->
        Rev1.specContainers n' rep = Ok (tt, appendErrs rep [required (r_file rep)])
        /\ Rev2.specContainers n' rep = Ok (tt, appendErrs rep [required (r_file rep)])).
Proof.
  intros Hf Hk Hc outOfRange required.
  assert (forall r, Rev1.specContainers n r = Ok (tt, appendErrs r [outOfRange (r_file r)])) as H1.
  { intros r. unfold Rev1.specContainers, bind, lift.
    by rewrite Hf, (isSequence_true _ Hk), Hc. }
  assert (forall r, Rev2.specContainers n r = Ok (tt, appendErrs r [outOfRange (r_file r)])) as H2.
  { intros r. unfold Rev2.specContainers, bind, lift.
    by rewrite Hf, (isSequence_true _ Hk), Hc. }
  split; [apply H1|]. split; [apply H2|].
  split; [|split; [|split]].
  - unfold Rev1.validatePodSpec, bind.
    destruct (Rev1.specOs n rep) as [[[] r]|]; [apply H1|done].
  - unfold Rev2.validatePodSpec, bind.
    destruct (Rev2.specOs n rep) as [[[] r]|]; [apply H2|done].
  - done.
  - intros n' Hn'. unfold Rev1.specContainers, Rev2.specContainers, bind, lift.
    by rewrite Hn'.
Qed.


Lemma empty_containers_witness :
  Rev1.validatePodSpec specNoContainers (emptyReporter "pod.yaml")
  = Ok (tt, {| r_file := "pod.yaml";
               errs := [ mkErrOut "pod.yaml" 6 "containers value out of range" ] |})
  /\ Rev2.validatePodSpec specNoContainers (emptyReporter "pod.yaml")
     = Ok (tt, {| r_file := "pod.yaml";
                  errs := [ mkErrOut "pod.yaml" 6 "containers value out of range" ] |}).
Proof.
  destruct (empty_containers specNoContainers (sequence 6 []) (emptyReporter "pod.yaml")
              eq_refl eq_refl eq_refl) as (_ & _ & H1 & H2 & _).
  rewrite H1, H2. split; reflexivity.
Defined.

(** * Probes *)

(** C7: in a probe that is a mapping, an absent [httpGet] gets only
    "<prefix>.httpGet is required", without a line, and an [httpGet]
    that is not a mapping gets only "httpGet must be object" on its own
    line; in both cases the validator is done, so neither [path] nor
    [port] is looked at.  (A probe that is not itself a mapping has no
    fields to be absent: it gets only "<prefix> must be object", on its
    own line.)  Both revisions. *)
Theorem probe_without_httpGet (n : Node) (prefix : string) (rep : reporter) :
  (Kind n = MappingNode -> getField n "httpGet" = Ok None ->
     let required := mkErrOut (r_file rep) 0 ((prefix +:+ ".httpGet") +:+ " is required") in
     Rev1.validateProbe n prefix rep = Ok (tt, appendErrs rep [required])
     /\ Rev2.validateProbe n prefix rep = Ok (tt, appendErrs rep [required]))
  /\ (forall hg, getField n "httpGet" = Ok (Some hg) -> Kind hg <> MappingNode ->
        let mustBeObject := mkErrOut (r_file rep) (Line hg) "httpGet must be object" in
        Rev1.validateProbe n prefix rep = Ok (tt, appendErrs rep [mustBeObject])
        /\ Rev2.validateProbe n prefix rep = Ok (tt, appendErrs rep [mustBeObject]))
  /\ (Kind n <> MappingNode ->
        let notObject := mkErrOut (r_file rep) (Line n) (prefix +:+ " must be object") in
        Rev1.validateProbe n prefix rep = Ok (tt, appendErrs rep [notObject])
        /\ Rev2.validateProbe n prefix rep = Ok (tt, appendErrs rep [notObject])).
Proof.
  split; [|split].
  - intros Hk Hf required.
    unfold Rev1.validateProbe, Rev2.validateProbe, bind, lift.
    by rewrite (isMapping_true _ Hk), Hf.
  - intros hg Hf Hk mustBeObject.
    unfold Rev1.validateProbe, Rev2.validateProbe, bind, lift.
    by rewrite (getField_mapping _ _ _ Hf), Hf, (isMapping_false _ Hk).
  - intros Hk notObject.
    unfold Rev1.validateProbe, Rev2.validateProbe.
    by rewrite (isMapping_false _ Hk).
Qed.

Lemma probe_without_httpGet_witness :
  Rev2.validateProbe probeNoHttpGet "readinessProbe" (emptyReporter "pod.yaml")
  = Ok (tt, {| r_file := "pod.yaml";
               errs := [ mkErrOut "pod.yaml" 0 "readinessProbe.httpGet is required" ] |})
  /\ Rev2.validateProbe probeScalarHttpGet "livenessProbe" (emptyReporter "pod.yaml")
     = Ok (tt, {| r_file := "pod.yaml";
                  errs := [ mkErrOut "pod.yaml" 10 "httpGet must be object" ] |}).
Proof.
  split.
  - destruct (probe_without_httpGet probeNoHttpGet "readinessProbe" (emptyReporter "pod.yaml"))
      as [H _].
    destruct (H eq_refl eq_refl) as [_ H2]. rewrite H2. reflexivity.
  - destruct (probe_without_httpGet probeScalarHttpGet "livenessProbe" (emptyReporter "pod.yaml"))
      as (_ & H & _).
    destruct (H (str "/health" 10) eq_refl ltac:(discriminate)) as [_ H2].
    rewrite H2. reflexivity.
Defined.

(** * The four fields of a Pod *)

Lemma safe_framed_run {A} (m : M A) rep :
  safe m -> framed m -> exists a, m rep = Ok (a, appendErrs rep (diags m (r_file rep))).
Proof.
  intros Hs Hm. destruct (Hs rep) as (a & rep' & Hrun). exists a.
  by rewrite Hrun, (framed_run _ _ _ _ Hm Hrun).
Qed.

Lemma diags_seq (m k : M unit) f :
  safe m -> framed m -> safe k -> framed k ->
  diags (m >> k) f = diags m f ++ diags k f.
Proof.
  intros Hsm Hm Hsk Hk. unfold diags at 1. unfold bind.
  destruct (safe_framed_run m {| r_file := f; errs := [] |} Hsm Hm) as ([] & H1).
  simpl in H1. rewrite H1.
  destruct (safe_framed_run k (appendErrs {| r_file := f; errs := [] |} (diags m f)) Hsk Hk)
    as ([] & H2).
  simpl in H2. by rewrite H2.
Qed.

Lemma safe_seq (m k : M unit) : safe m -> safe k -> safe (m >> k).
Proof. intros Hm Hk. apply safe_bind; auto. Qed.

Lemma diags_seq4 (m1 m2 m3 m4 : M unit) f :
  safe m1 -> safe m2 -> safe m3 -> safe m4 ->
  framed m1 -> framed m2 -> framed m3 -> framed m4 ->
  diags (m1 >> m2 >> m3 >> m4) f = diags m1 f ++ diags m2 f ++ diags m3 f ++ diags m4 f.
Proof.
  intros S1 S2 S3 S4 F1 F2 F3 F4.
  rewrite diags_seq; [|done|done|by repeat apply safe_seq|by framed_auto].
  rewrite diags_seq; [|done|done|by repeat apply safe_seq|by framed_auto].
  by rewrite diags_seq.
Qed.

(** C6: on a well-formed document, what [validatePod] appends is what
    the [apiVersion] block appends, then what the [kind] block appends,
    then the [metadata] block, then the [spec] block, each of them as it
    would report alone on an empty reporter; and what a block reports is
    settled by the field it looks up.  So no block is skipped or changed
    by what another one has found.  Both revisions. *)
Theorem pod_fields_independent (doc : Node) (rep : reporter) :
  wf doc = true ->
  let f := r_file rep in
  (forall filename,
     Rev1.validatePod filename doc rep
     = Ok (tt, appendErrs rep (diags (Rev1.podApiVersion doc) f
                               ++ diags (Rev1.podKind doc) f
                               ++ diags (Rev1.podMetadata doc) f
                               ++ diags (Rev1.podSpec doc) f)))
  /\ Rev2.validatePod doc rep
     = Ok (tt, appendErrs rep (diags (Rev2.podApiVersion doc) f
                               ++ diags (Rev2.podKind doc) f
                               ++ diags (Rev2.podMetadata doc) f
                               ++ diags (Rev2.podSpec doc) f))
  /\ (forall doc',
        (getField doc' "apiVersion" = getField doc "apiVersion" ->
           diags (Rev1.podApiVersion doc') f = diags (Rev1.podApiVersion doc) f
           /\ diags (Rev2.podApiVersion doc') f = diags (Rev2.podApiVersion doc) f)
        /\ (getField doc' "kind" = getField doc "kind" ->
           diags (Rev1.podKind doc') f = diags (Rev1.podKind doc) f
           /\ diags (Rev2.podKind doc') f = diags (Rev2.podKind doc) f)
        /\ (getField doc' "metadata" = getField doc "metadata" ->
           diags (Rev1.podMetadata doc') f = diags (Rev1.podMetadata doc) f
           /\ diags (Rev2.podMetadata doc') f = diags (Rev2.podMetadata doc) f)
        /\ (getField doc' "spec" = getField doc "spec" ->
           diags (Rev1.podSpec doc') f = diags (Rev1.podSpec doc) f
           /\ diags (Rev2.podSpec doc') f = diags (Rev2.podSpec doc) f)).
Proof.
  intros Hwf f.
  assert (forall m : M unit, safe m -> framed m ->
            m rep = Ok (tt, appendErrs rep (diags m f))) as Hrun.
  { intros m Hs Hm. by destruct (safe_framed_run m rep Hs Hm) as ([] & ->). }
  split; [|split].
  - intros filename.
    rewrite (Hrun _ (safe_validatePod_1 filename doc Hwf) (framed_validatePod_1 filename doc)).
    unfold Rev1.validatePod. 
    assert (safe (Rev1.podApiVersion doc)) as S1.
    { unfold Rev1.podApiVersion. safe_auto. }
    assert (safe (Rev1.podKind doc)) as S2.
    { unfold Rev1.podKind. safe_auto. }
    assert (safe (Rev1.podMetadata doc)) as S3.
    { unfold Rev1.podMetadata. safe_auto. }
    assert (safe (Rev1.podSpec doc)) as S4.
    { unfold Rev1.podSpec. safe_auto. }
    by rewrite (diags_seq4 _ _ _ _ f S1 S2 S3 S4 (framed_podApiVersion_1 doc)
                 (framed_podKind_1 doc) (framed_podMetadata_1 doc) (framed_podSpec_1 doc)).
  - rewrite (Hrun _ (safe_validatePod_2 doc Hwf) (framed_validatePod_2 doc)).
    unfold Rev2.validatePod. 
    assert (safe (Rev2.podApiVersion doc)) as S1.
    { unfold Rev2.podApiVersion. safe_auto. }
    assert (safe (Rev2.podKind doc)) as S2.
    { unfold Rev2.podKind. safe_auto. }
    assert (safe (Rev2.podMetadata doc)) as S3.
    { unfold Rev2.podMetadata. safe_auto. }
    assert (safe (Rev2.podSpec doc)) as S4.
    { unfold Rev2.podSpec. safe_auto. }
    by rewrite (diags_seq4 _ _ _ _ f S1 S2 S3 S4 (framed_podApiVersion_2 doc)
                 (framed_podKind_2 doc) (framed_podMetadata_2 doc) (framed_podSpec_2 doc)).
  - intros doc'. repeat split.
    all: unfold diags, Rev1.podApiVersion, Rev2.podApiVersion, Rev1.podKind, Rev2.podKind,
           Rev1.podMetadata, Rev2.podMetadata, Rev1.podSpec, Rev2.podSpec, bind, lift.
    all: by rewrite H.
Qed.


Lemma pod_fields_independent_witness :
  Rev2.validatePod podAllWrong (emptyReporter "pod.yaml")
  = Ok (tt, {| r_file := "pod.yaml";
               errs := [ mkErrOut "pod.yaml" 0 "apiVersion is required";
                         mkErrOut "pod.yaml" 1 "kind has unsupported value 'Deployment'";
                         mkErrOut "pod.yaml" 2 "metadata must be object";
                         mkErrOut "pod.yaml" 3 "spec must be object" ] |}).
Proof.
  destruct (pod_fields_independent podAllWrong (emptyReporter "pod.yaml") eq_refl)
    as (_ & H & _).
  rewrite H. reflexivity.
Defined.

(** * The reporter only grows *)

Lemma hasErrors_appendErrs r ds :
  hasErrors r = true -> hasErrors (appendErrs r ds) = true.
Proof.
  unfold hasErrors, appendErrs. simpl. rewrite length_app.
  intros H%Nat.ltb_lt. apply Nat.ltb_lt. lia.
Qed.

Lemma hasErrors_iff r : hasErrors r = true <-> errs r <> [].
Proof.
  unfold hasErrors. destruct (errs r); simpl; split; try done.
Qed.

Lemma framed_monotone {A} (m : M A) rep a rep' :
  framed m -> m rep = Ok (a, rep') ->
  r_file rep' = r_file rep
  /\ (exists ds, errs rep' = errs rep ++ ds)
  /\ (hasErrors rep = true -> hasErrors rep' = true).
Proof.
  intros Hm Hrun. apply (framed_run _ _ _ _ Hm) in Hrun. subst rep'.
  split; [done|]. split; [by eexists|]. apply hasErrors_appendErrs.
Qed.

(** C10: [add] and the [addRequired] functions of both revisions put
    exactly one diagnostic at the end of the list and leave the rest of
    the reporter as it was; [hasErrors] is true exactly when the list is
    not empty; and every run of [validatePod], and of the loop of [main]
    over the documents, that returns, returns a reporter whose list
    starts with the list it was given, so that [hasErrors], once true,
    stays true. *)
Theorem reporter_append_only :
  (forall l m r, add l m r = Ok (tt, appendErrs r [ mkErrOut (r_file r) l m ]))
  /\ (forall fld r,
        Rev1.addRequired fld r
        = Ok (tt, appendErrs r [ mkErrOut (r_file r) 0 (fld +:+ " is required") ]))
  /\ (forall fld r,
        Rev2.addRequiredNoLine fld r
        = Ok (tt, appendErrs r [ mkErrOut (r_file r) 0 (fld +:+ " is required") ]))
  /\ (forall l fld r,
        Rev2.addRequiredAt l fld r
        = Ok (tt, appendErrs r [ mkErrOut (r_file r) l (fld +:+ " is required") ]))
  /\ (forall r ds, errs (appendErrs r ds) = errs r ++ ds
                   /\ r_file (appendErrs r ds) = r_file r)
  /\ (forall r, hasErrors r = true <-> errs r <> [])
  /\ (forall filename doc rep rep',
        Rev1.validatePod filename doc rep = Ok (tt, rep') ->
        (exists ds, errs rep' = errs rep ++ ds)
        /\ (hasErrors rep = true -> hasErrors rep' = true))
  /\ (forall doc rep rep',
        Rev2.validatePod doc rep = Ok (tt, rep') ->
        (exists ds, errs rep' = errs rep ++ ds)
        /\ (hasErrors rep = true -> hasErrors rep' = true))
  /\ (forall abs docs rep rep',
        Rev1.mainLoop abs docs rep = Ok (tt, rep') ->
        (exists ds, errs rep' = errs rep ++ ds)
        /\ (hasErrors rep = true -> hasErrors rep' = true))
  /\ (forall docs rep rep',
        Rev2.mainLoop docs rep = Ok (tt, rep') ->
        (exists ds, errs rep' = errs rep ++ ds)
        /\ (hasErrors rep = true -> hasErrors rep' = true)).
Proof.
  split; [done|]. split; [done|]. split; [done|]. split; [done|].
  split; [done|]. split; [apply hasErrors_iff|].
  split; [|split; [|split]].
  - intros filename doc rep rep' H.
    by apply (framed_monotone _ _ _ _ (framed_validatePod_1 filename doc)) in H as (_ & ? & ?).
  - intros doc rep rep' H.
    by apply (framed_monotone _ _ _ _ (framed_validatePod_2 doc)) in H as (_ & ? & ?).
  - intros abs docs rep rep' H.
    by apply (framed_monotone _ _ _ _ (framed_mainLoop_1 abs docs)) in H as (_ & ? & ?).
  - intros docs rep rep' H.
    by apply (framed_monotone _ _ _ _ (framed_mainLoop_2 docs)) in H as (_ & ? & ?).
Qed.


(** A run over a valid document that starts with one diagnostic ends
    with it. *)
Lemma reporter_append_only_witness :
  exists rep',
    Rev2.mainLoop [ pod "app" [ container "web" 7 ] ] oneError = Ok (tt, rep')
    /\ hasErrors rep' = true.
Proof.
  exists oneError.
  assert (Rev2.mainLoop [ pod "app" [ container "web" 7 ] ] oneError = Ok (tt, oneError))
    as Hrun by reflexivity.
  split; [exact Hrun|].
  destruct reporter_append_only as (_ & _ & _ & _ & _ & _ & _ & _ & _ & H).
  destruct (H _ _ _ Hrun) as [_ Hmono]. apply Hmono. reflexivity.
Defined.

(** * Container names: duplicates *)

Lemma validName_split v :
  validName v = true -> (TrimSpace v =? "")%string = false /\ reSnake v = true.
Proof.
  unfold validName. intros [H1 H2]%andb_prop. split; [|done].
  by apply negb_true_iff.
Qed.

Lemma containerName_valid_1 item nm seen rep :
  getField item "name" = Ok (Some nm) -> notStr nm = false ->
  validName (Value nm) = true ->
  Rev1.containerName item seen rep
  = Ok ({[ Value nm ]} ∪ seen,
        appendErrs rep (if bool_decide (Value nm ∈ seen)
                        then [ mkErrOut (r_file rep) (Line nm) msgDuplicate ] else [])).
Proof.
  intros Hf Hs [Ht Hr]%validName_split.
  unfold Rev1.containerName, bind, lift. rewrite Hf, Hs, Ht, Hr. simpl.
  destruct (bool_decide (Value nm ∈ seen)); [done|].
  unfold skip, ret. by rewrite appendErrs_nil.
Qed.

Lemma containerName_valid_2 item nm seen rep :
  getField item "name" = Ok (Some nm) -> notStr nm = false ->
  validName (Value nm) = true ->
  Rev2.containerName item seen rep
  = Ok ({[ Value nm ]} ∪ seen,
        appendErrs rep (if bool_decide (Value nm ∈ seen)
                        then [ mkErrOut (r_file rep) (Line nm) msgDuplicate ] else [])).
Proof.
  intros Hf Hs [Ht Hr]%validName_split.
  unfold Rev2.containerName, bind, lift. rewrite Hf, Hs, Ht, Hr. simpl.
  destruct (bool_decide (Value nm ∈ seen)); [done|].
  unfold skip, ret. by rewrite appendErrs_nil.
Qed.

(** What the name block does to the map, in every case. *)
Lemma containerName_seen_1 item seen rep seen' rep' :
  Rev1.containerName item seen rep = Ok (seen', rep') ->
  seen' = match registeredName item with
          | Some v => {[ v ]} ∪ seen
          | None => seen
          end.
Proof.
  unfold Rev1.containerName, registeredName, validName, bind, lift.
  destruct (getField item "name") as [[nm|]|]; simpl; [|by intros [= <- _]|done].
  destruct (notStr nm); simpl; [by intros [= <- _]|].
  destruct (TrimSpace (Value nm) =? "")%string; simpl; [by intros [= <- _]|].
  destruct (reSnake (Value nm)); simpl; [|by intros [= <- _]].
  destruct (bool_decide _); simpl; by intros [= <- _].
Qed.

Lemma containerName_seen_2 item seen rep seen' rep' :
  Rev2.containerName item seen rep = Ok (seen', rep') ->
  seen' = match registeredName item with
          | Some v => {[ v ]} ∪ seen
          | None => seen
          end.
Proof.
  unfold Rev2.containerName, registeredName, validName, bind, lift.
  destruct (getField item "name") as [[nm|]|]; simpl; [|by intros [= <- _]|done].
  destruct (notStr nm); simpl; [by intros [= <- _]|].
  destruct (TrimSpace (Value nm) =? "")%string; simpl; [by intros [= <- _]|].
  destruct (reSnake (Value nm)); simpl; [|by intros [= <- _]].
  destruct (bool_decide _); simpl; by intros [= <- _].
Qed.

Lemma registeredName_not_mapping item : isMapping item = false -> registeredName item = None.
Proof. intros H. unfold registeredName, getField. by rewrite H. Qed.

Lemma containersItem_seen_1 item seen rep seen' rep' :
  Rev1.containersItem item seen rep = Ok (seen', rep') ->
  seen' = match registeredName item with
          | Some v => {[ v ]} ∪ seen
          | None => seen
          end.
Proof.
  unfold Rev1.containersItem. destruct (isMapping item) eqn:Hm; simpl.
  - unfold Rev1.containerBody. unfold bind at 1.
    destruct (Rev1.containerName item seen rep) as [[s1 r1]|] eqn:Hn; [|done].
    apply containerName_seen_1 in Hn. unfold bind, ret.
    destruct (Rev1.containerFields item r1) as [[[] r2]|]; [|done].
    intros [= <- _]. done.
  - rewrite (registeredName_not_mapping _ Hm). by intros [= <- _].
Qed.

Lemma containersItem_seen_2 item seen rep seen' rep' :
  Rev2.containersItem item seen rep = Ok (seen', rep') ->
  seen' = match registeredName item with
          | Some v => {[ v ]} ∪ seen
          | None => seen
          end.
Proof.
  unfold Rev2.containersItem. destruct (isMapping item) eqn:Hm; simpl.
  - unfold Rev2.validateContainer. unfold bind at 1.
    destruct (Rev2.containerName item seen rep) as [[s1 r1]|] eqn:Hn; [|done].
    apply containerName_seen_2 in Hn. unfold bind, ret.
    destruct (Rev2.containerFields item r1) as [[[] r2]|]; [|done].
    intros [= <- _]. done.
  - rewrite (registeredName_not_mapping _ Hm). by intros [= <- _].
Qed.

(** The invariant of the loop over the containers: the map holds the
    names registered so far. *)
Lemma foldRange_seen (body : Node -> gset string -> M (gset string)) :
  (forall item seen rep seen' rep',
     body item seen rep = Ok (seen', rep') ->
     seen' = match registeredName item with
             | Some v => {[ v ]} ∪ seen
             | None => seen
             end) ->
  forall items seen rep seen' rep',
    foldRange body items seen rep = Ok (seen', rep') ->
    seen' = list_to_set (registeredNames items) ∪ seen.
Proof.
  intros Hbody. induction items as [|item items IH]; intros seen rep seen' rep'; simpl.
  - intros [= <- _]. by rewrite (left_id_L ∅ (∪)).
  - unfold bind. destruct (body item seen rep) as [[s1 r1]|] eqn:Hb; [|done].
    apply Hbody in Hb. intros Hrest%IH. subst.
    unfold registeredNames. simpl. destruct (registeredName item) as [v|]; simpl; [|done].
    rewrite (assoc_L (∪)). f_equal. apply (comm_L (∪)).
Qed.

Lemma foldRange_app {A S} (body : A -> S -> M S) l1 l2 s rep :
  foldRange body (l1 ++ l2) s rep
  = match foldRange body l1 s rep with
    | Ok (s1, rep1) => foldRange body l2 s1 rep1
    | Panic => Panic
    end.
Proof.
  revert s rep. induction l1 as [|x l1 IH]; intros s rep; simpl; [done|].
  unfold bind. destruct (body x s rep) as [[s' r']|]; [apply IH|done].
Qed.

Lemma elem_of_registered (v : string) (names : list string) :
  bool_decide (v ∈ (list_to_set names : gset string)) = bool_decide (v ∈ names).
Proof. apply bool_decide_ext. by rewrite elem_of_list_to_set. Qed.

(** C4: let a container follow the containers [pre] in the sequence, and
    let its name be a string scalar with a valid name [v].  When the
    loop has gone through [pre], the map holds the names registered by
    [pre]; the name block of the container then appends the diagnostic
    "name has invalid format 'duplicate'" on the line of its own name
    node exactly when [v] is among those names, registers [v], and the
    loop goes on with the other fields of the container and with the
    containers [post].  So the first container of a name gets no such
    diagnostic, and each later one gets exactly one.  Both revisions. *)
Theorem duplicate_container_names (pre post : list Node) (item nm : Node) (rep : reporter) :
  Kind item = MappingNode ->
  getField item "name" = Ok (Some nm) ->
  notStr nm = false ->
  validName (Value nm) = true ->
  let v := Value nm in
  let duplicate f :=
    if bool_decide (v ∈ registeredNames pre)
    then [ mkErrOut f (Line nm) "name has invalid format 'duplicate'" ] else [] in
  (forall seen1 rep1,
     foldRange Rev1.containersItem pre ∅ rep = Ok (seen1, rep1) ->
     seen1 = list_to_set (registeredNames pre)
     /\ Rev1.containerName item seen1 rep1
        = Ok ({[ v ]} ∪ seen1, appendErrs rep1 (duplicate (r_file rep)))
     /\ foldRange Rev1.containersItem (pre ++ item :: post) ∅ rep
        = (do _ <- Rev1.containerFields item;
           foldRange Rev1.containersItem post ({[ v ]} ∪ seen1))
            (appendErrs rep1 (duplicate (r_file rep))))
  /\ (forall seen1 rep1,
     foldRange Rev2.containersItem pre ∅ rep = Ok (seen1, rep1) ->
     seen1 = list_to_set (registeredNames pre)
     /\ Rev2.containerName item seen1 rep1
        = Ok ({[ v ]} ∪ seen1, appendErrs rep1 (duplicate (r_file rep)))
     /\ foldRange Rev2.containersItem (pre ++ item :: post) ∅ rep
        = (do _ <- Rev2.containerFields item;
           foldRange Rev2.containersItem post ({[ v ]} ∪ seen1))
            (appendErrs rep1 (duplicate (r_file rep)))).
Proof.
  intros Hk Hf Hs Hv v duplicate. split.
  - intros seen1 rep1 Hpre.
    pose proof (foldRange_seen _ containersItem_seen_1 _ _ _ _ _ Hpre) as Hseen.
    rewrite (right_id_L ∅ (∪)) in Hseen.
    pose proof (framed_monotone _ _ _ _ (framed_foldRange _ pre framed_containersItem_1 ∅) Hpre)
      as (Hfile & _).
    assert (Rev1.containerName item seen1 rep1
            = Ok ({[ v ]} ∪ seen1, appendErrs rep1 (duplicate (r_file rep)))) as Hname.
    { rewrite (containerName_valid_1 _ _ _ _ Hf Hs Hv).
      unfold duplicate. by rewrite Hseen, elem_of_registered, Hfile. }
    split; [done|]. split; [done|].
    rewrite foldRange_app, Hpre. simpl.
    unfold Rev1.containersItem at 1. rewrite (isMapping_true _ Hk). simpl.
    unfold Rev1.containerBody. do 2 unfold bind at 1. rewrite Hname.
    unfold bind, ret. by destruct (Rev1.containerFields item _) as [[[] r2]|].
  - intros seen1 rep1 Hpre.
    pose proof (foldRange_seen _ containersItem_seen_2 _ _ _ _ _ Hpre) as Hseen.
    rewrite (right_id_L ∅ (∪)) in Hseen.
    pose proof (framed_monotone _ _ _ _ (framed_foldRange _ pre framed_containersItem_2 ∅) Hpre)
      as (Hfile & _).
    assert (Rev2.containerName item seen1 rep1
            = Ok ({[ v ]} ∪ seen1, appendErrs rep1 (duplicate (r_file rep)))) as Hname.
    { rewrite (containerName_valid_2 _ _ _ _ Hf Hs Hv).
      unfold duplicate. by rewrite Hseen, elem_of_registered, Hfile. }
    split; [done|]. split; [done|].
    rewrite foldRange_app, Hpre. simpl.
    unfold Rev2.containersItem at 1. rewrite (isMapping_true _ Hk). simpl.
    unfold Rev2.validateContainer. do 2 unfold bind at 1. rewrite Hname.
    unfold bind, ret. by destruct (Rev2.containerFields item _) as [[[] r2]|].
Qed.

(** Three containers named [web]: the second and the third are
    reported, each on its own line. *)
Lemma duplicate_container_names_witness :
  foldRange Rev2.containersItem
    ([ container "web" 7; container "web" 10 ] ++ container "web" 13 :: []) ∅
    (emptyReporter "pod.yaml")
  = Ok ({[ "web" ]},
        {| r_file := "pod.yaml";
           errs := [ mkErrOut "pod.yaml" 10 "name has invalid format 'duplicate'";
                     mkErrOut "pod.yaml" 13 "name has invalid format 'duplicate'" ] |}).
Proof.
  destruct (duplicate_container_names [ container "web" 7; container "web" 10 ] []
              (container "web" 13) (str "web" 13) (emptyReporter "pod.yaml")
              eq_refl eq_refl eq_refl eq_refl) as [_ H].
  edestruct H as (_ & _ & Hloop); [reflexivity|].
  rewrite Hloop. by vm_compute.
Defined.

(** * Container names: what is registered *)

Lemma app_quote_inj (v w : string) : v +:+ "'" = w +:+ "'" -> v = w.
Proof.
  revert w. induction v as [|a v IH]; intros [|b w]; simpl; try done.
  - intros [= <- H]. by destruct w.
  - intros [= -> H]. by destruct v.
  - intros [= <- H]. f_equal. by apply IH.
Qed.

Lemma quoted_duplicate v : quoted "name has invalid format" v = msgDuplicate -> v = "duplicate".
Proof.
  unfold quoted, msgDuplicate. simpl. intros [= H]. by apply app_quote_inj.
Qed.

Lemma invalid_not_duplicate v :
  validName v = false -> quoted "name has invalid format" v <> msgDuplicate.
Proof. intros Hv Heq%quoted_duplicate. subst v. by vm_compute in Hv. Qed.

Lemma validName_false v :
  validName v = false -> (TrimSpace v =? "")%string = true \/ reSnake v = false.
Proof.
  unfold validName. intros [H|H]%andb_false_iff; [left|by right].
  by apply negb_false_iff.
Qed.

Lemma containerName_invalid_1 item nm seen rep :
  getField item "name" = Ok (Some nm) -> notStr nm = false ->
  validName (Value nm) = false ->
  Rev1.containerName item seen rep
  = Ok (seen, appendErrs rep
                [ mkErrOut (r_file rep) (Line nm)
                    (quoted "name has invalid format" (Value nm)) ]).
Proof.
  intros Hf Hs Hv. unfold Rev1.containerName, bind, lift. rewrite Hf, Hs.
  by destruct (validName_false _ Hv) as [-> | ->]; rewrite ?orb_true_r.
Qed.

Lemma containerName_invalid_2 item nm seen rep :
  getField item "name" = Ok (Some nm) -> notStr nm = false ->
  validName (Value nm) = false ->
  Rev2.containerName item seen rep
  = Ok (seen, appendErrs rep
                [ mkErrOut (r_file rep) (Line nm)
                    (if (TrimSpace (Value nm) =? "")%string then "name is required"
                     else quoted "name has invalid format" (Value nm)) ]).
Proof.
  intros Hf Hs Hv. unfold Rev2.containerName, bind, lift. rewrite Hf, Hs.
  destruct (TrimSpace (Value nm) =? "")%string eqn:Ht; [done|].
  by destruct (validName_false _ Hv) as [? | ->]; [congruence|].
Qed.

(** C9, as it is written, fails in the second revision: a container
    whose name is the empty string gets "name is required", which is
    not a format diagnostic. *)
Lemma invalid_name_format_counterexample :
  ~ (forall item nm seen rep,
       getField item "name" = Ok (Some nm) -> notStr nm = false ->
       validName (Value nm) = false ->
       Rev2.containerName item seen rep
       = Ok (seen, appendErrs rep
                     [ mkErrOut (r_file rep) (Line nm)
                         (quoted "name has invalid format" (Value nm)) ])).
Proof.
  intros H.
  specialize (H (container "" 7) (str "" 7) ∅ (emptyReporter "pod.yaml")
                eq_refl eq_refl eq_refl).
  vm_compute in H. discriminate H.
Qed.

(** C9, as amended: the name block of a container adds a name to the
    map only when the [name] field is a string scalar whose value is not
    empty once trimmed and is in snake case, and the name it adds is
    that value.  A container whose name is a string scalar that is not
    valid leaves the map as it was and gets exactly one diagnostic, on
    the line of its own name node, whatever the map holds: an invalid
    format diagnostic that quotes the name, except that the second
    revision reports a name that is empty once trimmed as "name is
    required"; this diagnostic is never the "duplicate" one. *)
Theorem invalid_names_not_registered (item : Node) (seen : gset string) (rep : reporter) :
  (forall seen' rep',
     Rev1.containerName item seen rep = Ok (seen', rep')
     \/ Rev2.containerName item seen rep = Ok (seen', rep') ->
     forall x, x ∈ seen' -> x ∉ seen ->
       exists nm, getField item "name" = Ok (Some nm)
                  /\ Kind nm = ScalarNode /\ Tag nm = "!!str"
                  /\ Value nm = x
                  /\ TrimSpace x <> ""
                  /\ reSnake x = true)
  /\ (forall nm,
        getField item "name" = Ok (Some nm) -> notStr nm = false ->
        validName (Value nm) = false ->
        let format := quoted "name has invalid format" (Value nm) in
        let message2 :=
          if (TrimSpace (Value nm) =? "")%string then "name is required" else format in
        Rev1.containerName item seen rep
        = Ok (seen, appendErrs rep [ mkErrOut (r_file rep) (Line nm) format ])
        /\ Rev2.containerName item seen rep
           = Ok (seen, appendErrs rep [ mkErrOut (r_file rep) (Line nm) message2 ])
        /\ format <> msgDuplicate
        /\ message2 <> msgDuplicate).
Proof.
  split.
  - intros seen' rep' Hrun x Hin Hnot.
    assert (seen' = match registeredName item with
                    | Some v => {[ v ]} ∪ seen
                    | None => seen
                    end) as Hseen.
    { destruct Hrun as [H|H];
        [by apply containerName_seen_1 in H | by apply containerName_seen_2 in H]. }
    unfold registeredName in Hseen.
    destruct (getField item "name") as [[nm|]|]; [|by subst..].
    destruct (notStr nm) eqn:Hs; [by subst|].
    destruct (validName (Value nm)) eqn:Hv; [|by subst].
    subst seen'. apply elem_of_union in Hin as [Hin%elem_of_singleton|Hin]; [|done].
    subst x. exists nm.
    apply validName_split in Hv as [Ht Hr]. apply String.eqb_neq in Ht.
    unfold notStr in Hs. apply orb_false_elim in Hs as [Hk Htag].
    apply negb_false_iff in Hk, Htag.
    apply bool_decide_eq_true in Hk. apply String.eqb_eq in Htag.
    by repeat split.
  - intros nm Hf Hs Hv format message2.
    split; [by apply containerName_invalid_1|].
    split; [by apply containerName_invalid_2|].
    split; [by apply invalid_not_duplicate|].
    unfold message2. destruct (TrimSpace (Value nm) =? "")%string; [done|].
    by apply invalid_not_duplicate.
Qed.

(** Two containers named [Web] after a valid one: each gets its own
    format diagnostic, none gets the duplicate one. *)
Lemma invalid_names_not_registered_witness :
  Rev2.containerName (container "Web" 10) {[ "web" ]} (emptyReporter "pod.yaml")
  = Ok ({[ "web" ]},
        {| r_file := "pod.yaml";
           errs := [ mkErrOut "pod.yaml" 10 "name has invalid format 'Web'" ] |})
  /\ "name has invalid format 'Web'" <> msgDuplicate.
Proof.
  destruct (invalid_names_not_registered (container "Web" 10) {[ "web" ]}
              (emptyReporter "pod.yaml")) as [_ H].
  destruct (H (str "Web" 10) eq_refl eq_refl eq_refl) as (_ & H2 & H3 & _).
  split; [rewrite H2; reflexivity | exact H3].
Defined.


(** * The number of diagnostics is bounded by the size of the tree *)

Lemma size_unfold n : size n = S (list_sum (List.map size (Content n))).
Proof. by destruct n. Qed.

Lemma size_pos n : (1 <= size n)%nat.
Proof. rewrite size_unfold. lia. Qed.

Lemma list_sum_In (x : Node) l : In x l -> (size x <= list_sum (List.map size l))%nat.
Proof.
  induction l as [|y l IH]; simpl; [done|]. intros [->|H]; [lia|].
  specialize (IH H). lia.
Qed.

Lemma size_child n x : In x (Content n) -> (size x < size n)%nat.
Proof. intros H%list_sum_In. rewrite (size_unfold n). lia. Qed.

Lemma length_le_sum (l : list Node) : (length l <= list_sum (List.map size l))%nat.
Proof.
  induction l as [|y l IH]; simpl; [done|]. pose proof (size_pos y). lia.
Qed.

Lemma size_content n : (length (Content n) < size n)%nat.
Proof. rewrite (size_unfold n). pose proof (length_le_sum (Content n)). lia. Qed.

Lemma atMost_weaken {A} (m : M A) b b' :
  emitsAtMost m b -> (b <= b')%nat -> emitsAtMost m b'.
Proof. intros Hm Hb rep a rep' Hrun. specialize (Hm _ _ _ Hrun). lia. Qed.

Lemma atMost_ret {A} (a : A) : emitsAtMost (ret a) 0.
Proof. intros rep a' rep' [= _ <-]. lia. Qed.

Lemma atMost_add l m : emitsAtMost (add l m) 1.
Proof.
  intros rep [] rep' [= <-]. cbn [errs]. rewrite length_app. simpl. lia.
Qed.

Lemma atMost_bind {A B} (m : M A) (k : A -> M B) b1 b2 :
  emitsAtMost m b1 -> (forall a, emitsAtMost (k a) b2) -> emitsAtMost (bind m k) (b1 + b2).
Proof.
  intros Hm Hk rep b rep'. unfold bind.
  destruct (m rep) as [[a r1]|] eqn:H1; [|done]. intros H2.
  specialize (Hm _ _ _ H1). specialize (Hk _ _ _ _ H2). lia.
Qed.

Lemma atMost_getField {B} n key (k : option Node -> M B) b :
  (forall o, (forall v, o = Some v -> In v (Content n)) -> emitsAtMost (k o) b) ->
  emitsAtMost (bind (lift (getField n key)) k) b.
Proof.
  intros Hk rep a rep'. unfold bind, lift.
  destruct (getField n key) as [o|] eqn:Hf; [|done].
  apply Hk. intros v ->. by apply getField_In in Hf.
Qed.

Lemma atMost_forPairs body c b :
  (forall k v, emitsAtMost (body k v) b) ->
  emitsAtMost (forPairs body c) (b * length c).
Proof.
  intros Hb. induction c as [|k|k v rest IH] using pairs_ind; simpl.
  - eapply atMost_weaken; [apply atMost_ret|lia].
  - by intros rep a rep'.
  - eapply atMost_weaken; [apply atMost_bind; [apply Hb|intros _; apply IH]|]. lia.
Qed.

Lemma atMost_forRange (body : Node -> M unit) l c :
  (forall x, In x l -> emitsAtMost (body x) (c * size x)) ->
  emitsAtMost (forRange body l) (c * list_sum (List.map size l)).
Proof.
  induction l as [|x l IH]; intros Hb; simpl.
  - eapply atMost_weaken; [apply atMost_ret|lia].
  - eapply atMost_weaken;
      [apply atMost_bind; [apply Hb; by left|intros _; apply IH; intros y Hy; apply Hb; by right]|].
    lia.
Qed.

Lemma atMost_foldRange {S} (body : Node -> S -> M S) l c :
  (forall x s, In x l -> emitsAtMost (body x s) (c * size x)) ->
  forall s, emitsAtMost (foldRange body l s) (c * list_sum (List.map size l)).
Proof.
  induction l as [|x l IH]; intros Hb s; simpl.
  - eapply atMost_weaken; [apply atMost_ret|lia].
  - eapply atMost_weaken;
      [apply atMost_bind;
       [apply Hb; by left|intros s'; apply IH; intros y s0 Hy; apply Hb; by right]|].
    lia.
Qed.

(** A sequence, with the share of each part of the bound given. *)
Ltac atMost_seq b1 b2 :=
  apply (atMost_weaken _ (b1 + b2)); [apply atMost_bind; [|intros ?]|try lia].

(** One construct of the program at a time, towards a bound that is
    known. *)
Ltac atMost_step :=
  match goal with
  | |- emitsAtMost (bind (lift (getField ?n _)) _) _ =>
      let o := fresh "o" in let Ho := fresh "Ho" in
      apply atMost_getField; intros o Ho;
      destruct o as [?|]; [specialize (Ho _ eq_refl); apply size_child in Ho|clear Ho]
  | |- emitsAtMost (ret _) _ => apply (atMost_weaken _ 0); [apply atMost_ret|lia]
  | |- emitsAtMost skip _ => apply (atMost_weaken _ 0); [apply atMost_ret|lia]
  | |- emitsAtMost (add _ _) _ => apply (atMost_weaken _ 1); [apply atMost_add|lia]
  | |- emitsAtMost (Rev1.addRequired _) _ =>
      apply (atMost_weaken _ 1); [apply atMost_add|lia]
  | |- emitsAtMost (Rev2.addRequiredNoLine _) _ =>
      apply (atMost_weaken _ 1); [apply atMost_add|lia]
  | |- emitsAtMost (Rev2.addRequiredAt _ _) _ =>
      apply (atMost_weaken _ 1); [apply atMost_add|lia]
  | |- emitsAtMost (add _ _ >> ret _) _ =>
      apply (atMost_weaken _ (1 + 0));
      [apply atMost_bind; [apply atMost_add|intros ?; apply atMost_ret]|lia]
  | |- emitsAtMost (if ?b then _ else _) _ => destruct b
  | |- emitsAtMost (match ?x with _ => _ end) _ => destruct x
  end.

Ltac atMost_auto := repeat atMost_step.

(** ** First revision *)

Lemma atMost_validateResKV_1 n prefix : emitsAtMost (Rev1.validateResKV n prefix) (size n).
Proof.
  pose proof (size_pos n). pose proof (size_content n).
  unfold Rev1.validateResKV. destruct (negb (isMapping n)); [atMost_auto|].
  eapply atMost_weaken; [apply (atMost_forPairs _ _ 1)|lia].
  intros k v. unfold Rev1.resKVBody. atMost_auto.
Qed.

Lemma atMost_validateResources_1 n : emitsAtMost (Rev1.validateResources n) (2 * size n).
Proof.
  pose proof (size_pos n).
  unfold Rev1.validateResources. destruct (negb (isMapping n)); [atMost_auto|].
  atMost_seq (size n) (size n); atMost_auto.
  all: eapply atMost_weaken; [apply atMost_validateResKV_1|lia].
Qed.

Lemma atMost_validateProbe_1 n prefix : emitsAtMost (Rev1.validateProbe n prefix) 2.
Proof.
  unfold Rev1.validateProbe. destruct (negb (isMapping n)); [atMost_auto|].
  atMost_step; [|atMost_auto].
  destruct (negb (isMapping n0)); [atMost_auto|].
  atMost_seq 1%nat 1%nat; atMost_auto.
Qed.

Lemma atMost_validateContainerPort_1 n : emitsAtMost (Rev1.validateContainerPort n) 2.
Proof.
  unfold Rev1.validateContainerPort, Rev1.portContainerPort, Rev1.portProtocol.
  atMost_seq 1%nat 1%nat; atMost_auto.
Qed.

Lemma atMost_containerName_1 item seen : emitsAtMost (Rev1.containerName item seen) 1.
Proof.
  unfold Rev1.containerName. atMost_step.
  - repeat (destruct (_ : bool); [atMost_seq 1%nat 0%nat; atMost_auto|]).
    cbv zeta. atMost_seq 1%nat 0%nat; atMost_auto.
  - atMost_seq 1%nat 0%nat; atMost_auto.
Qed.

Lemma atMost_containerFields_1 item :
  emitsAtMost (Rev1.containerFields item) (9 * size item).
Proof.
  pose proof (size_pos item).
  unfold Rev1.containerFields.
  atMost_seq 1%nat (2 * size item + (2 + (2 + 2 * size item)))%nat;
    [unfold Rev1.containerImage; atMost_auto|].
  atMost_seq (2 * size item)%nat (2 + (2 + 2 * size item))%nat.
  { unfold Rev1.containerPorts. atMost_step; [|atMost_auto].
    destruct (negb (isSequence n)); [atMost_auto|].
    eapply atMost_weaken; [apply (atMost_forRange _ _ 2)|].
    - intros pn _. pose proof (size_pos pn). unfold Rev1.portsItem.
      destruct (negb (isMapping pn)); [atMost_auto|].
      eapply atMost_weaken; [apply atMost_validateContainerPort_1|lia].
    - rewrite (size_unfold n) in Ho. lia. }
  atMost_seq 2%nat (2 + 2 * size item)%nat.
  { unfold Rev1.containerProbe. atMost_step; [|atMost_auto].
    apply atMost_validateProbe_1. }
  atMost_seq 2%nat (2 * size item)%nat.
  { unfold Rev1.containerProbe. atMost_step; [|atMost_auto].
    apply atMost_validateProbe_1. }
  unfold Rev1.containerResources. atMost_step; [|atMost_auto].
  eapply atMost_weaken; [apply atMost_validateResources_1|lia].
Qed.

Lemma atMost_containersItem_1 item seen :
  emitsAtMost (Rev1.containersItem item seen) (10 * size item).
Proof.
  pose proof (size_pos item).
  unfold Rev1.containersItem. destruct (negb (isMapping item)).
  { atMost_seq 1%nat 0%nat; atMost_auto. }
  unfold Rev1.containerBody.
  atMost_seq 1%nat (9 * size item + 0)%nat; [apply atMost_containerName_1|].
  atMost_seq (9 * size item)%nat 0%nat; [apply atMost_containerFields_1|atMost_auto].
Qed.

Lemma atMost_validatePodSpec_1 n : emitsAtMost (Rev1.validatePodSpec n) (11 * size n).
Proof.
  pose proof (size_pos n).
  unfold Rev1.validatePodSpec.
  atMost_seq 1%nat (10 * size n)%nat.
  { unfold Rev1.specOs. atMost_step; [|atMost_auto].
    destruct (Kind n0); atMost_auto. }
  unfold Rev1.specContainers. atMost_step; [|atMost_auto].
  destruct (negb (isSequence n0)); [atMost_auto|].
  atMost_seq 1%nat (10 * (size n0 - 1) + 0)%nat; [atMost_auto|].
  atMost_seq (10 * (size n0 - 1))%nat 0%nat; [|atMost_auto].
  eapply atMost_weaken; [apply (atMost_foldRange _ _ 10)|].
  - intros item s _. apply atMost_containersItem_1.
  - rewrite (size_unfold n0). lia.
Qed.

Lemma atMost_validateObjectMeta_1 n : emitsAtMost (Rev1.validateObjectMeta n) (4 * size n).
Proof.
  pose proof (size_pos n).
  unfold Rev1.validateObjectMeta.
  atMost_seq 1%nat (1 + 2 * size n)%nat; [unfold Rev1.metaName; atMost_auto|].
  atMost_seq 1%nat (2 * size n)%nat; [unfold Rev1.metaNamespace; atMost_auto|].
  unfold Rev1.metaLabels. atMost_step; [|atMost_auto].
  destruct (negb (isMapping n0)); [atMost_auto|].
  pose proof (size_content n0).
  eapply atMost_weaken; [apply (atMost_forPairs _ _ 2)|lia].
  intros k v. unfold Rev1.labelsBody. atMost_seq 1%nat 1%nat; atMost_auto.
Qed.

Lemma atMost_validatePod_1 filename doc :
  emitsAtMost (Rev1.validatePod filename doc) (17 * size doc).
Proof.
  pose proof (size_pos doc).
  unfold Rev1.validatePod.
  atMost_seq 1%nat (1 + (4 * size doc + 11 * size doc))%nat;
    [unfold Rev1.podApiVersion; atMost_auto|].
  atMost_seq 1%nat (4 * size doc + 11 * size doc)%nat;
    [unfold Rev1.podKind; atMost_auto|].
  atMost_seq (4 * size doc)%nat (11 * size doc)%nat.
  - unfold Rev1.podMetadata. atMost_step; [|atMost_auto].
    destruct (negb (isMapping n)); [atMost_auto|].
    eapply atMost_weaken; [apply atMost_validateObjectMeta_1|lia].
  - unfold Rev1.podSpec. atMost_step; [|atMost_auto].
    destruct (negb (isMapping n)); [atMost_auto|].
    eapply atMost_weaken; [apply atMost_validatePodSpec_1|lia].
Qed.

Lemma atMost_mainLoop_1 abs docs :
  emitsAtMost (Rev1.mainLoop abs docs) (17 * list_sum (List.map size docs)).
Proof.
  unfold Rev1.mainLoop. apply atMost_forRange. intros doc _.
  pose proof (size_pos doc). unfold Rev1.mainDocument.
  destruct (negb (isMapping doc)); [atMost_auto|apply atMost_validatePod_1].
Qed.

(** ** Second revision *)

Lemma atMost_validateResKV_2 n prefix : emitsAtMost (Rev2.validateResKV n prefix) (size n).
Proof.
  pose proof (size_pos n). pose proof (size_content n).
  unfold Rev2.validateResKV. destruct (negb (isMapping n)); [atMost_auto|].
  eapply atMost_weaken; [apply (atMost_forPairs _ _ 1)|lia].
  intros k v. unfold Rev2.resKVBody. atMost_auto.
Qed.

Lemma atMost_validateResources_2 n : emitsAtMost (Rev2.validateResources n) (2 * size n).
Proof.
  pose proof (size_pos n).
  unfold Rev2.validateResources. destruct (negb (isMapping n)); [atMost_auto|].
  atMost_seq (size n) (size n); atMost_auto.
  all: eapply atMost_weaken; [apply atMost_validateResKV_2|lia].
Qed.

Lemma atMost_validateProbe_2 n prefix : emitsAtMost (Rev2.validateProbe n prefix) 2.
Proof.
  unfold Rev2.validateProbe. destruct (negb (isMapping n)); [atMost_auto|].
  atMost_step; [|atMost_auto].
  destruct (negb (isMapping n0)); [atMost_auto|].
  atMost_seq 1%nat 1%nat; atMost_auto.
Qed.

Lemma atMost_validateContainerPort_2 n : emitsAtMost (Rev2.validateContainerPort n) 2.
Proof.
  unfold Rev2.validateContainerPort, Rev2.portContainerPort, Rev2.portProtocol.
  atMost_seq 1%nat 1%nat; atMost_auto.
Qed.

Lemma atMost_containerName_2 item seen : emitsAtMost (Rev2.containerName item seen) 1.
Proof.
  unfold Rev2.containerName. atMost_step.
  - repeat (destruct (_ : bool); [atMost_seq 1%nat 0%nat; atMost_auto|]).
    cbv zeta. atMost_seq 1%nat 0%nat; atMost_auto.
  - atMost_seq 1%nat 0%nat; atMost_auto.
Qed.

Lemma atMost_containerFields_2 item :
  emitsAtMost (Rev2.containerFields item) (9 * size item).
Proof.
  pose proof (size_pos item).
  unfold Rev2.containerFields.
  atMost_seq 1%nat (2 * size item + (2 + (2 + 2 * size item)))%nat;
    [unfold Rev2.containerImage; atMost_auto|].
  atMost_seq (2 * size item)%nat (2 + (2 + 2 * size item))%nat.
  { unfold Rev2.containerPorts. atMost_step; [|atMost_auto].
    destruct (negb (isSequence n)); [atMost_auto|].
    eapply atMost_weaken; [apply (atMost_forRange _ _ 2)|].
    - intros pn _. pose proof (size_pos pn). unfold Rev2.portsItem.
      destruct (negb (isMapping pn)); [atMost_auto|].
      eapply atMost_weaken; [apply atMost_validateContainerPort_2|lia].
    - rewrite (size_unfold n) in Ho. lia. }
  atMost_seq 2%nat (2 + 2 * size item)%nat.
  { unfold Rev2.containerProbe. atMost_step; [|atMost_auto].
    apply atMost_validateProbe_2. }
  atMost_seq 2%nat (2 * size item)%nat.
  { unfold Rev2.containerProbe. atMost_step; [|atMost_auto].
    apply atMost_validateProbe_2. }
  unfold Rev2.containerResources. atMost_step; [|atMost_auto].
  eapply atMost_weaken; [apply atMost_validateResources_2|lia].
Qed.

Lemma atMost_containersItem_2 item seen :
  emitsAtMost (Rev2.containersItem item seen) (10 * size item).
Proof.
  pose proof (size_pos item).
  unfold Rev2.containersItem. destruct (negb (isMapping item)).
  { atMost_seq 1%nat 0%nat; atMost_auto. }
  unfold Rev2.validateContainer.
  atMost_seq 1%nat (9 * size item + 0)%nat; [apply atMost_containerName_2|].
  atMost_seq (9 * size item)%nat 0%nat; [apply atMost_containerFields_2|atMost_auto].
Qed.

Lemma atMost_validatePodSpec_2 n : emitsAtMost (Rev2.validatePodSpec n) (11 * size n).
Proof.
  pose proof (size_pos n).
  unfold Rev2.validatePodSpec.
  atMost_seq 1%nat (10 * size n)%nat.
  { unfold Rev2.specOs. atMost_step; [|atMost_auto].
    destruct (Kind n0); atMost_auto. }
  unfold Rev2.specContainers. atMost_step; [|atMost_auto].
  destruct (negb (isSequence n0)); [atMost_auto|].
  atMost_seq 1%nat (10 * (size n0 - 1) + 0)%nat; [atMost_auto|].
  atMost_seq (10 * (size n0 - 1))%nat 0%nat; [|atMost_auto].
  eapply atMost_weaken; [apply (atMost_foldRange _ _ 10)|].
  - intros item s _. apply atMost_containersItem_2.
  - rewrite (size_unfold n0). lia.
Qed.

Lemma atMost_validateObjectMeta_2 n : emitsAtMost (Rev2.validateObjectMeta n) (4 * size n).
Proof.
  pose proof (size_pos n).
  unfold Rev2.validateObjectMeta.
  atMost_seq 1%nat (1 + 2 * size n)%nat; [unfold Rev2.metaName; atMost_auto|].
  atMost_seq 1%nat (2 * size n)%nat; [unfold Rev2.metaNamespace; atMost_auto|].
  unfold Rev2.metaLabels. atMost_step; [|atMost_auto].
  destruct (negb (isMapping n0)); [atMost_auto|].
  pose proof (size_content n0).
  eapply atMost_weaken; [apply (atMost_forPairs _ _ 2)|lia].
  intros k v. unfold Rev2.labelsBody. atMost_seq 1%nat 1%nat; atMost_auto.
Qed.

Lemma atMost_validatePod_2 doc : emitsAtMost (Rev2.validatePod doc) (17 * size doc).
Proof.
  pose proof (size_pos doc).
  unfold Rev2.validatePod.
  atMost_seq 1%nat (1 + (4 * size doc + 11 * size doc))%nat;
    [unfold Rev2.podApiVersion; atMost_auto|].
  atMost_seq 1%nat (4 * size doc + 11 * size doc)%nat;
    [unfold Rev2.podKind; atMost_auto|].
  atMost_seq (4 * size doc)%nat (11 * size doc)%nat.
  - unfold Rev2.podMetadata. atMost_step; [|atMost_auto].
    destruct (negb (isMapping n)); [atMost_auto|].
    eapply atMost_weaken; [apply atMost_validateObjectMeta_2|lia].
  - unfold Rev2.podSpec. atMost_step; [|atMost_auto].
    destruct (negb (isMapping n)); [atMost_auto|].
    eapply atMost_weaken; [apply atMost_validatePodSpec_2|lia].
Qed.

Lemma atMost_mainLoop_2 docs :
  emitsAtMost (Rev2.mainLoop docs) (17 * list_sum (List.map size docs)).
Proof.
  unfold Rev2.mainLoop. apply atMost_forRange. intros doc _.
  pose proof (size_pos doc). unfold Rev2.mainDocument.
  destruct (negb (isMapping doc)); [atMost_auto|apply atMost_validatePod_2].
Qed.

(** * Termination *)

Lemma safe_atMost_run (m : M unit) b rep :
  safe m -> emitsAtMost m b ->
  exists rep', m rep = Ok (tt, rep')
               /\ (length (errs rep') <= length (errs rep) + b)%nat.
Proof.
  intros Hs Hb. destruct (Hs rep) as ([] & rep' & Hrun).
  exists rep'. split; [done|]. by apply (Hb _ _ _ Hrun).
Qed.

(** C8: on every well-formed tree (the content of every mapping has
    even length, as the parser builds it) [validatePod] returns: it does
    not panic, and the model has no other way not to return, all its
    loops running down the content of one node.  What it appends is
    bounded by the size of the tree: at most seventeen diagnostics per
    node.  The same holds for the loop of [main] over any list of
    well-formed documents.  Both revisions. *)
Theorem validatePod_terminates (doc : Node) (rep : reporter) :
  wf doc = true ->
  (forall filename,
     exists rep', Rev1.validatePod filename doc rep = Ok (tt, rep')
                  /\ (length (errs rep') <= length (errs rep) + 17 * size doc)%nat)
  /\ (exists rep', Rev2.validatePod doc rep = Ok (tt, rep')
                   /\ (length (errs rep') <= length (errs rep) + 17 * size doc)%nat)
  /\ (forall docs abs, Forall (fun d => wf d = true) docs ->
        exists rep', Rev1.mainLoop abs docs rep = Ok (tt, rep')
                     /\ (length (errs rep')
                         <= length (errs rep) + 17 * list_sum (List.map size docs))%nat)
  /\ (forall docs, Forall (fun d => wf d = true) docs ->
        exists rep', Rev2.mainLoop docs rep = Ok (tt, rep')
                     /\ (length (errs rep')
                         <= length (errs rep) + 17 * list_sum (List.map size docs))%nat).
Proof.
  intros Hwf. split; [|split; [|split]].
  - intros filename. apply safe_atMost_run;
      [by apply safe_validatePod_1 | apply atMost_validatePod_1].
  - apply safe_atMost_run; [by apply safe_validatePod_2 | apply atMost_validatePod_2].
  - intros docs abs Hdocs. apply safe_atMost_run; [|apply atMost_mainLoop_1].
    apply safe_forRange. intros d Hd. apply safe_mainDocument_1.
    rewrite Forall_forall in Hdocs. by apply Hdocs, list_elem_of_In.
  - intros docs Hdocs. apply safe_atMost_run; [|apply atMost_mainLoop_2].
    apply safe_forRange. intros d Hd. apply safe_mainDocument_2.
    rewrite Forall_forall in Hdocs. by apply Hdocs, list_elem_of_In.
Qed.

Lemma validatePod_terminates_witness :
  exists rep',
    Rev2.validatePod (pod "app" [ container "web" 7; container "web" 10 ])
      (emptyReporter "pod.yaml") = Ok (tt, rep')
    /\ (length (errs rep') <= 459)%nat.
Proof.
  destruct (validatePod_terminates (pod "app" [ container "web" 7; container "web" 10 ])
              (emptyReporter "pod.yaml") eq_refl) as (_ & H & _).
  exact H.
Defined.

(** The hypothesis is needed: on a mapping whose content has odd length
    the Go program reads past the end of the slice, and panics. *)
Lemma odd_mapping_panics :
  wf (mapping 1 [ str "kind" 1 ]) = false
  /\ Rev1.validatePod "pod.yaml" (mapping 1 [ str "kind" 1 ]) (emptyReporter "pod.yaml") = Panic
  /\ Rev2.validatePod (mapping 1 [ str "kind" 1 ]) (emptyReporter "pod.yaml") = Panic.
Proof. by vm_compute. Qed.

(** * The examples of the specification *)

(** The minimal valid document has no diagnostic, in both revisions. *)
Lemma minimal_document :
  Rev1.mainLoop "/srv/pod.yaml" [ pod "app" [ container "web" 7 ] ] (emptyReporter "pod.yaml")
  = Ok (tt, emptyReporter "pod.yaml")
  /\ Rev2.mainLoop [ pod "app" [ container "web" 7 ] ] (emptyReporter "pod.yaml")
     = Ok (tt, emptyReporter "pod.yaml")
  /\ hasErrors (emptyReporter "pod.yaml") = false.
Proof. by vm_compute. Qed.

(** [memory: 512Mi] passes, [memory: 512MB] does not; the string ["-1"]
    for [cpu] is an integer out of range, ["x"] is not an integer. *)
Lemma resources_examples :
  diags (Rev2.validateContainer
           (containerWithLimits [ str "memory" 11; str "512Mi" 11 ]) ∅) "pod.yaml" = []
  /\ diags (Rev2.validateContainer
              (containerWithLimits [ str "memory" 11; str "512MB" 11 ]) ∅) "pod.yaml"
     = [ mkErrOut "pod.yaml" 11 "resources.limits.memory has invalid format '512MB'" ]
  /\ diags (Rev2.validateContainer
              (containerWithLimits [ str "cpu" 11; str "-1" 11 ]) ∅) "pod.yaml"
     = [ mkErrOut "pod.yaml" 11 "cpu value out of range" ]
  /\ diags (Rev2.validateContainer
              (containerWithLimits [ str "cpu" 11; str "x" 11 ]) ∅) "pod.yaml"
     = [ mkErrOut "pod.yaml" 11 "cpu must be int" ].
Proof. by vm_compute. Qed.

(** [image: nginx] is reported with the value it has. *)
Lemma image_example :
  diags (Rev2.containerImage (mapping 7 [ str "image" 8; str "nginx" 8 ])) "pod.yaml"
  = [ mkErrOut "pod.yaml" 8 "image has invalid format 'nginx'" ].
Proof. by vm_compute. Qed.


(** * Field lookup *)

Lemma isKey_test key k :
  isScalar k && (Value k =? key)%string = true <-> isKey key k.
Proof.
  unfold isKey, isScalar. rewrite andb_true_iff, bool_decide_eq_true, String.eqb_eq. tauto.
Qed.

Lemma getFieldLoop_app pre rest key :
  Nat.even (length pre) = true ->
  Forall (fun k => ~ isKey key k) (keysOf pre) ->
  getFieldLoop (pre ++ rest) key = getFieldLoop rest key.
Proof.
  induction pre as [|k|k v pre IH] using pairs_ind; simpl; try done.
  intros Hev Hno. apply Forall_cons in Hno as [Hk Hno].
  destruct (isScalar k && (Value k =? key)%string) eqn:Ht.
  - by apply isKey_test in Ht.
  - by apply IH.
Qed.

Lemma getFieldLoop_found c key v :
  getFieldLoop c key = Ok (Some v) ->
  exists pre k post,
    c = pre ++ k :: v :: post
    /\ Nat.even (length pre) = true
    /\ isKey key k
    /\ Forall (fun k' => ~ isKey key k') (keysOf pre).
Proof.
  induction c as [|k|k w rest IH] using pairs_ind; simpl; try done.
  destruct (isScalar k && (Value k =? key)%string) eqn:Ht.
  - intros [= <-]. exists [], k, rest. apply isKey_test in Ht.
    split; [done|]. split; [done|]. split; [done|]. constructor.
  - intros (pre & k' & post & -> & Hev & Hk & Hno)%IH.
    exists (k :: w :: pre), k', post.
    split; [done|]. split; [done|]. split; [done|].
    simpl. apply Forall_cons. split; [|done].
    intros Hkey%isKey_test. congruence.
Qed.

Lemma getFieldLoop_absent c key :
  Nat.even (length c) = true ->
  (getFieldLoop c key = Ok None <-> Forall (fun k => ~ isKey key k) (keysOf c)).
Proof.
  induction c as [|k|k w rest IH] using pairs_ind; simpl; try done.
  intros Hev. destruct (isScalar k && (Value k =? key)%string) eqn:Ht.
  - apply isKey_test in Ht. split; [done|]. by intros [? _]%Forall_cons.
  - rewrite (IH Hev). rewrite Forall_cons. split; [|tauto].
    intros H. split; [|done]. intros Hk%isKey_test. congruence.
Qed.

(** X1: [getField] finds a value exactly when the content of the
    mapping splits into an even number of nodes none of whose keys is
    the field, then a scalar key whose value is the name of the field,
    then the value: the first pair for the field wins, whatever follows
    it, be it another pair for the same field or a key without a
    value. *)
Theorem getField_first_match (obj v : Node) (key : string) :
  getField obj key = Ok (Some v) <->
  Kind obj = MappingNode
  /\ exists pre k post,
       Content obj = pre ++ k :: v :: post
       /\ Nat.even (length pre) = true
       /\ isKey key k
       /\ Forall (fun k' => ~ isKey key k') (keysOf pre).
Proof.
  unfold getField, isMapping. split.
  - destruct (bool_decide (Kind obj = MappingNode)) eqn:Hm; simpl; [|done].
    apply bool_decide_eq_true in Hm. intros H%getFieldLoop_found. by split.
  - intros [Hm (pre & k & post & -> & Hev & Hk & Hno)].
    rewrite (bool_decide_eq_true_2 _ Hm). simpl.
    rewrite (getFieldLoop_app _ _ _ Hev Hno). simpl.
    apply isKey_test in Hk. by rewrite Hk.
Qed.

(** X2: on a node that is not a mapping [getField] finds nothing; on a
    mapping whose content has even length it never panics, and it finds
    nothing exactly when no key is a scalar whose value is the name of
    the field (a key of another kind with that text does not count). *)
Theorem getField_absent (obj : Node) (key : string) :
  (Kind obj <> MappingNode -> getField obj key = Ok None)
  /\ (Kind obj = MappingNode -> Nat.even (length (Content obj)) = true ->
      getField obj key <> Panic
      /\ (getField obj key = Ok None
          <-> Forall (fun k => ~ isKey key k) (keysOf (Content obj)))).
Proof.
  unfold getField, isMapping. split.
  - intros Hk. by rewrite (bool_decide_eq_false_2 _ Hk).
  - intros Hk Hev. rewrite (bool_decide_eq_true_2 _ Hk). simpl. split.
    + by destruct (getFieldLoop_even _ key Hev) as (o & -> & _).
    + by apply getFieldLoop_absent.
Qed.


Lemma getField_first_match_witness : getField twoKinds "kind" = Ok (Some (str "Pod" 2)).
Proof.
  apply getField_first_match. split; [reflexivity|].
  exists [ str "apiVersion" 1; str "v1" 1 ], (str "kind" 2),
    [ str "kind" 3; str "Job" 3; str "spec" 4 ].
  split; [reflexivity|]. split; [reflexivity|]. split; [by split|].
  constructor; [|constructor].
  intros [_ H]. discriminate H.
Defined.

Lemma getField_absent_witness :
  getField (str "v1" 1) "kind" = Ok None
  /\ getField (container "web" 7) "ports" = Ok None.
Proof.
  split.
  - destruct (getField_absent (str "v1" 1) "kind") as [H _]. apply H. discriminate.
  - destruct (getField_absent (container "web" 7) "ports") as [_ H].
    destruct (H eq_refl eq_refl) as [_ Hn]. apply Hn.
    repeat (constructor; [intros [_ Hv]; discriminate Hv|]). constructor.
Defined.


(** * Strings and their bytes *)

Lemma list_ascii_app (a b : string) :
  list_ascii_of_string (a +:+ b) = list_ascii_of_string a ++ list_ascii_of_string b.
Proof. induction a as [|c a IH]; simpl; [done|]. by rewrite IH. Qed.

Lemma bytesOf_app (a b : string) : bytesOf (a +:+ b) = bytesOf a ++ bytesOf b.
Proof. unfold bytesOf. by rewrite list_ascii_app, List.map_app. Qed.

Lemma ofBytes_bytesOf (s : string) : ofBytes (bytesOf s) = s.
Proof.
  unfold ofBytes, bytesOf. rewrite List.map_map.
  rewrite (List.map_ext _ id), List.map_id; [apply string_of_list_ascii_of_string|].
  intros c. apply ascii_N_embedding.
Qed.

Lemma bytesOf_inj (a b : string) : bytesOf a = bytesOf b -> a = b.
Proof. intros H. by rewrite <- (ofBytes_bytesOf a), <- (ofBytes_bytesOf b), H. Qed.

Lemma bytesOf_nil (s : string) : bytesOf s = [] <-> s = "".
Proof. destruct s; simpl; split; done. Qed.

Lemma N_of_ascii_eq (c : ascii) (n : N) :
  (n < 256)%N -> N_of_ascii c = n <-> c = ascii_of_N n.
Proof.
  intros Hn. split.
  - intros <-. by rewrite ascii_N_embedding.
  - intros ->. by apply N_ascii_embedding.
Qed.

(** A list of bytes that is the image of a text and splits around one
    byte comes from a text that splits around one character. *)
Lemma bytesOf_split (s : string) (a b : list N) (n : N) :
  (n < 256)%N ->
  bytesOf s = a ++ n :: b ->
  exists sa sb, s = sa +:+ String (ascii_of_N n) sb /\ bytesOf sa = a /\ bytesOf sb = b.
Proof.
  intros Hn. revert a. induction s as [|c s IH]; intros a.
  - by destruct a.
  - destruct a as [|x a]; simpl.
    + intros [= Hc Hs]. exists "", s. apply (N_of_ascii_eq _ _ Hn) in Hc. by subst.
    + intros [= Hc Hs]. destruct (IH a Hs) as (sa & sb & -> & Ha & Hb).
      exists (String c sa), sb. simpl. split; [done|]. split; [|done].
      unfold bytesOf in *. simpl. by rewrite Hc, Ha.
Qed.

Lemma noNewline_bytes (s : string) :
  forallb notNewline (bytesOf s) = true <-> noNewline s.
Proof.
  unfold noNewline, bytesOf. induction s as [|c s IH]; simpl.
  - split; [by intros _ []|done].
  - rewrite andb_true_iff, IH. unfold notNewline.
    rewrite negb_true_iff, N.eqb_neq.
    assert (N_of_ascii c = 10%N <-> c = "010"%char) as ->.
    { apply (N_of_ascii_eq c 10). lia. }
    tauto.
Qed.

Lemma noNewline_app (a b : string) : noNewline (a +:+ b) <-> noNewline a /\ noNewline b.
Proof. unfold noNewline. rewrite list_ascii_app, in_app_iff. tauto. Qed.

(** * The three patterns *)

Lemma append_cons (c : ascii) (a b : string) : String c a +:+ b = String c (a +:+ b).
Proof. reflexivity. Qed.

Lemma substring_all (s : string) : String.substring 0 (String.length s) s = s.
Proof. induction s as [|c s IH]; simpl; [done|]. by rewrite IH. Qed.

Lemma prefix_split (p s : string) :
  String.prefix p s = true <->
  s = p +:+ String.substring (String.length p) (String.length s - String.length p) s.
Proof.
  revert s. induction p as [|a p IH]; intros s; simpl.
  - rewrite Nat.sub_0_r, substring_all. split; [done|by destruct s].
  - destruct s as [|b s]; simpl; [done|].
    destruct (ascii_dec a b) as [->|Hab].
    + rewrite IH, append_cons. split; [intros H; by f_equal|by intros [= H]].
    + split; [done|]. by intros [= ? _].
Qed.

Lemma prefix_app (p r : string) :
  String.prefix p (p +:+ r) = true
  /\ String.substring (String.length p) (String.length (p +:+ r) - String.length p) (p +:+ r) = r.
Proof.
  assert (String.prefix p (p +:+ r) = true) as Hp.
  { induction p as [|a p IH]; simpl; [by destruct r|].
    by destruct (ascii_dec a a). }
  split; [done|]. apply prefix_split in Hp.
  by apply (inj (String.append p)) in Hp.
Qed.

Lemma colonInside_spec (l : list N) :
  colonInside l = true <-> exists a b, l = a ++ 58%N :: b /\ b <> [].
Proof.
  induction l as [|c r IH]; simpl.
  - split; [done|]. intros (a & b & H & _). by destruct a.
  - destruct r as [|d r'].
    + split; [done|]. intros (a & b & H & Hb).
      destruct a as [|? [|? ?]]; simplify_eq/=.
    + rewrite orb_true_iff, IH, N.eqb_eq. split.
      * intros [->|(a & b & -> & Hb)].
        -- by exists [], (d :: r').
        -- by exists (c :: a), b.
      * intros (a & b & H & Hb). destruct a as [|x a]; simplify_eq/=.
        -- by left.
        -- right. by exists a, b.
Qed.

Lemma dotPlusColonDotPlus_spec (l : list N) :
  dotPlusColonDotPlus l = true <->
  forallb notNewline l = true
  /\ exists a b, l = a ++ 58%N :: b /\ a <> [] /\ b <> [].
Proof.
  unfold dotPlusColonDotPlus. destruct l as [|c r].
  - split; [done|]. intros (_ & a & b & H & _). by destruct a.
  - rewrite andb_true_iff, colonInside_spec. split.
    + intros (Hn & a & b & -> & Hb). split; [done|]. by exists (c :: a), b.
    + intros (Hn & a & b & H & Ha & Hb). split; [done|].
      destruct a as [|x a]; [done|]. simplify_eq/=. by exists a, b.
Qed.

(** X3: the image pattern accepts exactly the texts made of the
    registry prefix, a path, a colon and a tag, where path and tag are
    not empty and hold no newline. *)
Theorem reImage_spec (s : string) :
  reImage s = true <->
  exists path tag,
    s = "registry.bigbrother.io/" +:+ path +:+ ":" +:+ tag
    /\ path <> "" /\ tag <> ""
    /\ noNewline path /\ noNewline tag.
Proof.
  unfold reImage. cbv zeta. rewrite andb_true_iff, dotPlusColonDotPlus_spec. split.
  - intros (Hp & Hn & a & b & Hsplit & Ha & Hb).
    apply prefix_split in Hp.
    set (rest := String.substring _ _ s) in *.
    apply (bytesOf_split rest a b 58 ltac:(lia)) in Hsplit as (path & tag & Hrest & <- & <-).
    exists path, tag. split; [by rewrite Hp, Hrest|].
    split; [by intros ->|]. split; [by intros ->|].
    apply noNewline_bytes in Hn. rewrite Hrest in Hn.
    apply noNewline_app in Hn as [H1 H2]. split; [done|].
    by apply (noNewline_app ":" tag) in H2 as [_ H2].
  - intros (path & tag & -> & Hpath & Htag & Hn1 & Hn2).
    destruct (prefix_app "registry.bigbrother.io/" (path +:+ ":" +:+ tag)) as [Hp ->].
    split; [done|]. split.
    + apply noNewline_bytes, noNewline_app. split; [done|].
      apply (noNewline_app ":" tag). split; [|done]. intros [H|[]]. discriminate H.
    + exists (bytesOf path), (bytesOf tag). rewrite bytesOf_app.
      split; [done|]. by rewrite !bytesOf_nil.
Qed.

Lemma memTail_spec (l : list N) (seen : bool) :
  memTail l seen = true <->
  exists ds u,
    l = ds ++ u /\ forallb isDigit ds = true /\ (seen = true \/ ds <> [])
    /\ (u = [71; 105] \/ u = [77; 105] \/ u = [75; 105])%N.
Proof.
  revert seen. induction l as [|c r IH]; intros seen; simpl.
  - split; [done|]. intros (ds & u & H & _ & _ & Hu).
    destruct ds; simpl in H; [|done]. subst u. by destruct Hu as [|[|]].
  - destruct (isDigit c) eqn:Hc.
    + rewrite IH. split.
      * intros (ds & u & -> & Hd & _ & Hu). exists (c :: ds), u.
        simpl. rewrite Hc, Hd. repeat split; try done. by right.
      * intros (ds & u & H & Hd & Hs & Hu). destruct ds as [|d ds]; simpl in *.
        -- subst u. exfalso. destruct Hu as [|[|]]; simplify_eq/=.
        -- simplify_eq/=. apply andb_prop in Hd as [_ Hd].
           exists ds, u. repeat split; try done. by left.
    + rewrite andb_true_iff. split.
      * intros (-> & Hr). destruct r as [|i [|? ?]]; try done.
        apply andb_prop in Hr as [Hu Hi]. apply N.eqb_eq in Hi. subst i.
        exists [], [c; 105%N]. repeat split; try done; [by left|].
        apply orb_prop in Hu as [Hu|Hu]; [apply orb_prop in Hu as [Hu|Hu]|];
          apply N.eqb_eq in Hu; subst c; auto.
      * intros (ds & u & H & Hd & Hs & Hu). destruct ds as [|d ds]; simpl in *.
        -- subst u. destruct Hs as [->|?]; [|done].
           split; [done|]. by destruct Hu as [|[|]]; simplify_eq/=.
        -- simplify_eq/=. apply andb_prop in Hd as [Hd _]. congruence.
Qed.

(** X4: the memory pattern accepts exactly one or more decimal digits
    followed by one of the three units [Gi], [Mi], [Ki]. *)
Theorem reMem_spec (s : string) :
  reMem s = true <->
  exists digits unit,
    s = digits +:+ unit
    /\ onlyDigits digits = true
    /\ (unit = "Gi" \/ unit = "Mi" \/ unit = "Ki").
Proof.
  unfold reMem. rewrite memTail_spec. split.
  - intros (ds & u & Hl & Hd & [?|Hne] & Hu); [done|].
    exists (ofBytes ds), (ofBytes u).
    assert (bytesOf (ofBytes ds +:+ ofBytes u) = bytesOf s) as Hs.
    { rewrite Hl. clear Hl. rewrite bytesOf_app. f_equal.
      - unfold bytesOf, ofBytes. rewrite list_ascii_of_string_of_list_ascii, List.map_map.
        rewrite <- (List.map_id ds) at 2. apply List.map_ext_in. intros x Hx.
        apply N_ascii_embedding. rewrite forallb_forall in Hd. specialize (Hd x Hx).
        unfold isDigit in Hd. apply andb_prop in Hd as [_ Hd%N.leb_le]. lia.
      - by destruct Hu as [->|[->| ->]]. }
    split; [by apply bytesOf_inj in Hs|]. split.
    + unfold onlyDigits.
      assert (bytesOf (ofBytes ds) = ds) as ->.
      { unfold bytesOf, ofBytes. rewrite list_ascii_of_string_of_list_ascii, List.map_map.
        rewrite <- (List.map_id ds) at 2. apply List.map_ext_in. intros x Hx.
        apply N_ascii_embedding. rewrite forallb_forall in Hd. specialize (Hd x Hx).
        unfold isDigit in Hd. apply andb_prop in Hd as [_ Hd%N.leb_le]. lia. }
      by destruct ds.
    + destruct Hu as [->|[->| ->]]; auto.
  - intros (digits & unit & -> & Hd & Hu). exists (bytesOf digits), (bytesOf unit).
    split; [apply bytesOf_app|]. unfold onlyDigits in Hd.
    destruct (bytesOf digits) as [|d ds] eqn:Hb; [done|].
    split; [done|]. split; [by right|].
    destruct Hu as [->|[->| ->]]; auto.
Qed.

(** * Snake-case names and trimming *)

Lemma snake_not_space (x : N) :
  isSnakeTail x = true ->
  asciiSpace x = false
  /\ (forall d, space2 x d = false)
  /\ (forall d e, space3 x d e = false)
  /\ x <> 194%N /\ x <> 225%N /\ x <> 226%N /\ x <> 227%N.
Proof.
  unfold isSnakeTail, isLower, isDigit, asciiSpace, space2, space3. intros H.
  assert ((97 <= x <= 122) \/ (48 <= x <= 57) \/ x = 95)%N as Hx.
  { apply orb_prop in H as [H|H]; [apply orb_prop in H as [H|H]|].
    - apply andb_prop in H as [?%N.leb_le ?%N.leb_le]. lia.
    - apply andb_prop in H as [?%N.leb_le ?%N.leb_le]. lia.
    - apply N.eqb_eq in H. lia. }
  assert ((x =? 194) = false /\ (x =? 225) = false /\ (x =? 226) = false
          /\ (x =? 227) = false /\ (x =? 32) = false
          /\ (9 <=? x) && (x <=? 13) = false)%N as (E1 & E2 & E3 & E4 & E5 & E6).
  { repeat split; try (apply N.eqb_neq; lia).
    apply andb_false_iff. destruct (N.leb_spec x 13); [|by right].
    left. apply N.leb_gt. lia. }
  rewrite E5, E6. split; [done|]. split; [intros d; by rewrite E1|].
  split; [intros d e; by rewrite E2, E3, E4|]. lia.
Qed.

Lemma trimLeft_snake (c : N) (r : list N) :
  isSnakeTail c = true -> trimLeft (c :: r) = c :: r.
Proof.
  intros (Ha & H2 & H3 & _)%snake_not_space. simpl. rewrite Ha.
  destruct r as [|d [|e r3]]; [done|by rewrite H2|by rewrite H2, H3].
Qed.

Lemma trimLeftRev_snake (l : list N) :
  forallb isSnakeTail l = true -> trimLeftRev l = l.
Proof.
  destruct l as [|c r]; [done|]. simpl. intros [Hc Hr]%andb_prop.
  apply snake_not_space in Hc as (Ha & _). rewrite Ha.
  destruct r as [|d r2]; [done|]. simpl in Hr. apply andb_prop in Hr as [Hd Hr].
  apply snake_not_space in Hd as (_ & _ & _ & Hd194 & Hd1 & Hd2 & Hd3).
  assert (space2 d c = false) as ->.
  { unfold space2. by apply N.eqb_neq in Hd194 as ->. }
  destruct r2 as [|e r3]; [done|]. simpl in Hr. apply andb_prop in Hr as [He _].
  apply snake_not_space in He as (_ & _ & _ & _ & He1 & He2 & He3).
  assert (space3 e d c = false) as ->; [|done].
  unfold space3. apply N.eqb_neq in He1 as ->, He2 as ->, He3 as ->. done.
Qed.

Lemma isLower_snake (c : N) : isLower c = true -> isSnakeTail c = true.
Proof. unfold isSnakeTail. by intros ->. Qed.

Lemma forallb_rev {A} (f : A -> bool) (l : list A) : forallb f (rev l) = forallb f l.
Proof.
  induction l as [|x l IH]; simpl; [done|].
  rewrite forallb_app, IH. simpl. rewrite andb_true_r. apply andb_comm.
Qed.

Lemma TrimSpace_snake (v : string) : reSnake v = true -> TrimSpace v = v /\ v <> "".
Proof.
  unfold reSnake, TrimSpace. destruct (bytesOf v) as [|c r] eqn:Hb; [done|].
  intros [Hc%isLower_snake Hr]%andb_prop.
  rewrite (trimLeft_snake _ _ Hc). unfold trimRight.
  rewrite trimLeftRev_snake, rev_involutive.
  - rewrite <- Hb, ofBytes_bytesOf. split; [done|]. intros ->. discriminate Hb.
  - rewrite forallb_rev. simpl. by rewrite Hc, Hr.
Qed.

(** X5: a name in snake case is not changed by trimming and is not
    empty, so the two tests of the name block come down to the pattern
    alone; the two revisions therefore treat the name of a container
    alike, except when it is a string that is empty once trimmed. *)
Theorem snake_name_is_trimmed :
  (forall v, reSnake v = true -> TrimSpace v = v)
  /\ (forall v, validName v = reSnake v)
  /\ (forall item seen rep,
        (forall nm, getField item "name" = Ok (Some nm) -> notStr nm = false ->
                    TrimSpace (Value nm) <> "") ->
        Rev1.containerName item seen rep = Rev2.containerName item seen rep).
Proof.
  split; [by intros v [? _]%TrimSpace_snake|]. split.
  - intros v. unfold validName. destruct (reSnake v) eqn:Hs; [|by rewrite andb_false_r].
    apply TrimSpace_snake in Hs as [-> Hne]. apply String.eqb_neq in Hne. by rewrite Hne.
  - intros item seen rep Hne. unfold Rev1.containerName, Rev2.containerName, bind, lift.
    destruct (getField item "name") as [[nm|]|] eqn:Hf; try done.
    destruct (notStr nm) eqn:Hs; [done|].
    specialize (Hne nm eq_refl Hs). apply String.eqb_neq in Hne. by rewrite Hne.
Qed.

Lemma snake_name_is_trimmed_witness :
  TrimSpace "web_1" = "web_1"
  /\ Rev1.containerName (container "Web" 7) ∅ (emptyReporter "pod.yaml")
     = Rev2.containerName (container "Web" 7) ∅ (emptyReporter "pod.yaml").
Proof.
  destruct snake_name_is_trimmed as (H1 & _ & H3).
  split; [by apply H1|]. apply H3.
  intros nm [= <-] _. by vm_compute.
Defined.


(** * What [asInt] returns *)

Lemma notStr_false n : notStr n = false <-> isStr n.
Proof.
  unfold notStr, isStr, isScalar.
  rewrite orb_false_iff, !negb_false_iff, bool_decide_eq_true, String.eqb_eq. tauto.
Qed.

Lemma intLiteral_range s v : intLiteral s = Some v -> minInt <= v <= maxInt.
Proof.
  unfold intLiteral. destruct (literal s) as [w|]; [|done].
  destruct ((minInt <=? w) && (w <=? maxInt)) eqn:H; [|done].
  intros [= <-]. apply andb_prop in H as [?%Z.leb_le ?%Z.leb_le]. lia.
Qed.

Lemma asInt_coerces_1 n v l : Rev1.asInt n = (v, l, None) <-> l = Line n /\ coerces n v.
Proof.
  unfold Rev1.asInt, coerces. destruct (Kind n); try (split; [done|by intros (_ & ? & _)]).
  destruct (Tag n =? "!!int")%string eqn:Hi.
  - apply String.eqb_eq in Hi. rewrite Hi.
    destruct (Atoi (Value n)) as [w [e|]] eqn:Ha.
    + split; [done|]. intros (_ & _ & [[_ H]|[? _]]); [|done].
      apply Atoi_ok in H. congruence.
    + apply Atoi_ok in Ha. split.
      * intros [= <- <-]. split; [done|]. split; [done|]. by left.
      * intros (-> & _ & [[_ H]|[? _]]); [|done]. congruence.
  - apply String.eqb_neq in Hi. destruct (Tag n =? "!!str")%string eqn:Hs.
    + apply String.eqb_eq in Hs. rewrite Hs.
      destruct (Atoi (TrimSpace (Value n))) as [w [e|]] eqn:Ha.
      * split; [done|]. intros (_ & _ & [[? _]|[_ H]]); [done|].
        apply Atoi_ok in H. congruence.
      * apply Atoi_ok in Ha. split.
        -- intros [= <- <-]. split; [done|]. split; [done|]. by right.
        -- intros (-> & _ & [[? _]|[_ H]]); [done|]. congruence.
    + apply String.eqb_neq in Hs. split; [done|]. by intros (_ & _ & [[? _]|[? _]]).
Qed.

Lemma asInt_coerces_2 n v l : Rev2.asInt n = (v, l, None) <-> l = Line n /\ coerces n v.
Proof.
  unfold Rev2.asInt, coerces. destruct (Kind n); try (split; [done|by intros (_ & ? & _)]).
  destruct (Tag n =? "!!int")%string eqn:Hi.
  - apply String.eqb_eq in Hi. rewrite Hi.
    destruct (Atoi (Value n)) as [w [e|]] eqn:Ha.
    + split; [done|]. intros (_ & _ & [[_ H]|[? _]]); [|done].
      apply Atoi_ok in H. congruence.
    + apply Atoi_ok in Ha. split.
      * intros [= <- <-]. split; [done|]. split; [done|]. by left.
      * intros (-> & _ & [[_ H]|[? _]]); [|done]. congruence.
  - apply String.eqb_neq in Hi. destruct (Tag n =? "!!str")%string eqn:Hs.
    + apply String.eqb_eq in Hs. rewrite Hs.
      destruct (Atoi (TrimSpace (Value n))) as [w [e|]] eqn:Ha.
      * split; [done|]. intros (_ & _ & [[? _]|[_ H]]); [done|].
        apply Atoi_ok in H. congruence.
      * apply Atoi_ok in Ha. split.
        -- intros [= <- <-]. split; [done|]. split; [done|]. by right.
        -- intros (-> & _ & [[? _]|[_ H]]); [done|]. congruence.
    + apply String.eqb_neq in Hs. split; [done|]. by intros (_ & _ & [[? _]|[? _]]).
Qed.

Lemma coerces_fun n v w : coerces n v -> coerces n w -> v = w.
Proof.
  intros (_ & [[Hi Hv]|[Hs Hv]]) (_ & [[Hi' Hw]|[Hs' Hw]]); congruence.
Qed.

(** The two revisions of [asInt] return the same line and the same
    error, and the same value when there is no error. *)
Lemma asInt_agree n :
  snd (fst (Rev1.asInt n)) = snd (fst (Rev2.asInt n))
  /\ snd (Rev1.asInt n) = snd (Rev2.asInt n)
  /\ (snd (Rev1.asInt n) = None -> Rev1.asInt n = Rev2.asInt n).
Proof.
  rewrite asInt_line_1, asInt_line_2. split; [done|].
  unfold Rev1.asInt, Rev2.asInt. destruct (Kind n); try done.
  destruct (Tag n =? "!!int")%string; [|done].
  by destruct (Atoi (Value n)) as [w [e|]].
Qed.

(** X6: an integer that [asInt] returns without an error is the value
    of the scalar as an integer literal, lies within the 64 bits of an
    [int], and comes with the line of the node; a node that is not a
    scalar never coerces.  Both revisions. *)
Theorem asInt_value (n : Node) (v l : Z) :
  Rev1.asInt n = (v, l, None) \/ Rev2.asInt n = (v, l, None) ->
  coerces n v /\ l = Line n /\ - 2 ^ 63 <= v <= 2 ^ 63 - 1 /\ Kind n = ScalarNode
  /\ Rev1.asInt n = (v, l, None) /\ Rev2.asInt n = (v, l, None).
Proof.
  intros H.
  assert (l = Line n /\ coerces n v) as [-> Hc].
  { destruct H as [H|H]; [by apply asInt_coerces_1|by apply asInt_coerces_2]. }
  split; [done|]. split; [done|]. split.
  - destruct Hc as (_ & [[_ Hv]|[_ Hv]]); apply intLiteral_range in Hv;
      unfold minInt, maxInt in Hv; lia.
  - split; [by destruct Hc|]. split; [by apply asInt_coerces_1|by apply asInt_coerces_2].
Qed.

Lemma asInt_value_witness :
  coerces (str " -42 " 3) (-42) /\ Rev1.asInt (str " -42 " 3) = (-42, 3, None).
Proof.
  destruct (asInt_value (str " -42 " 3) (-42) 3) as (H1 & _ & _ & _ & H2 & _).
  - right. reflexivity.
  - by split.
Defined.

(** * Where the two revisions agree *)

(** The two sides differ in [asInt] alone: once its two results on the
    node [x] are known to agree, they are the same term. *)
Ltac asInt_agree_on x :=
  let Hl := fresh "Hl" in let He := fresh "He" in let Hv := fresh "Hv" in
  destruct (asInt_agree x) as (Hl & He & Hv);
  destruct (Rev1.asInt x) as [[? ?] [?|]], (Rev2.asInt x) as [[? ?] [?|]];
  simpl in Hl, He, Hv; try discriminate He;
  [subst; reflexivity | specialize (Hv eq_refl); injection Hv as -> ->; reflexivity].

Lemma validateContainerPort_agree n rep :
  Rev1.validateContainerPort n rep = Rev2.validateContainerPort n rep.
Proof.
  unfold Rev1.validateContainerPort, Rev2.validateContainerPort,
    Rev1.portContainerPort, Rev2.portContainerPort, bind, lift.
  destruct (getField n "containerPort") as [[cp|]|]; try done.
  asInt_agree_on cp.
Qed.

Lemma validateProbe_agree n prefix rep :
  Rev1.validateProbe n prefix rep = Rev2.validateProbe n prefix rep.
Proof.
  unfold Rev1.validateProbe, Rev2.validateProbe.
  destruct (negb (isMapping n)); [done|]. unfold bind, lift.
  destruct (getField n "httpGet") as [[hg|]|]; try done.
  destruct (negb (isMapping hg)); [done|].
  destruct (getField hg "port") as [[port|]|]; try done.
  asInt_agree_on port.
Qed.

Lemma resKVBody_limits_agree k v rep :
  Rev1.resKVBody "resources.limits" k v rep = Rev2.resKVBody "resources.limits" k v rep.
Proof.
  unfold Rev1.resKVBody, Rev2.resKVBody. destruct (notStr k); [done|].
  destruct (Value k =? "cpu")%string; [|done].
  asInt_agree_on v.
Qed.

Lemma forPairs_ext body1 body2 c rep :
  (forall k v r, body1 k v r = body2 k v r) ->
  forPairs body1 c rep = forPairs body2 c rep.
Proof.
  intros H. revert rep. induction c as [|k|k v rest IH] using pairs_ind; intros rep;
    simpl; try done.
  unfold bind. rewrite H. destruct (body2 k v rep) as [[[] r]|]; [apply IH|done].
Qed.

Lemma forRange_ext {A} (body1 body2 : A -> M unit) l rep :
  (forall x r, body1 x r = body2 x r) ->
  forRange body1 l rep = forRange body2 l rep.
Proof.
  intros H. revert rep. induction l as [|x l IH]; intros rep; simpl; [done|].
  unfold bind. rewrite H. destruct (body2 x rep) as [[[] r]|]; [apply IH|done].
Qed.

(** X7: the second revision leaves the checks of ports, probes, the
    operating system, the image, the two top-level literals, the
    namespace and the resource limits as they were: on every node and
    every reporter the functions of the two revisions return the same
    result.  (They differ in the report of a name that is empty, in
    the order of the two reports of one label, and in the message for
    the memory of [requests].) *)
Theorem revisions_agree (n : Node) (rep : reporter) :
  (forall prefix, Rev1.validateProbe n prefix rep = Rev2.validateProbe n prefix rep)
  /\ Rev1.validateContainerPort n rep = Rev2.validateContainerPort n rep
  /\ Rev1.containerPorts n rep = Rev2.containerPorts n rep
  /\ Rev1.containerImage n rep = Rev2.containerImage n rep
  /\ Rev1.specOs n rep = Rev2.specOs n rep
  /\ Rev1.podApiVersion n rep = Rev2.podApiVersion n rep
  /\ Rev1.podKind n rep = Rev2.podKind n rep
  /\ Rev1.metaNamespace n rep = Rev2.metaNamespace n rep
  /\ Rev1.validateResKV n "resources.limits" rep = Rev2.validateResKV n "resources.limits" rep.
Proof.
  split; [intros prefix; apply validateProbe_agree|].
  split; [apply validateContainerPort_agree|].
  split.
  { unfold Rev1.containerPorts, Rev2.containerPorts, bind, lift.
    destruct (getField n "ports") as [[ports|]|]; try done.
    destruct (negb (isSequence ports)); [done|].
    apply forRange_ext. intros pn r. unfold Rev1.portsItem, Rev2.portsItem.
    destruct (negb (isMapping pn)); [done|apply validateContainerPort_agree]. }
  repeat split.
  unfold Rev1.validateResKV, Rev2.validateResKV. destruct (negb (isMapping n)); [done|].
  apply forPairs_ext. intros k v r. apply resKVBody_limits_agree.
Qed.


(** * Nodes that pass *)

Lemma appendErrs_ne rep d ds : appendErrs rep (d :: ds) <> rep.
Proof.
  intros H. apply (f_equal (fun r => length (errs r))) in H.
  simpl in H. rewrite length_app in H. simpl in H. lia.
Qed.

Lemma add_not_silent l m rep : add l m rep <> Ok (tt, rep).
Proof. intros [= H]. by apply (appendErrs_ne rep _ []) in H. Qed.

Lemma addRequired_not_silent_1 fld rep : Rev1.addRequired fld rep <> Ok (tt, rep).
Proof. intros [= H]. by apply (appendErrs_ne rep _ []) in H. Qed.

Lemma addRequiredNoLine_not_silent_2 fld rep : Rev2.addRequiredNoLine fld rep <> Ok (tt, rep).
Proof. intros [= H]. by apply (appendErrs_ne rep _ []) in H. Qed.

Lemma addRequiredAt_not_silent_2 l fld rep : Rev2.addRequiredAt l fld rep <> Ok (tt, rep).
Proof. intros [= H]. by apply (appendErrs_ne rep _ []) in H. Qed.

(** A sequence of two append-only computations appends nothing exactly
    when neither does. *)
Lemma silent_seq (m k : M unit) rep :
  framed m -> framed k ->
  (m >> k) rep = Ok (tt, rep) <-> m rep = Ok (tt, rep) /\ k rep = Ok (tt, rep).
Proof.
  intros Hm Hk. unfold bind. split.
  - destruct (m rep) as [[[] r1]|] eqn:H1; [|done]. intros H2.
    pose proof (framed_run _ _ _ _ Hm H1) as E1.
    pose proof (framed_run _ _ _ _ Hk H2) as E2.
    rewrite E1 in E2. rewrite appendErrs_app in E2.
    destruct (diags m (r_file rep)) as [|d ds].
    + rewrite appendErrs_nil in E1. by subst r1.
    + symmetry in E2. by apply appendErrs_ne in E2.
  - by intros [-> ->].
Qed.

Lemma validProtocol_spec v :
  bool_decide (v ∈ validProtocol) = true <-> v = "TCP" \/ v = "UDP".
Proof. rewrite bool_decide_eq_true. unfold validProtocol. set_solver. Qed.

Lemma validOS_spec v :
  bool_decide (v ∈ validOS) = true <-> v = "linux" \/ v = "windows".
Proof. rewrite bool_decide_eq_true. unfold validOS. set_solver. Qed.

Lemma port_range_test v : (v <=? 0) || (65536 <=? v) = false <-> 1 <= v <= 65535.
Proof. rewrite orb_false_iff, !Z.leb_gt. lia. Qed.

Lemma portContainerPort_silent_2 n rep :
  Rev2.portContainerPort n rep = Ok (tt, rep) <-> fieldIs n "containerPort" portNumber.
Proof.
  unfold Rev2.portContainerPort, fieldIs, portNumber, bind, lift.
  destruct (getField n "containerPort") as [[cp|]|] eqn:Hf.
  - destruct (Rev2.asInt cp) as [[v l] [e|]] eqn:Ha.
    + split; [by intros ?%add_not_silent|].
      intros (cp' & [= <-] & w & Hc & _).
      pose proof (proj2 (asInt_coerces_2 cp w (Line cp)) (conj eq_refl Hc)). congruence.
    + apply asInt_coerces_2 in Ha as [-> Hc].
      destruct ((v <=? 0) || (65536 <=? v)) eqn:Hr.
      * split; [by intros ?%add_not_silent|].
        intros (cp' & [= <-] & w & Hc' & Hw%port_range_test).
        rewrite (coerces_fun _ _ _ Hc Hc') in Hr. congruence.
      * split; [intros _|done]. exists cp. split; [done|]. exists v.
        by apply port_range_test in Hr.
  - split; [by intros ?%addRequiredNoLine_not_silent_2|]. by intros (? & ? & _).
  - split; [done|]. by intros (? & ? & _).
Qed.

Lemma portProtocol_silent_2 n rep :
  Rev2.portProtocol n rep = Ok (tt, rep) <-> fieldMayBe n "protocol" (strIn [ "TCP"; "UDP" ]).
Proof.
  unfold Rev2.portProtocol, fieldMayBe, fieldIs, strIn, bind, lift.
  destruct (getField n "protocol") as [[pr|]|] eqn:Hf.
  - destruct (notStr pr) eqn:Hs.
    + split; [by intros ?%add_not_silent|].
      intros [?|(pr' & [= <-] & Hstr%notStr_false & _)]; [done|congruence].
    + apply notStr_false in Hs.
      destruct (bool_decide (Value pr ∈ validProtocol)) eqn:Hv; simpl.
      * apply validProtocol_spec in Hv. split; [intros _|done]. right. exists pr.
        split; [done|]. split; [done|]. simpl. destruct Hv as [-> | ->]; auto.
      * split; [by intros ?%add_not_silent|].
        intros [?|(pr' & [= <-] & _ & Hin)]; [done|].
        assert (bool_decide (Value pr ∈ validProtocol) = true); [|congruence].
        apply validProtocol_spec. simpl in Hin. destruct Hin as [<-|[<-|[]]]; auto.
  - split; [by left|done].
  - split; [done|]. by intros [?|(? & ? & _)].
Qed.

Lemma validateContainerPort_silent_2 n rep :
  Rev2.validateContainerPort n rep = Ok (tt, rep) <-> portItemPasses n.
Proof.
  unfold Rev2.validateContainerPort, portItemPasses.
  rewrite silent_seq; [|apply framed_portContainerPort_2|apply framed_portProtocol_2].
  by rewrite portContainerPort_silent_2, portProtocol_silent_2.
Qed.

Lemma validateContainerPort_silent_1 n rep :
  Rev1.validateContainerPort n rep = Ok (tt, rep) <-> portItemPasses n.
Proof. rewrite validateContainerPort_agree. apply validateContainerPort_silent_2. Qed.

(** X8: an item of [ports] passes without a diagnostic exactly when it
    has a [containerPort] that reads as an integer from 1 to 65535 and
    its [protocol], if there is one, is the string [TCP] or the string
    [UDP].  Both revisions. *)
Theorem port_item_passes (n : Node) (rep : reporter) :
  (Rev1.validateContainerPort n rep = Ok (tt, rep) <-> portItemPasses n)
  /\ (Rev2.validateContainerPort n rep = Ok (tt, rep) <-> portItemPasses n).
Proof.
  split; [apply validateContainerPort_silent_1|apply validateContainerPort_silent_2].
Qed.

Lemma probe_path_silent_2 hg prefix rep :
  (do path <- lift (getField hg "path");
   match path with
   | None => Rev2.addRequiredNoLine (prefix +:+ ".httpGet.path")
   | Some path =>
       if notStr path then add (Line path) "path must be string"
       else if negb (String.prefix "/" (Value path)) then
         add (Line path) (quoted "path has invalid format" (Value path))
       else skip
   end) rep = Ok (tt, rep) <->
  fieldIs hg "path" (fun path => isStr path /\ String.prefix "/" (Value path) = true).
Proof.
  unfold fieldIs, bind, lift. destruct (getField hg "path") as [[path|]|] eqn:Hf.
  - destruct (notStr path) eqn:Hs.
    + split; [by intros ?%add_not_silent|].
      intros (p & [= <-] & Hstr%notStr_false & _). congruence.
    + apply notStr_false in Hs. destruct (String.prefix "/" (Value path)) eqn:Hp; simpl.
      * split; [intros _|done]. by exists path.
      * split; [by intros ?%add_not_silent|]. intros (p & [= <-] & _ & ?). congruence.
  - split; [by intros ?%addRequiredNoLine_not_silent_2|]. by intros (? & ? & _).
  - split; [done|]. by intros (? & ? & _).
Qed.

Lemma probe_port_silent_2 hg prefix rep :
  (do port <- lift (getField hg "port");
   match port with
   | None => Rev2.addRequiredNoLine (prefix +:+ ".httpGet.port")
   | Some port =>
       match Rev2.asInt port with
       | (_, line, Some _) => add line "port must be int"
       | (ival, line, None) =>
           if (ival <=? 0) || (65536 <=? ival)
           then add line "port value out of range" else skip
       end
   end) rep = Ok (tt, rep) <-> fieldIs hg "port" portNumber.
Proof.
  unfold fieldIs, portNumber, bind, lift. destruct (getField hg "port") as [[cp|]|] eqn:Hf.
  - destruct (Rev2.asInt cp) as [[v l] [e|]] eqn:Ha.
    + split; [by intros ?%add_not_silent|].
      intros (cp' & [= <-] & w & Hc & _).
      pose proof (proj2 (asInt_coerces_2 cp w (Line cp)) (conj eq_refl Hc)). congruence.
    + apply asInt_coerces_2 in Ha as [-> Hc].
      destruct ((v <=? 0) || (65536 <=? v)) eqn:Hr.
      * split; [by intros ?%add_not_silent|].
        intros (cp' & [= <-] & w & Hc' & Hw%port_range_test).
        rewrite (coerces_fun _ _ _ Hc Hc') in Hr. congruence.
      * split; [intros _|done]. exists cp. split; [done|]. exists v.
        by apply port_range_test in Hr.
  - split; [by intros ?%addRequiredNoLine_not_silent_2|]. by intros (? & ? & _).
  - split; [done|]. by intros (? & ? & _).
Qed.

Lemma validateProbe_silent_2 n prefix rep :
  Rev2.validateProbe n prefix rep = Ok (tt, rep) <-> probePasses n.
Proof.
  unfold Rev2.validateProbe, probePasses, httpGetPasses, isMapping.
  destruct (bool_decide (Kind n = MappingNode)) eqn:Hm; simpl.
  - apply bool_decide_eq_true in Hm. unfold bind at 1. unfold lift at 1.
    unfold fieldIs at 1.
    destruct (getField n "httpGet") as [[hg|]|] eqn:Hf.
    + destruct (bool_decide (Kind hg = MappingNode)) eqn:Hh; simpl.
      * apply bool_decide_eq_true in Hh.
        rewrite silent_seq, probe_path_silent_2, probe_port_silent_2; [|framed_auto..].
        split; [intros [Hp Hq]|intros (_ & hg' & [= <-] & _ & Hp & Hq)]; [|done].
        split; [done|]. by exists hg.
      * apply bool_decide_eq_false in Hh. split; [by intros ?%add_not_silent|].
        by intros (_ & hg' & [= <-] & ? & _).
    + split; [by intros ?%addRequiredNoLine_not_silent_2|]. by intros (_ & ? & ? & _).
    + split; [done|]. by intros (_ & ? & ? & _).
  - apply bool_decide_eq_false in Hm. split; [by intros ?%add_not_silent|].
    by intros [? _].
Qed.

Lemma validateProbe_silent_1 n prefix rep :
  Rev1.validateProbe n prefix rep = Ok (tt, rep) <-> probePasses n.
Proof. rewrite validateProbe_agree. apply validateProbe_silent_2. Qed.

(** X9: a probe passes without a diagnostic exactly when it is a
    mapping with an [httpGet] that is a mapping, whose [path] is a
    string that starts with a slash and whose [port] reads as an
    integer from 1 to 65535.  Both revisions. *)
Theorem probe_passes (n : Node) (prefix : string) (rep : reporter) :
  (Rev1.validateProbe n prefix rep = Ok (tt, rep) <-> probePasses n)
  /\ (Rev2.validateProbe n prefix rep = Ok (tt, rep) <-> probePasses n).
Proof. split; [apply validateProbe_silent_1|apply validateProbe_silent_2]. Qed.


(** ** Loops and field blocks that append nothing *)

Lemma silent_bind {A B} (m : M A) (k : A -> M B) rep b :
  framed m -> (forall a, framed (k a)) ->
  bind m k rep = Ok (b, rep) <-> exists a, m rep = Ok (a, rep) /\ k a rep = Ok (b, rep).
Proof.
  intros Hm Hk. unfold bind. split.
  - destruct (m rep) as [[a r1]|] eqn:H1; [|done]. intros H2.
    pose proof (framed_run _ _ _ _ Hm H1) as E1.
    pose proof (framed_run _ _ _ _ (Hk a) H2) as E2.
    rewrite E1 in E2. rewrite appendErrs_app in E2.
    destruct (diags m (r_file rep)) as [|d ds].
    + rewrite appendErrs_nil in E1. subst r1. by exists a.
    + symmetry in E2. by apply appendErrs_ne in E2.
  - by intros (a & -> & ->).
Qed.

Lemma forRange_silent {A} (body : A -> M unit) l rep :
  (forall x, framed (body x)) ->
  forRange body l rep = Ok (tt, rep) <-> Forall (fun x => body x rep = Ok (tt, rep)) l.
Proof.
  intros Hb. induction l as [|x l IH]; simpl.
  - split; [constructor|done].
  - rewrite silent_seq; [|apply Hb|by apply framed_forRange].
    rewrite IH. split.
    + intros [? ?]. apply Forall_cons. by split.
    + intros [? ?]%Forall_cons. by split.
Qed.

Lemma forPairs_silent body c rep :
  (forall k v, framed (body k v)) ->
  forPairs body c rep = Ok (tt, rep) <->
  Nat.even (length c) = true
  /\ Forall (fun kv : Node * Node => body kv.1 kv.2 rep = Ok (tt, rep)) (pairsOf c).
Proof.
  intros Hb. induction c as [|k|k v rest IH] using pairs_ind.
  - simpl. split; [|done]. intros _. split; [done|constructor].
  - simpl. split; [done|]. by intros [? _].
  - change (forPairs body (k :: v :: rest)) with (body k v >> forPairs body rest).
    rewrite silent_seq; [|apply Hb|by apply framed_forPairs].
    rewrite IH. change (Nat.even (length (k :: v :: rest))) with (Nat.even (length rest)).
    change (pairsOf (k :: v :: rest)) with ((k, v) :: pairsOf rest).
    split.
    + intros (? & ? & ?). split; [done|]. apply Forall_cons. by split.
    + intros (? & [? ?]%Forall_cons). by split.
Qed.

Lemma Forall_iff_pointwise {A} (P Q : A -> Prop) l :
  (forall x, P x <-> Q x) -> Forall P l <-> Forall Q l.
Proof.
  intros H. split; intros HF; (eapply Forall_impl; [exact HF|]); intros x; by apply H.
Qed.

(** A block on a field that must be there. *)
Lemma field_required_silent n key (req : M unit) (body : Node -> M unit) (P : Node -> Prop) rep :
  req rep <> Ok (tt, rep) ->
  (forall v, body v rep = Ok (tt, rep) <-> P v) ->
  (do x <- lift (getField n key);
   match x with Some v => body v | None => req end) rep = Ok (tt, rep)
  <-> fieldIs n key P.
Proof.
  intros Hreq Hbody. unfold fieldIs, bind, lift.
  destruct (getField n key) as [[v|]|].
  - rewrite Hbody. split; [intros ?; by exists v|]. by intros (? & [= <-] & ?).
  - split; [done|]. by intros (? & ? & _).
  - split; [done|]. by intros (? & ? & _).
Qed.

(** A block on a field that may be missing. *)
Lemma field_optional_silent n key (body : Node -> M unit) (P : Node -> Prop) rep :
  (forall v, body v rep = Ok (tt, rep) <-> P v) ->
  (do x <- lift (getField n key);
   match x with Some v => body v | None => skip end) rep = Ok (tt, rep)
  <-> fieldMayBe n key P.
Proof.
  intros Hbody. unfold fieldMayBe, fieldIs, bind, lift.
  destruct (getField n key) as [[v|]|].
  - rewrite Hbody. split; [intros ?; right; by exists v|].
    by intros [?|(? & [= <-] & ?)].
  - split; [by left|done].
  - split; [done|]. by intros [?|(? & ? & _)].
Qed.

Lemma fieldIs_mapping n key P : fieldIs n key P -> Kind n = MappingNode.
Proof.
  intros (v & Hf%getField_mapping & _). unfold isMapping in Hf.
  by apply bool_decide_eq_true in Hf.
Qed.

(** ** Resources *)

Ltac resKV_silent asInt asInt_coerces :=
  let k := fresh "k" in let v := fresh "v" in
  match goal with |- _ <-> quantityPairPasses (?k0, ?v0) => set (k := k0); set (v := v0) end;
  unfold quantityPairPasses; simpl;
  destruct (notStr k) eqn:Hk;
  [ split; [by intros ?%add_not_silent|];
    intros (Hs%notStr_false & _); congruence |];
  apply notStr_false in Hk;
  destruct (Value k =? "cpu")%string eqn:Hc;
  [ apply String.eqb_eq in Hc;
    destruct (asInt v) as [[z l] [e|]] eqn:Ha;
    [ split; [by intros ?%add_not_silent|];
      intros (_ & Hcpu & _); destruct (Hcpu Hc) as (w & Hw & _);
      pose proof (proj2 (asInt_coerces v w (Line v)) (conj eq_refl Hw)); congruence
    | apply asInt_coerces in Ha as [-> Hz];
      destruct (z <? 0) eqn:Hneg;
      [ split; [by intros ?%add_not_silent|];
        intros (_ & Hcpu & _); destruct (Hcpu Hc) as (w & Hw & Hr);
        rewrite (coerces_fun _ _ _ Hz Hw) in Hneg; lia
      | split; [intros _|done]; split; [done|]; split;
        [ intros _; exists z; split; [done|lia]
        | intros Hm; rewrite Hc in Hm; discriminate ] ] ]
  | apply String.eqb_neq in Hc;
    destruct (Value k =? "memory")%string eqn:Hm;
    [ apply String.eqb_eq in Hm;
      destruct (notStr v) eqn:Hv;
      [ split; [by intros ?%add_not_silent|];
        intros (_ & _ & Hmem); destruct (Hmem Hm) as [Hs%notStr_false _]; congruence
      | destruct (reMem (Value v)) eqn:Hre; simpl;
        [ split; [intros _|done]; split; [done|]; split; [done|];
          intros _; split; [by apply notStr_false|done]
        | split; [by intros ?%add_not_silent|];
          intros (_ & _ & Hmem); destruct (Hmem Hm) as [_ ?]; congruence ] ]
    | apply String.eqb_neq in Hm;
      split; [intros _|done]; split; [done|]; split; intros; done ] ].

Lemma resKVBody_silent_1 prefix k v rep :
  Rev1.resKVBody prefix k v rep = Ok (tt, rep) <-> quantityPairPasses (k, v).
Proof. unfold Rev1.resKVBody. resKV_silent Rev1.asInt asInt_coerces_1. Qed.

Lemma resKVBody_silent_2 prefix k v rep :
  Rev2.resKVBody prefix k v rep = Ok (tt, rep) <-> quantityPairPasses (k, v).
Proof. unfold Rev2.resKVBody. resKV_silent Rev2.asInt asInt_coerces_2. Qed.

Lemma validateResKV_silent_1 n prefix rep :
  Rev1.validateResKV n prefix rep = Ok (tt, rep) <-> quantitiesPass n.
Proof.
  unfold Rev1.validateResKV, quantitiesPass, pairedMapping, isMapping.
  destruct (bool_decide (Kind n = MappingNode)) eqn:Hm; simpl.
  - apply bool_decide_eq_true in Hm.
    rewrite forPairs_silent; [|intros; unfold Rev1.resKVBody; framed_auto].
    rewrite (Forall_iff_pointwise _ quantityPairPasses);
      [tauto|intros [k v]; apply resKVBody_silent_1].
  - apply bool_decide_eq_false in Hm. split; [by intros ?%add_not_silent|]. by intros [[? _] _].
Qed.

Lemma validateResKV_silent_2 n prefix rep :
  Rev2.validateResKV n prefix rep = Ok (tt, rep) <-> quantitiesPass n.
Proof.
  unfold Rev2.validateResKV, quantitiesPass, pairedMapping, isMapping.
  destruct (bool_decide (Kind n = MappingNode)) eqn:Hm; simpl.
  - apply bool_decide_eq_true in Hm.
    rewrite forPairs_silent; [|intros; unfold Rev2.resKVBody; framed_auto].
    rewrite (Forall_iff_pointwise _ quantityPairPasses);
      [tauto|intros [k v]; apply resKVBody_silent_2].
  - apply bool_decide_eq_false in Hm. split; [by intros ?%add_not_silent|]. by intros [[? _] _].
Qed.

Lemma validateResources_silent_1 n rep :
  Rev1.validateResources n rep = Ok (tt, rep) <-> resourcesPass n.
Proof.
  unfold Rev1.validateResources, resourcesPass, isMapping.
  destruct (bool_decide (Kind n = MappingNode)) eqn:Hm; simpl.
  - apply bool_decide_eq_true in Hm.
    rewrite silent_seq; [|framed_auto..].
    rewrite (field_optional_silent n "limits" _ quantitiesPass),
      (field_optional_silent n "requests" _ quantitiesPass);
      [tauto|intros; apply validateResKV_silent_1..].
  - apply bool_decide_eq_false in Hm. split; [by intros ?%add_not_silent|]. by intros [? _].
Qed.

Lemma validateResources_silent_2 n rep :
  Rev2.validateResources n rep = Ok (tt, rep) <-> resourcesPass n.
Proof.
  unfold Rev2.validateResources, resourcesPass, isMapping.
  destruct (bool_decide (Kind n = MappingNode)) eqn:Hm; simpl.
  - apply bool_decide_eq_true in Hm.
    rewrite silent_seq; [|framed_auto..].
    rewrite (field_optional_silent n "limits" _ quantitiesPass),
      (field_optional_silent n "requests" _ quantitiesPass);
      [tauto|intros; apply validateResKV_silent_2..].
  - apply bool_decide_eq_false in Hm. split; [by intros ?%add_not_silent|]. by intros [? _].
Qed.

(** X10: a [resources] node passes without a diagnostic exactly when it
    is a mapping whose [limits] and [requests], where present, are
    mappings made of pairs with string keys, a natural number under
    [cpu] and a quantity under [memory]; what stands under any other
    key is not looked at.  Both revisions. *)
Theorem resources_pass (n : Node) (rep : reporter) :
  (Rev1.validateResources n rep = Ok (tt, rep) <-> resourcesPass n)
  /\ (Rev2.validateResources n rep = Ok (tt, rep) <-> resourcesPass n).
Proof. split; [apply validateResources_silent_1|apply validateResources_silent_2]. Qed.

(** ** Metadata *)

Lemma labelsBody_silent_1 k v rep :
  Rev1.labelsBody k v rep = Ok (tt, rep) <-> isStr k /\ isStr v.
Proof.
  unfold Rev1.labelsBody. rewrite silent_seq; [|framed_auto..].
  rewrite <- (notStr_false k), <- (notStr_false v).
  destruct (notStr k), (notStr v); split; intros [H1 H2]; try done;
    first [by apply add_not_silent in H1|by apply add_not_silent in H2].
Qed.

Lemma labelsBody_silent_2 k v rep :
  Rev2.labelsBody k v rep = Ok (tt, rep) <-> isStr k /\ isStr v.
Proof.
  unfold Rev2.labelsBody. rewrite silent_seq; [|framed_auto..].
  rewrite <- (notStr_false k), <- (notStr_false v).
  destruct (notStr k), (notStr v); split; intros [H1 H2]; try done;
    first [by apply add_not_silent in H1|by apply add_not_silent in H2].
Qed.

Lemma labels_silent body l rep :
  (forall k v, framed (body k v)) ->
  (forall k v, body k v rep = Ok (tt, rep) <-> isStr k /\ isStr v) ->
  (if negb (isMapping l) then add (Line l) "labels must be object"
   else forPairs body (Content l)) rep = Ok (tt, rep) <-> labelsPass l.
Proof.
  intros Hf Hb. unfold labelsPass, pairedMapping, isMapping.
  destruct (bool_decide (Kind l = MappingNode)) eqn:Hm; simpl.
  - apply bool_decide_eq_true in Hm. rewrite forPairs_silent; [|done].
    rewrite (Forall_iff_pointwise _ (fun kv : Node * Node => isStr kv.1 /\ isStr kv.2));
      [tauto|intros [k v]; apply Hb].
  - apply bool_decide_eq_false in Hm. split; [by intros ?%add_not_silent|]. by intros [[? _] _].
Qed.

Lemma namespace_silent ns rep :
  (if notStr ns then add (Line ns) "namespace must be string" else skip) rep = Ok (tt, rep)
  <-> isStr ns.
Proof.
  rewrite <- notStr_false. destruct (notStr ns); [|done].
  split; [by intros ?%add_not_silent|done].
Qed.

Lemma metaName_silent_1 n rep :
  Rev1.metaName n rep = Ok (tt, rep)
  <-> fieldIs n "name" (fun nm => isStr nm /\ TrimSpace (Value nm) <> "").
Proof.
  unfold Rev1.metaName. apply field_required_silent; [apply addRequired_not_silent_1|].
  intros nm. rewrite <- notStr_false. destruct (notStr nm).
  - split; [by intros ?%add_not_silent|by intros [? _]].
  - destruct (TrimSpace (Value nm) =? "")%string eqn:He.
    + apply String.eqb_eq in He. split; [by intros ?%add_not_silent|by intros [_ ?]].
    + by apply String.eqb_neq in He.
Qed.

Lemma metaName_silent_2 n rep :
  Rev2.metaName n rep = Ok (tt, rep)
  <-> fieldIs n "name" (fun nm => isStr nm /\ TrimSpace (Value nm) <> "").
Proof.
  unfold Rev2.metaName. apply field_required_silent; [apply addRequiredNoLine_not_silent_2|].
  intros nm. rewrite <- notStr_false. destruct (notStr nm).
  - split; [by intros ?%add_not_silent|by intros [? _]].
  - destruct (TrimSpace (Value nm) =? "")%string eqn:He.
    + apply String.eqb_eq in He. split; [by intros ?%addRequiredAt_not_silent_2|by intros [_ ?]].
    + by apply String.eqb_neq in He.
Qed.

Lemma validateObjectMeta_silent_1 n rep :
  Rev1.validateObjectMeta n rep = Ok (tt, rep) <-> metadataPasses n.
Proof.
  unfold Rev1.validateObjectMeta, metadataPasses.
  rewrite !silent_seq; [|unfold Rev1.metaName, Rev1.metaNamespace, Rev1.metaLabels, Rev1.labelsBody; framed_auto..].
  rewrite metaName_silent_1. unfold Rev1.metaNamespace, Rev1.metaLabels.
  rewrite (field_optional_silent n "namespace" _ isStr),
    (field_optional_silent n "labels" _ labelsPass); [tauto| |].
  - intros l. apply labels_silent; [intros; unfold Rev1.labelsBody; framed_auto|].
    intros k v. apply labelsBody_silent_1.
  - intros ns. apply namespace_silent.
Qed.

Lemma validateObjectMeta_silent_2 n rep :
  Rev2.validateObjectMeta n rep = Ok (tt, rep) <-> metadataPasses n.
Proof.
  unfold Rev2.validateObjectMeta, metadataPasses.
  rewrite !silent_seq; [|unfold Rev2.metaName, Rev2.metaNamespace, Rev2.metaLabels, Rev2.labelsBody; framed_auto..].
  rewrite metaName_silent_2. unfold Rev2.metaNamespace, Rev2.metaLabels.
  rewrite (field_optional_silent n "namespace" _ isStr),
    (field_optional_silent n "labels" _ labelsPass); [tauto| |].
  - intros l. apply labels_silent; [intros; unfold Rev2.labelsBody; framed_auto|].
    intros k v. apply labelsBody_silent_2.
  - intros ns. apply namespace_silent.
Qed.

(** X11: a [metadata] node passes without a diagnostic exactly when its
    [name] is a string that is not blank, its [namespace], if there is
    one, is a string, and its [labels], if there are any, are a mapping
    made of pairs of strings.  Both revisions. *)
Theorem metadata_passes (n : Node) (rep : reporter) :
  (Rev1.validateObjectMeta n rep = Ok (tt, rep) <-> metadataPasses n)
  /\ (Rev2.validateObjectMeta n rep = Ok (tt, rep) <-> metadataPasses n).
Proof. split; [apply validateObjectMeta_silent_1|apply validateObjectMeta_silent_2]. Qed.


(** ** Containers *)

(** The two tests on a string field: a string, and one that passes
    [test]. *)
Lemma str_test_silent (n : Node) (test : bool) (P : Prop) m1 m2 rep :
  (test = true <-> P) ->
  (if notStr n then add (Line n) m1
   else if negb test then add (Line n) m2 else skip) rep = Ok (tt, rep)
  <-> isStr n /\ P.
Proof.
  intros HP. rewrite <- notStr_false, <- HP.
  destruct (notStr n); [split; [by intros ?%add_not_silent|by intros [? _]]|].
  destruct test; simpl; [done|].
  split; [by intros ?%add_not_silent|by intros [_ ?]].
Qed.

Lemma then_ret_silent {S} (m : M unit) (s s' : S) rep :
  (m >> ret s) rep = Ok (s', rep) <-> m rep = Ok (tt, rep) /\ s' = s.
Proof.
  unfold bind, ret. destruct (m rep) as [[[] r]|]; split; try done.
  - by intros [= -> ->].
  - by intros [[= ->] ->].
  - by intros [? _].
Qed.

Lemma add_ret_not_silent {S} l m (s s' : S) rep : (add l m >> ret s) rep <> Ok (s', rep).
Proof. intros [H _]%then_ret_silent. by apply add_not_silent in H. Qed.

Lemma namePasses_registered nm :
  namePasses nm -> notStr nm = false /\ validName (Value nm) = true.
Proof.
  intros [Hs Hre]. split; [by apply notStr_false|].
  unfold validName. rewrite Hre, andb_true_r.
  destruct (TrimSpace_snake _ Hre) as [-> Hne].
  apply negb_true_iff. by apply String.eqb_neq.
Qed.

Lemma containerPasses_registered item :
  containerPasses item ->
  exists nm, getField item "name" = Ok (Some nm) /\ registeredName item = Some (Value nm).
Proof.
  intros [(nm & Hf & Hn) _]. exists nm. split; [done|].
  unfold registeredName. rewrite Hf.
  by destruct (namePasses_registered _ Hn) as [-> ->].
Qed.

Lemma containerName_silent_2 item seen seen' rep :
  Rev2.containerName item seen rep = Ok (seen', rep) <->
  exists nm, getField item "name" = Ok (Some nm) /\ namePasses nm
             /\ (Value nm ∉ seen) /\ seen' = {[ Value nm ]} ∪ seen.
Proof.
  unfold Rev2.containerName, namePasses. unfold bind at 1. unfold lift.
  destruct (getField item "name") as [[nm|]|].
  - destruct (notStr nm) eqn:Hs.
    { split; [by intros ?%add_ret_not_silent|].
      intros (? & [= <-] & [?%notStr_false _] & _). congruence. }
    apply notStr_false in Hs.
    destruct (TrimSpace (Value nm) =? "")%string eqn:He.
    { split; [intros [H _]%then_ret_silent; by apply addRequiredAt_not_silent_2 in H|].
      intros (? & [= <-] & [_ Hre] & _). apply String.eqb_eq in He.
      destruct (TrimSpace_snake _ Hre) as [E Hne]. congruence. }
    destruct (reSnake (Value nm)) eqn:Hre; simpl.
    + rewrite then_ret_silent. destruct (bool_decide (Value nm ∈ seen)) eqn:Hin.
      * apply bool_decide_eq_true in Hin. split; [by intros [?%add_not_silent _]|].
        by intros (? & [= <-] & _ & ? & _).
      * apply bool_decide_eq_false in Hin. split.
        -- intros [_ ->]. by exists nm.
        -- by intros (? & [= <-] & _ & _ & ->).
    + split; [by intros ?%add_ret_not_silent|].
      intros (? & [= <-] & [_ ?] & _). congruence.
  - split; [intros [H _]%then_ret_silent; by apply addRequiredNoLine_not_silent_2 in H|].
    by intros (? & ? & _).
  - split; [done|]. by intros (? & ? & _).
Qed.

Lemma containerName_silent_1 item seen seen' rep :
  Rev1.containerName item seen rep = Ok (seen', rep) <->
  exists nm, getField item "name" = Ok (Some nm) /\ namePasses nm
             /\ (Value nm ∉ seen) /\ seen' = {[ Value nm ]} ∪ seen.
Proof.
  unfold Rev1.containerName, namePasses. unfold bind at 1. unfold lift.
  destruct (getField item "name") as [[nm|]|].
  - destruct (notStr nm) eqn:Hs.
    { split; [by intros ?%add_ret_not_silent|].
      intros (? & [= <-] & [?%notStr_false _] & _). congruence. }
    apply notStr_false in Hs.
    destruct (reSnake (Value nm)) eqn:Hre; simpl.
    + destruct (TrimSpace_snake _ Hre) as [E Hne].
      apply String.eqb_neq in Hne. rewrite E, Hne. simpl.
      rewrite then_ret_silent. destruct (bool_decide (Value nm ∈ seen)) eqn:Hin.
      * apply bool_decide_eq_true in Hin. split; [by intros [?%add_not_silent _]|].
        by intros (? & [= <-] & _ & ? & _).
      * apply bool_decide_eq_false in Hin. split.
        -- intros [_ ->]. by exists nm.
        -- by intros (? & [= <-] & _ & _ & ->).
    + rewrite orb_true_r. split; [by intros ?%add_ret_not_silent|].
      intros (? & [= <-] & [_ ?] & _). congruence.
  - split; [intros [H _]%then_ret_silent; by apply addRequired_not_silent_1 in H|].
    by intros (? & ? & _).
  - split; [done|]. by intros (? & ? & _).
Qed.

Lemma ports_silent (item : Node -> M unit) ps rep :
  (forall pn, framed (item pn)) ->
  (forall pn, item pn rep = Ok (tt, rep) <-> portItemPasses pn) ->
  (if negb (isSequence ps) then add (Line ps) "ports must be array"
   else forRange item (Content ps)) rep = Ok (tt, rep) <-> portsPass ps.
Proof.
  intros Hf Hb. unfold portsPass, isSequence.
  destruct (bool_decide (Kind ps = SequenceNode)) eqn:Hm; simpl.
  - apply bool_decide_eq_true in Hm. rewrite forRange_silent; [|done].
    rewrite (Forall_iff_pointwise _ portItemPasses); [tauto|done].
  - apply bool_decide_eq_false in Hm. split; [by intros ?%add_not_silent|]. by intros [? _].
Qed.

Lemma portsItem_silent_1 pn rep :
  Rev1.portsItem pn rep = Ok (tt, rep) <-> portItemPasses pn.
Proof.
  unfold Rev1.portsItem, isMapping.
  destruct (bool_decide (Kind pn = MappingNode)) eqn:Hm; simpl.
  - apply validateContainerPort_silent_1.
  - apply bool_decide_eq_false in Hm. split; [by intros ?%add_not_silent|].
    by intros [?%fieldIs_mapping _].
Qed.

Lemma portsItem_silent_2 pn rep :
  Rev2.portsItem pn rep = Ok (tt, rep) <-> portItemPasses pn.
Proof.
  unfold Rev2.portsItem, isMapping.
  destruct (bool_decide (Kind pn = MappingNode)) eqn:Hm; simpl.
  - apply validateContainerPort_silent_2.
  - apply bool_decide_eq_false in Hm. split; [by intros ?%add_not_silent|].
    by intros [?%fieldIs_mapping _].
Qed.

Lemma containerFields_silent_1 item rep :
  Rev1.containerFields item rep = Ok (tt, rep) <->
  fieldIs item "image" imagePasses
  /\ fieldMayBe item "ports" portsPass
  /\ fieldMayBe item "readinessProbe" probePasses
  /\ fieldMayBe item "livenessProbe" probePasses
  /\ fieldIs item "resources" resourcesPass.
Proof.
  unfold Rev1.containerFields.
  rewrite !silent_seq;
    [|unfold Rev1.containerImage, Rev1.containerPorts, Rev1.containerProbe,
        Rev1.containerResources, Rev1.portsItem; framed_auto..].
  unfold Rev1.containerImage, Rev1.containerPorts, Rev1.containerProbe, Rev1.containerResources.
  rewrite (field_required_silent item "image" _ _ imagePasses),
    (field_optional_silent item "ports" _ portsPass),
    (field_optional_silent item "readinessProbe" _ probePasses),
    (field_optional_silent item "livenessProbe" _ probePasses),
    (field_required_silent item "resources" _ _ resourcesPass); [tauto|..].
  - apply addRequired_not_silent_1.
  - intros v. apply validateResources_silent_1.
  - intros v. apply validateProbe_silent_1.
  - intros v. apply validateProbe_silent_1.
  - intros v. apply ports_silent; [intros; unfold Rev1.portsItem; framed_auto|].
    intros pn. apply portsItem_silent_1.
  - apply addRequired_not_silent_1.
  - intros v. by apply str_test_silent.
Qed.

Lemma containerFields_silent_2 item rep :
  Rev2.containerFields item rep = Ok (tt, rep) <->
  fieldIs item "image" imagePasses
  /\ fieldMayBe item "ports" portsPass
  /\ fieldMayBe item "readinessProbe" probePasses
  /\ fieldMayBe item "livenessProbe" probePasses
  /\ fieldIs item "resources" resourcesPass.
Proof.
  unfold Rev2.containerFields.
  rewrite !silent_seq;
    [|unfold Rev2.containerImage, Rev2.containerPorts, Rev2.containerProbe,
        Rev2.containerResources, Rev2.portsItem; framed_auto..].
  unfold Rev2.containerImage, Rev2.containerPorts, Rev2.containerProbe, Rev2.containerResources.
  rewrite (field_required_silent item "image" _ _ imagePasses),
    (field_optional_silent item "ports" _ portsPass),
    (field_optional_silent item "readinessProbe" _ probePasses),
    (field_optional_silent item "livenessProbe" _ probePasses),
    (field_required_silent item "resources" _ _ resourcesPass); [tauto|..].
  - apply addRequiredNoLine_not_silent_2.
  - intros v. apply validateResources_silent_2.
  - intros v. apply validateProbe_silent_2.
  - intros v. apply validateProbe_silent_2.
  - intros v. apply ports_silent; [intros; unfold Rev2.portsItem; framed_auto|].
    intros pn. apply portsItem_silent_2.
  - apply addRequiredNoLine_not_silent_2.
  - intros v. by apply str_test_silent.
Qed.


Lemma turn_silent (name : M (gset string)) (fields : M unit) item seen seen' rep :
  framed name -> framed fields ->
  (forall s, name rep = Ok (s, rep) <->
     exists nm, getField item "name" = Ok (Some nm) /\ namePasses nm
                /\ (Value nm ∉ seen) /\ s = {[ Value nm ]} ∪ seen) ->
  (fields rep = Ok (tt, rep) <->
     fieldIs item "image" imagePasses
     /\ fieldMayBe item "ports" portsPass
     /\ fieldMayBe item "readinessProbe" probePasses
     /\ fieldMayBe item "livenessProbe" probePasses
     /\ fieldIs item "resources" resourcesPass) ->
  (if negb (isMapping item)
   then bind (add (Line item) "container must be object") (fun _ => ret seen)
   else bind name (fun s => bind fields (fun _ => ret s))) rep = Ok (seen', rep)
  <-> turnPasses item seen seen'.
Proof.
  intros Hfn Hff Hn Hf. unfold turnPasses, containerPasses.
  destruct (isMapping item) eqn:Hm; simpl.
  - rewrite silent_bind; [|done|intros; framed_auto]. split.
    + intros (s & (nm & Hnm & Hp & Hin & ->)%Hn & [Hfs ->]%then_ret_silent).
      apply Hf in Hfs. split; [split; [by exists nm|done]|].
      exists (Value nm). split; [|done]. unfold registeredName. rewrite Hnm.
      by destruct (namePasses_registered _ Hp) as [-> ->].
    + intros [[(nm & Hnm & Hp) Hfs] (v & Hr & Hin & ->)].
      assert (v = Value nm) as ->.
      { unfold registeredName in Hr. rewrite Hnm in Hr.
        destruct (namePasses_registered _ Hp) as [E1 E2]. rewrite E1, E2 in Hr. congruence. }
      exists ({[ Value nm ]} ∪ seen). split.
      * apply Hn. by exists nm.
      * apply then_ret_silent. split; [by apply Hf|done].
  - split; [by intros ?%add_ret_not_silent|].
    intros [[(nm & Hnm%getField_mapping & _) _] _]. congruence.
Qed.

Lemma containersItem_silent_1 item seen seen' rep :
  Rev1.containersItem item seen rep = Ok (seen', rep) <-> turnPasses item seen seen'.
Proof.
  apply (turn_silent (Rev1.containerName item seen) (Rev1.containerFields item)).
  - apply framed_containerName_1.
  - apply framed_containerFields_1.
  - intros s. apply containerName_silent_1.
  - apply containerFields_silent_1.
Qed.

Lemma containersItem_silent_2 item seen seen' rep :
  Rev2.containersItem item seen rep = Ok (seen', rep) <-> turnPasses item seen seen'.
Proof.
  apply (turn_silent (Rev2.containerName item seen) (Rev2.containerFields item)).
  - apply framed_containerName_2.
  - apply framed_containerFields_2.
  - intros s. apply containerName_silent_2.
  - apply containerFields_silent_2.
Qed.

(** The loop over the containers appends nothing exactly when every
    container passes and no name comes twice or is in the map at the
    start. *)
Lemma foldRange_silent (body : Node -> gset string -> M (gset string)) rep :
  (forall item seen, framed (body item seen)) ->
  (forall item seen seen',
     body item seen rep = Ok (seen', rep) <-> turnPasses item seen seen') ->
  forall items seen seen',
    foldRange body items seen rep = Ok (seen', rep) <->
    Forall containerPasses items
    /\ NoDup (registeredNames items)
    /\ (forall v, v ∈ registeredNames items -> v ∉ seen)
    /\ seen' = list_to_set (registeredNames items) ∪ seen.
Proof.
  intros Hf Hb. induction items as [|item items IH]; intros seen seen'.
  - simpl. unfold ret. split.
    + intros [= ->]. split; [constructor|]. split; [constructor|].
      split; [by intros v ?%elem_of_nil|]. by rewrite (left_id_L ∅ (∪)).
    + intros (_ & _ & _ & ->). by rewrite (left_id_L ∅ (∪)).
  - simpl. rewrite silent_bind; [|done|intros; by apply framed_foldRange]. split.
    + intros (s & [Hp (v & Hr & Hin & ->)]%Hb & (HF & Hnd & Hfresh & ->)%IH).
      unfold registeredNames in *. simpl. rewrite Hr. simpl.
      split; [by apply Forall_cons|]. split.
      { apply NoDup_cons. split; [|done]. intros Hv. apply (Hfresh v Hv).
        apply elem_of_union. left. by apply elem_of_singleton. }
      split.
      { intros w [->|Hw]%elem_of_cons; [done|]. intros Hs. apply (Hfresh w Hw).
        apply elem_of_union. by right. }
      rewrite (assoc_L (∪)). f_equal. apply (comm_L (∪)).
    + intros ([Hp HF]%Forall_cons & Hnd & Hfresh & ->).
      destruct (containerPasses_registered _ Hp) as (nm & _ & Hr).
      unfold registeredNames in *. simpl in *. rewrite Hr in *. simpl in *.
      apply NoDup_cons in Hnd as [Hnin Hnd].
      exists ({[ Value nm ]} ∪ seen). split.
      * apply Hb. split; [done|]. exists (Value nm). split; [done|]. split; [|done].
        apply Hfresh. by left.
      * apply IH. split; [done|]. split; [done|]. split.
        -- intros w Hw [->%elem_of_singleton|Hs]%elem_of_union; [done|].
           apply (Hfresh w); [by right|done].
        -- rewrite (assoc_L (∪)). f_equal. apply (comm_L (∪)).
Qed.

Lemma containers_silent (body : Node -> gset string -> M (gset string)) cs rep :
  (forall item seen, framed (body item seen)) ->
  (forall item seen seen',
     body item seen rep = Ok (seen', rep) <-> turnPasses item seen seen') ->
  (if negb (isSequence cs) then add (Line cs) "containers must be array"
   else
     (if (length (Content cs) =? 0)%nat
      then add (Line cs) "containers value out of range" else skip) >>
     (do _ <- foldRange body (Content cs) ∅; skip)) rep = Ok (tt, rep)
  <-> containersPass cs.
Proof.
  intros Hf Hb. unfold containersPass, isSequence.
  destruct (bool_decide (Kind cs = SequenceNode)) eqn:Hk; simpl.
  - apply bool_decide_eq_true in Hk.
    rewrite silent_seq; [|framed_auto|apply framed_bind; [by apply framed_foldRange|intros; apply framed_skip]].
    rewrite silent_bind; [|by apply framed_foldRange|intros; apply framed_skip].
    split.
    + intros [Hlen (s & (HF & Hnd & _ & _)%(foldRange_silent body rep Hf Hb) & _)].
      split; [done|]. split; [|done].
      destruct (Content cs); [by apply add_not_silent in Hlen|done].
    + intros (_ & Hne & HF & Hnd). split.
      * by destruct (Content cs).
      * exists (list_to_set (registeredNames (Content cs)) ∪ ∅). split; [|done].
        apply (foldRange_silent body rep Hf Hb). split; [done|]. split; [done|].
        split; [|done]. intros v _. apply not_elem_of_empty.
  - apply bool_decide_eq_false in Hk. split; [by intros ?%add_not_silent|]. by intros [? _].
Qed.

Lemma validOS_In v : bool_decide (v ∈ validOS) = true <-> In v [ "linux"; "windows" ].
Proof.
  rewrite validOS_spec. simpl. split.
  - intros [-> | ->]; auto.
  - intros [<-|[<-|[]]]; auto.
Qed.

Lemma os_silent (req : M unit) o rep :
  req rep <> Ok (tt, rep) ->
  match Kind o with
  | ScalarNode =>
      if negb (Tag o =? "!!str")%string then add (Line o) "os must be string"
      else if negb (bool_decide (Value o ∈ validOS)) then
        add (Line o) (quoted "os has unsupported value" (Value o))
      else skip
  | MappingNode =>
      do nameNode <- lift (getField o "name");
      match nameNode with
      | None => req
      | Some nameNode =>
          if notStr nameNode then add (Line nameNode) "os.name must be string"
          else if negb (bool_decide (Value nameNode ∈ validOS)) then
            add (Line nameNode) (quoted "os has unsupported value" (Value nameNode))
          else skip
      end
  | _ => add (Line o) "os must be string or object"
  end rep = Ok (tt, rep) <-> osPasses o.
Proof.
  intros Hreq. unfold osPasses, strIn at 1, isStr.
  destruct (Kind o) eqn:Hk.
  - split; [by intros ?%add_not_silent|]. by intros [[[? _] _]|[? _]].
  - split; [by intros ?%add_not_silent|]. by intros [[[? _] _]|[? _]].
  - rewrite (field_required_silent o "name" _ _ (strIn [ "linux"; "windows" ])); [|done|].
    + split; [by right|]. by intros [[[? _] _]|[_ ?]].
    + intros nm. apply str_test_silent. apply validOS_In.
  - destruct (Tag o =? "!!str")%string eqn:Ht; simpl.
    + apply String.eqb_eq in Ht.
      destruct (bool_decide (Value o ∈ validOS)) eqn:Hv; simpl.
      * apply validOS_In in Hv. split; [intros _|done]. by left.
      * split; [by intros ?%add_not_silent|].
        intros [[_ Hin%validOS_In]|[? _]]; [congruence|done].
    + apply String.eqb_neq in Ht. split; [by intros ?%add_not_silent|].
      by intros [[[_ ?] _]|[? _]].
  - split; [by intros ?%add_not_silent|]. by intros [[[? _] _]|[? _]].
Qed.

Lemma validatePodSpec_silent_1 n rep :
  Rev1.validatePodSpec n rep = Ok (tt, rep) <-> specPasses n.
Proof.
  unfold Rev1.validatePodSpec, specPasses.
  rewrite silent_seq; [|framed_auto..].
  unfold Rev1.specOs, Rev1.specContainers.
  rewrite (field_optional_silent n "os" _ osPasses),
    (field_required_silent n "containers" _ _ containersPass); [done|..].
  - apply addRequired_not_silent_1.
  - intros cs. apply containers_silent; [apply framed_containersItem_1|].
    intros. apply containersItem_silent_1.
  - intros o. apply os_silent. apply addRequired_not_silent_1.
Qed.

Lemma validatePodSpec_silent_2 n rep :
  Rev2.validatePodSpec n rep = Ok (tt, rep) <-> specPasses n.
Proof.
  unfold Rev2.validatePodSpec, specPasses.
  rewrite silent_seq; [|framed_auto..].
  unfold Rev2.specOs, Rev2.specContainers.
  rewrite (field_optional_silent n "os" _ osPasses),
    (field_required_silent n "containers" _ _ containersPass); [done|..].
  - apply addRequiredNoLine_not_silent_2.
  - intros cs. apply containers_silent; [apply framed_containersItem_2|].
    intros. apply containersItem_silent_2.
  - intros o. apply os_silent. apply addRequiredNoLine_not_silent_2.
Qed.

(** A block on a field that must be a mapping. *)
Lemma object_silent (body : Node -> M unit) (P : Node -> Prop) m v rep :
  (body v rep = Ok (tt, rep) <-> P v) ->
  (P v -> Kind v = MappingNode) ->
  (if negb (isMapping v) then add (Line v) m else body v) rep = Ok (tt, rep) <-> P v.
Proof.
  intros Hb HP. unfold isMapping.
  destruct (bool_decide (Kind v = MappingNode)) eqn:Hk; simpl; [done|].
  apply bool_decide_eq_false in Hk. split; [by intros ?%add_not_silent|].
  by intros ?%HP.
Qed.

Lemma strIn_one v s : (s =? v)%string = true <-> In s [ v ].
Proof. rewrite String.eqb_eq. simpl. split; [auto|]. by intros [<-|[]]. Qed.

Lemma validatePod_silent_1 filename doc rep :
  Rev1.validatePod filename doc rep = Ok (tt, rep) <-> podPasses doc.
Proof.
  unfold Rev1.validatePod, podPasses.
  rewrite !silent_seq; [|framed_auto..].
  unfold Rev1.podApiVersion, Rev1.podKind, Rev1.podMetadata, Rev1.podSpec.
  rewrite (field_required_silent doc "apiVersion" _ _ (strIn [ "v1" ])),
    (field_required_silent doc "kind" _ _ (strIn [ "Pod" ])),
    (field_required_silent doc "metadata" _ _ metadataPasses),
    (field_required_silent doc "spec" _ _ specPasses); [done|..];
    try apply addRequired_not_silent_1.
  - intros v. apply object_silent; [apply validatePodSpec_silent_1|].
    by intros [_ ?%fieldIs_mapping].
  - intros v. apply object_silent; [apply validateObjectMeta_silent_1|].
    by intros [?%fieldIs_mapping _].
  - intros v. apply str_test_silent, strIn_one.
  - intros v. apply str_test_silent, strIn_one.
Qed.

Lemma validatePod_silent_2 doc rep :
  Rev2.validatePod doc rep = Ok (tt, rep) <-> podPasses doc.
Proof.
  unfold Rev2.validatePod, podPasses.
  rewrite !silent_seq; [|framed_auto..].
  unfold Rev2.podApiVersion, Rev2.podKind, Rev2.podMetadata, Rev2.podSpec.
  rewrite (field_required_silent doc "apiVersion" _ _ (strIn [ "v1" ])),
    (field_required_silent doc "kind" _ _ (strIn [ "Pod" ])),
    (field_required_silent doc "metadata" _ _ metadataPasses),
    (field_required_silent doc "spec" _ _ specPasses); [done|..];
    try apply addRequiredNoLine_not_silent_2.
  - intros v. apply object_silent; [apply validatePodSpec_silent_2|].
    by intros [_ ?%fieldIs_mapping].
  - intros v. apply object_silent; [apply validateObjectMeta_silent_2|].
    by intros [?%fieldIs_mapping _].
  - intros v. apply str_test_silent, strIn_one.
  - intros v. apply str_test_silent, strIn_one.
Qed.

Lemma mainLoop_silent_1 abs docs rep :
  Rev1.mainLoop abs docs rep = Ok (tt, rep) <-> Forall podPasses docs.
Proof.
  unfold Rev1.mainLoop. rewrite forRange_silent; [|intros; unfold Rev1.mainDocument; framed_auto].
  apply Forall_iff_pointwise. intros doc. unfold Rev1.mainDocument.
  apply object_silent; [apply validatePod_silent_1|]. by intros [?%fieldIs_mapping _].
Qed.

Lemma mainLoop_silent_2 docs rep :
  Rev2.mainLoop docs rep = Ok (tt, rep) <-> Forall podPasses docs.
Proof.
  unfold Rev2.mainLoop. rewrite forRange_silent; [|intros; unfold Rev2.mainDocument; framed_auto].
  apply Forall_iff_pointwise. intros doc. unfold Rev2.mainDocument.
  apply object_silent; [apply validatePod_silent_2|]. by intros [?%fieldIs_mapping _].
Qed.

(** X12: one turn of the loop over the containers appends nothing
    exactly when the container has a snake-case string for a name that
    was not seen before, an image of the registry, a [resources]
    mapping that passes, and ports and probes that pass where it has
    any; the name is then added to the names seen.  Both revisions. *)
Theorem container_passes (item : Node) (seen seen' : gset string) (rep : reporter) :
  (Rev1.containersItem item seen rep = Ok (seen', rep) <-> turnPasses item seen seen')
  /\ (Rev2.containersItem item seen rep = Ok (seen', rep) <-> turnPasses item seen seen').
Proof. split; [apply containersItem_silent_1|apply containersItem_silent_2]. Qed.

(** X13: a [spec] passes without a diagnostic exactly when its [os], if
    there is one, names a known system, and its [containers] are a
    sequence that is not empty, of containers that pass, no two under
    the same name.  Both revisions. *)
Theorem spec_passes (n : Node) (rep : reporter) :
  (Rev1.validatePodSpec n rep = Ok (tt, rep) <-> specPasses n)
  /\ (Rev2.validatePodSpec n rep = Ok (tt, rep) <-> specPasses n).
Proof. split; [apply validatePodSpec_silent_1|apply validatePodSpec_silent_2]. Qed.

(** X14: the loop of [main] over the documents appends nothing exactly
    when every document is a Pod that passes: [apiVersion] is [v1],
    [kind] is [Pod], and [metadata] and [spec] pass.  Both revisions
    accept the same documents, whatever the reporter holds. *)
Theorem documents_pass (abs : string) (docs : list Node) (rep : reporter) :
  (Rev1.mainLoop abs docs rep = Ok (tt, rep) <-> Forall podPasses docs)
  /\ (Rev2.mainLoop docs rep = Ok (tt, rep) <-> Forall podPasses docs).
Proof. split; [apply mainLoop_silent_1|apply mainLoop_silent_2]. Qed.

(** * The exit of the program *)

Lemma no_errors_empty rep f :
  r_file rep = f -> hasErrors rep = false -> rep = {| r_file := f; errs := [] |}.
Proof.
  destruct rep as [f' es]. simpl. intros ->. unfold hasErrors. simpl.
  by destruct es.
Qed.

Lemma loop_quiet (loop : M unit) f :
  framed loop ->
  (exists rep, loop {| r_file := f; errs := [] |} = Ok (tt, rep) /\ hasErrors rep = false)
  <-> loop {| r_file := f; errs := [] |} = Ok (tt, {| r_file := f; errs := [] |}).
Proof.
  intros Hf. split.
  - intros (rep & Hl & He).
    destruct (framed_monotone _ _ _ _ Hf Hl) as (Hfile & _). simpl in Hfile.
    rewrite Hl. by rewrite (no_errors_empty rep f Hfile He).
  - intros Hl. by eexists.
Qed.

Lemma mainReport_quiet_1 file abs docs :
  Rev1.mainReport file abs docs = Ok quiet <-> Forall podPasses docs.
Proof.
  rewrite <- (mainLoop_silent_1 abs docs {| r_file := file; errs := [] |}).
  rewrite <- (loop_quiet _ _ (framed_mainLoop_1 abs docs)).
  unfold Rev1.mainReport.
  destruct (Rev1.mainLoop abs docs _) as [[[] rep]|]; [|split; [done|by intros (? & ? & _)]].
  destruct (hasErrors rep) eqn:He.
  - split; [done|]. intros (rep' & [= <-] & ?). congruence.
  - split; [intros _; by exists rep|done].
Qed.

Lemma mainReport_quiet_2 base docs :
  Rev2.mainReport base docs = Ok quiet <-> Forall podPasses docs.
Proof.
  rewrite <- (mainLoop_silent_2 docs {| r_file := base; errs := [] |}).
  rewrite <- (loop_quiet _ _ (framed_mainLoop_2 docs)).
  unfold Rev2.mainReport.
  destruct (Rev2.mainLoop docs _) as [[[] rep]|]; [|split; [done|by intros (? & ? & _)]].
  destruct (hasErrors rep) eqn:He.
  - split; [done|]. intros (rep' & [= <-] & ?). congruence.
  - split; [intros _; by exists rep|done].
Qed.

Lemma map_not_nil {A B} (f : A -> B) l : l <> [] -> List.map f l <> [].
Proof. by destruct l. Qed.

(** X15: the program exits with status 0, having written nothing,
    exactly when every document is a Pod that passes; otherwise, unless
    it panics, it exits with status 1 after writing at least one line,
    the first revision to the standard error and the second to the
    standard output. *)
Theorem exit_status (file abs base : string) (docs : list Node) :
  (Rev1.mainReport file abs docs = Ok quiet <-> Forall podPasses docs)
  /\ (Rev2.mainReport base docs = Ok quiet <-> Forall podPasses docs)
  /\ (forall o, Rev1.mainReport file abs docs = Ok o ->
        o = quiet \/ (status o = 1 /\ stdout o = [] /\ stderr o <> []))
  /\ (forall o, Rev2.mainReport base docs = Ok o ->
        o = quiet \/ (status o = 1 /\ stderr o = [] /\ stdout o <> [])).
Proof.
  split; [apply mainReport_quiet_1|]. split; [apply mainReport_quiet_2|]. split.
  - intros o. unfold Rev1.mainReport.
    destruct (Rev1.mainLoop abs docs _) as [[[] rep]|]; [|done].
    destruct (hasErrors rep) eqn:He; intros [= <-]; [right|by left].
    simpl. split; [done|]. split; [done|].
    apply map_not_nil. by apply hasErrors_iff.
  - intros o. unfold Rev2.mainReport.
    destruct (Rev2.mainLoop docs _) as [[[] rep]|]; [|done].
    destruct (hasErrors rep) eqn:He; intros [= <-]; [right|by left].
    simpl. split; [done|]. split; [done|].
    apply map_not_nil. by apply hasErrors_iff.
Qed.



(** * Where the diagnostics point *)

Lemma emits_ret {A} P (a : A) : emits P (ret a).
Proof.
  intros rep a' rep' [= <- <-]. exists []. split; [by rewrite appendErrs_nil|constructor].
Qed.

Lemma emits_skip P : emits P skip.
Proof. apply emits_ret. Qed.

Lemma emits_lift {A} P (r : result A) : emits P (lift r).
Proof.
  intros rep a rep'. unfold lift. destruct r; [|done]. intros [= <- <-].
  exists []. split; [by rewrite appendErrs_nil|constructor].
Qed.

Lemma emits_panic {A} P : emits P (fun _ : reporter => @Panic (A * reporter)).
Proof. by intros rep a rep'. Qed.

Lemma emits_add (P : string -> errOut -> Prop) l m :
  (forall f, P f (mkErrOut f l m)) -> emits P (add l m).
Proof.
  intros HP rep [] rep' [= <-]. eexists [_]. split; [done|].
  apply Forall_cons. split; [apply HP|constructor].
Qed.

Lemma emits_bind {A B} P (m : M A) (k : A -> M B) :
  emits P m -> (forall a, emits P (k a)) -> emits P (bind m k).
Proof.
  intros Hm Hk rep b rep'. unfold bind.
  destruct (m rep) as [[a r1]|] eqn:H1; [|done]. intros H2.
  destruct (Hm _ _ _ H1) as (ds1 & -> & F1).
  destruct (Hk a _ _ _ H2) as (ds2 & -> & F2). simpl in F2.
  exists (ds1 ++ ds2). split; [by rewrite appendErrs_app|]. by apply Forall_app.
Qed.

Lemma emits_weaken {A} (P Q : string -> errOut -> Prop) (m : M A) :
  (forall f e, P f e -> Q f e) -> emits P m -> emits Q m.
Proof.
  intros HPQ Hm rep a rep' Hrun. destruct (Hm _ _ _ Hrun) as (ds & -> & F).
  exists ds. split; [done|]. eapply Forall_impl; [exact F|]. intros e. apply HPQ.
Qed.

Lemma emits_forRange {A} P (body : A -> M unit) l :
  (forall x, In x l -> emits P (body x)) -> emits P (forRange body l).
Proof.
  induction l as [|x l IH]; intros Hb; simpl.
  - apply emits_skip.
  - apply emits_bind; [apply Hb; by left|]. intros _. apply IH.
    intros y Hy. apply Hb. by right.
Qed.

Lemma emits_foldRange {A S} P (body : A -> S -> M S) l :
  (forall x s, In x l -> emits P (body x s)) -> forall s, emits P (foldRange body l s).
Proof.
  induction l as [|x l IH]; intros Hb s; simpl.
  - apply emits_ret.
  - apply emits_bind; [apply Hb; by left|]. intros s'. apply IH.
    intros y s'' Hy. apply Hb. by right.
Qed.

Lemma emits_forPairs P body c :
  (forall k v, In k c -> In v c -> emits P (body k v)) -> emits P (forPairs body c).
Proof.
  induction c as [|k|k v rest IH] using pairs_ind; intros Hb.
  - apply emits_skip.
  - apply emits_panic.
  - change (forPairs body (k :: v :: rest)) with (body k v >> forPairs body rest).
    apply emits_bind; [apply Hb; simpl; auto|]. intros _. apply IH.
    intros k' v' Hk Hv. apply Hb; simpl; auto.
Qed.

(** A block on a field: the value found is a child of the node. *)
Lemma emits_field {A} P n key (k : option Node -> M A) :
  (forall v, In v (Content n) -> emits P (k (Some v))) ->
  emits P (k None) ->
  emits P (bind (lift (getField n key)) k).
Proof.
  intros Hs Hn. unfold bind, lift. intros rep a rep'.
  destruct (getField n key) as [[v|]|] eqn:Hf; [| |done].
  - apply Hs. by apply getField_In in Hf.
  - apply Hn.
Qed.

Lemma linesOf_here n : In (Line n) (linesOf n).
Proof. destruct n. by left. Qed.

Lemma linesOf_child v n l : In v (Content n) -> In l (linesOf v) -> In l (linesOf n).
Proof.
  destruct n as [k t s ln c]. simpl. intros Hv Hl. right.
  apply in_flat_map. by exists v.
Qed.

Lemma anchored_line n f l m : In l (linesOf n) -> anchored n f (mkErrOut f l m).
Proof. intros H. split; [done|]. by right. Qed.

Lemma anchored_required n f fld : anchored n f (mkErrOut f 0 (fld +:+ " is required")).
Proof. split; [done|]. left. split; [done|]. by exists fld. Qed.

Lemma anchored_child v n f e : In v (Content n) -> anchored v f e -> anchored n f e.
Proof.
  intros Hv [Hf [H|H]]; split; try done; [by left|right].
  by apply (linesOf_child v).
Qed.

Lemma emits_child {A} v n (m : M A) :
  In v (Content n) -> emits (anchored v) m -> emits (anchored n) m.
Proof. intros Hv. apply emits_weaken. intros f e. by apply anchored_child. Qed.

Lemma emits_addRequired_1 n fld : emits (anchored n) (Rev1.addRequired fld).
Proof.
  intros rep [] rep' [= <-]. eexists [_]. split; [done|].
  apply Forall_cons. split; [apply anchored_required|constructor].
Qed.

Lemma emits_addRequiredNoLine_2 n fld : emits (anchored n) (Rev2.addRequiredNoLine fld).
Proof.
  intros rep [] rep' [= <-]. eexists [_]. split; [done|].
  apply Forall_cons. split; [apply anchored_required|constructor].
Qed.

Lemma emits_addRequiredAt_2 n l fld :
  In l (linesOf n) -> emits (anchored n) (Rev2.addRequiredAt l fld).
Proof.
  intros Hl rep [] rep' [= <-]. eexists [_]. split; [done|].
  apply Forall_cons. split; [by apply anchored_line|constructor].
Qed.

Create HintDb lines discriminated.
#[global] Hint Resolve linesOf_here linesOf_child : lines.

Create HintDb emits discriminated.
#[global] Hint Resolve emits_addRequired_1 emits_addRequiredNoLine_2 : emits.

Ltac lines_solve := solve [ eauto 6 with lines ].

Ltac emits_step :=
  match goal with
  | |- emits _ (bind (lift (getField _ _)) _) => apply emits_field; [intros ? ?|]
  | |- emits _ (bind _ _) => apply emits_bind; [|intros ?]
  | |- emits _ (ret _) => apply emits_ret
  | |- emits _ skip => apply emits_skip
  | |- emits _ (add _ _) => apply emits_add; intros ?; apply anchored_line; lines_solve
  | |- emits _ (Rev2.addRequiredAt _ _) => apply emits_addRequiredAt_2; lines_solve
  | |- emits _ (forRange _ _) => apply emits_forRange; intros ? ?
  | |- emits _ (forPairs _ _) => apply emits_forPairs; intros ? ? ? ?
  | |- emits _ (foldRange _ _ _) => apply emits_foldRange; intros ? ? ?
  | |- emits _ (match Rev1.asInt ?x with _ => _ end) =>
      let H := fresh in
      pose proof (asInt_line_1 x) as H;
      destruct (Rev1.asInt x) as [[? ?] [?|]]; simpl in H; subst
  | |- emits _ (match Rev2.asInt ?x with _ => _ end) =>
      let H := fresh in
      pose proof (asInt_line_2 x) as H;
      destruct (Rev2.asInt x) as [[? ?] [?|]]; simpl in H; subst
  | |- emits _ (if ?b then _ else _) => destruct b
  | |- emits _ (match ?x with _ => _ end) => destruct x
  end.

Ltac emits_down :=
  first
    [ solve [auto with emits]
    | match goal with
      | H : In ?v (Content ?n) |- emits (anchored ?n) _ =>
          apply (emits_child v n _ H); emits_down
      end ].

Ltac emits_auto := repeat (first [ solve [auto with emits] | emits_step | emits_down ]).

Lemma emits_validateResKV_1 n prefix : emits (anchored n) (Rev1.validateResKV n prefix).
Proof. unfold Rev1.validateResKV, Rev1.resKVBody. emits_auto. Qed.
#[global] Hint Resolve emits_validateResKV_1 : emits.

Lemma emits_validateResKV_2 n prefix : emits (anchored n) (Rev2.validateResKV n prefix).
Proof. unfold Rev2.validateResKV, Rev2.resKVBody. emits_auto. Qed.
#[global] Hint Resolve emits_validateResKV_2 : emits.

Lemma emits_validateResources_1 n : emits (anchored n) (Rev1.validateResources n).
Proof. unfold Rev1.validateResources. emits_auto. Qed.
#[global] Hint Resolve emits_validateResources_1 : emits.

Lemma emits_validateProbe_1 n prefix : emits (anchored n) (Rev1.validateProbe n prefix).
Proof. unfold Rev1.validateProbe. emits_auto. Qed.
#[global] Hint Resolve emits_validateProbe_1 : emits.

Lemma emits_validateContainerPort_1 n : emits (anchored n) (Rev1.validateContainerPort n).
Proof.
  unfold Rev1.validateContainerPort, Rev1.portContainerPort, Rev1.portProtocol. emits_auto.
Qed.
#[global] Hint Resolve emits_validateContainerPort_1 : emits.

Lemma emits_containerName_1 item seen : emits (anchored item) (Rev1.containerName item seen).
Proof. unfold Rev1.containerName. emits_auto. Qed.
#[global] Hint Resolve emits_containerName_1 : emits.

Lemma emits_containerFields_1 item : emits (anchored item) (Rev1.containerFields item).
Proof.
  unfold Rev1.containerFields, Rev1.containerImage, Rev1.containerPorts, Rev1.portsItem,
    Rev1.containerProbe, Rev1.containerResources.
  emits_auto.
Qed.
#[global] Hint Resolve emits_containerFields_1 : emits.

Lemma emits_containersItem_1 item seen : emits (anchored item) (Rev1.containersItem item seen).
Proof. unfold Rev1.containersItem, Rev1.containerBody. emits_auto. Qed.
#[global] Hint Resolve emits_containersItem_1 : emits.

Lemma emits_validatePodSpec_1 n : emits (anchored n) (Rev1.validatePodSpec n).
Proof. unfold Rev1.validatePodSpec, Rev1.specOs, Rev1.specContainers. emits_auto. Qed.
#[global] Hint Resolve emits_validatePodSpec_1 : emits.

Lemma emits_validateObjectMeta_1 n : emits (anchored n) (Rev1.validateObjectMeta n).
Proof.
  unfold Rev1.validateObjectMeta, Rev1.metaName, Rev1.metaNamespace, Rev1.metaLabels,
    Rev1.labelsBody.
  emits_auto.
Qed.
#[global] Hint Resolve emits_validateObjectMeta_1 : emits.

Lemma emits_validatePod_1 filename doc : emits (anchored doc) (Rev1.validatePod filename doc).
Proof.
  unfold Rev1.validatePod, Rev1.podApiVersion, Rev1.podKind, Rev1.podMetadata, Rev1.podSpec.
  emits_auto.
Qed.
#[global] Hint Resolve emits_validatePod_1 : emits.

Lemma emits_mainDocument_1 abs doc : emits (anchored doc) (Rev1.mainDocument abs doc).
Proof. unfold Rev1.mainDocument. emits_auto. Qed.

Lemma emits_mainLoop_1 abs docs :
  emits (fun f e => exists doc, In doc docs /\ anchored doc f e) (Rev1.mainLoop abs docs).
Proof.
  unfold Rev1.mainLoop. apply emits_forRange. intros doc Hdoc.
  apply (emits_weaken (anchored doc)); [|apply emits_mainDocument_1].
  intros f e He. by exists doc.
Qed.

Lemma emits_validateResources_2 n : emits (anchored n) (Rev2.validateResources n).
Proof. unfold Rev2.validateResources. emits_auto. Qed.
#[global] Hint Resolve emits_validateResources_2 : emits.

Lemma emits_validateProbe_2 n prefix : emits (anchored n) (Rev2.validateProbe n prefix).
Proof. unfold Rev2.validateProbe. emits_auto. Qed.
#[global] Hint Resolve emits_validateProbe_2 : emits.

Lemma emits_validateContainerPort_2 n : emits (anchored n) (Rev2.validateContainerPort n).
Proof.
  unfold Rev2.validateContainerPort, Rev2.portContainerPort, Rev2.portProtocol. emits_auto.
Qed.
#[global] Hint Resolve emits_validateContainerPort_2 : emits.

Lemma emits_containerName_2 item seen : emits (anchored item) (Rev2.containerName item seen).
Proof. unfold Rev2.containerName. emits_auto. Qed.
#[global] Hint Resolve emits_containerName_2 : emits.

Lemma emits_containerFields_2 item : emits (anchored item) (Rev2.containerFields item).
Proof.
  unfold Rev2.containerFields, Rev2.containerImage, Rev2.containerPorts, Rev2.portsItem,
    Rev2.containerProbe, Rev2.containerResources.
  emits_auto.
Qed.
#[global] Hint Resolve emits_containerFields_2 : emits.

Lemma emits_containersItem_2 item seen : emits (anchored item) (Rev2.containersItem item seen).
Proof. unfold Rev2.containersItem, Rev2.validateContainer. emits_auto. Qed.
#[global] Hint Resolve emits_containersItem_2 : emits.

Lemma emits_validatePodSpec_2 n : emits (anchored n) (Rev2.validatePodSpec n).
Proof. unfold Rev2.validatePodSpec, Rev2.specOs, Rev2.specContainers. emits_auto. Qed.
#[global] Hint Resolve emits_validatePodSpec_2 : emits.

Lemma emits_validateObjectMeta_2 n : emits (anchored n) (Rev2.validateObjectMeta n).
Proof.
  unfold Rev2.validateObjectMeta, Rev2.metaName, Rev2.metaNamespace, Rev2.metaLabels,
    Rev2.labelsBody.
  emits_auto.
Qed.
#[global] Hint Resolve emits_validateObjectMeta_2 : emits.

Lemma emits_validatePod_2 doc : emits (anchored doc) (Rev2.validatePod doc).
Proof.
  unfold Rev2.validatePod, Rev2.podApiVersion, Rev2.podKind, Rev2.podMetadata, Rev2.podSpec.
  emits_auto.
Qed.
#[global] Hint Resolve emits_validatePod_2 : emits.

Lemma emits_mainDocument_2 doc : emits (anchored doc) (Rev2.mainDocument doc).
Proof. unfold Rev2.mainDocument. emits_auto. Qed.

Lemma emits_mainLoop_2 docs :
  emits (fun f e => exists doc, In doc docs /\ anchored doc f e) (Rev2.mainLoop docs).
Proof.
  unfold Rev2.mainLoop. apply emits_forRange. intros doc Hdoc.
  apply (emits_weaken (anchored doc)); [|apply emits_mainDocument_2].
  intros f e He. by exists doc.
Qed.

Lemma emits_diags {A} P (m : M A) f e :
  emits P m -> In e (diags m f) -> P f e.
Proof.
  intros Hm. unfold diags.
  destruct (m {| r_file := f; errs := [] |}) as [[a r]|] eqn:Hrun; [|done].
  destruct (Hm _ _ _ Hrun) as (ds & -> & F). simpl.
  intros He. by apply (proj1 (List.Forall_forall _ _) F).
Qed.

(** X16: every diagnostic of a run carries the name of the file of the
    reporter and belongs to one of the documents: it has the form
    without a line, [<field> is required], or it stands on the line of
    a node of that document.  Both revisions. *)
Theorem diagnostics_anchored (abs : string) (docs : list Node) (f : string) (e : errOut) :
  In e (diags (Rev1.mainLoop abs docs) f) \/ In e (diags (Rev2.mainLoop docs) f) ->
  exists doc, In doc docs /\ anchored doc f e.
Proof.
  intros [He|He].
  - apply (emits_diags _ _ _ _ (emits_mainLoop_1 abs docs) He).
  - apply (emits_diags _ _ _ _ (emits_mainLoop_2 docs) He).
Qed.

Lemma diagnostics_anchored_witness :
  exists doc, In doc [ str "x" 3 ]
              /\ anchored doc "pod.yaml" (mkErrOut "pod.yaml" 3 "root must be object").
Proof.
  apply (diagnostics_anchored "/srv/pod.yaml" [ str "x" 3 ] "pod.yaml").
  right. vm_compute. by left.
Defined.

(** * What is written *)

Lemma diags_run {A} (m : M A) f a rep :
  m {| r_file := f; errs := [] |} = Ok (a, rep) -> diags m f = errs rep.
Proof. intros H. unfold diags. by rewrite H. Qed.

Lemma hasErrors_status r :
  (if hasErrors r then 1 else 0) = statusOf (errs r).
Proof. unfold hasErrors. by destruct (errs r). Qed.

(** X17: what a run writes and how it exits follow from the diagnostics
    of the loop over the documents: one text for each diagnostic, in
    order, under the name given to the reporter, on the standard error
    in the first revision and on the standard output in the second;
    the status is 1 when there is a diagnostic and 0 when there is
    none. *)
Theorem report_renders (file abs base : string) (docs : list Node) :
  (forall o, Rev1.mainReport file abs docs = Ok o ->
     o = {| stdout := [];
            stderr := List.map (render file) (diags (Rev1.mainLoop abs docs) file);
            status := statusOf (diags (Rev1.mainLoop abs docs) file) |})
  /\ (forall o, Rev2.mainReport base docs = Ok o ->
        o = {| stdout := List.map (render base) (diags (Rev2.mainLoop docs) base);
               stderr := [];
               status := statusOf (diags (Rev2.mainLoop docs) base) |}).
Proof.
  split; intros o.
  - unfold Rev1.mainReport.
    destruct (Rev1.mainLoop abs docs _) as [[[] rep]|] eqn:Hl; [|done].
    rewrite (diags_run _ _ _ _ Hl).
    destruct (framed_monotone _ _ _ _ (framed_mainLoop_1 abs docs) Hl) as (Hfile & _).
    simpl in Hfile. unfold Rev1.flushToStderr. rewrite Hfile.
    unfold hasErrors. destruct (errs rep); simpl; by intros [= <-].
  - unfold Rev2.mainReport.
    destruct (Rev2.mainLoop docs _) as [[[] rep]|] eqn:Hl; [|done].
    rewrite (diags_run _ _ _ _ Hl).
    assert (Rev2.flushToStdout rep = List.map (render base) (errs rep)) as ->.
    { unfold Rev2.flushToStdout. apply map_ext_in. intros e He.
      rewrite <- (diags_run _ _ _ _ Hl) in He.
      destruct (emits_diags _ _ _ _ (emits_mainLoop_2 docs) He) as (doc & _ & <- & _).
      done. }
    unfold hasErrors. destruct (errs rep); simpl; by intros [= <-].
Qed.

(** * One document after the other *)

Lemma diags_skip f : diags skip f = [].
Proof. done. Qed.





(** * Fields that are not read *)

Lemma getFieldLoop_extra pre k v post key :
  Nat.even (length pre) = true -> ~ isKey key k ->
  getFieldLoop (pre ++ k :: v :: post) key = getFieldLoop (pre ++ post) key.
Proof.
  intros Hev Hk. induction pre as [|x|x y pre IH] using pairs_ind; simpl.
  - destruct (isScalar k && (Value k =? key)%string) eqn:Ht; [|done].
    by apply isKey_test in Ht.
  - done.
  - destruct (isScalar x && (Value x =? key)%string); [done|]. by apply IH.
Qed.

Lemma getField_extra n n' k keys key :
  extends n n' k -> unread keys k -> In key keys ->
  getField n' key = getField n key.
Proof.
  intros (Hn & Hn' & _ & pre & v & post & Hc & Hc' & Hev) Hu Hin.
  unfold getField. rewrite (isMapping_true _ Hn), (isMapping_true _ Hn'). simpl.
  rewrite Hc, Hc'. apply getFieldLoop_extra; [done|].
  by apply (proj1 (List.Forall_forall _ _) Hu).
Qed.

Ltac same_fields He Hu :=
  repeat (rewrite (getField_extra _ _ _ _ _ He Hu) by (simpl; tauto)); reflexivity.

(** X19: a pair more in a mapping changes nothing to what the validators
    do when its key is none of the fields that the validator of that
    mapping reads: a Pod, its metadata, its spec, a container, a port,
    a probe, its [httpGet] and the resources are all open to fields
    they do not know.  Both revisions. *)
Theorem unread_fields_ignored (n n' k : Node) (rep : reporter) :
  extends n n' k ->
  (unread [ "apiVersion"; "kind"; "metadata"; "spec" ] k ->
     (forall f, Rev1.validatePod f n' rep = Rev1.validatePod f n rep)
     /\ Rev2.validatePod n' rep = Rev2.validatePod n rep)
  /\ (unread [ "name"; "namespace"; "labels" ] k ->
        Rev1.validateObjectMeta n' rep = Rev1.validateObjectMeta n rep
        /\ Rev2.validateObjectMeta n' rep = Rev2.validateObjectMeta n rep)
  /\ (unread [ "os"; "containers" ] k ->
        Rev1.validatePodSpec n' rep = Rev1.validatePodSpec n rep
        /\ Rev2.validatePodSpec n' rep = Rev2.validatePodSpec n rep)
  /\ (unread [ "name"; "image"; "ports"; "readinessProbe"; "livenessProbe"; "resources" ] k ->
        forall seen,
          Rev1.containersItem n' seen rep = Rev1.containersItem n seen rep
          /\ Rev2.containersItem n' seen rep = Rev2.containersItem n seen rep)
  /\ (unread [ "containerPort"; "protocol" ] k ->
        Rev1.validateContainerPort n' rep = Rev1.validateContainerPort n rep
        /\ Rev2.validateContainerPort n' rep = Rev2.validateContainerPort n rep)
  /\ (unread [ "httpGet" ] k ->
        forall prefix,
          Rev1.validateProbe n' prefix rep = Rev1.validateProbe n prefix rep
          /\ Rev2.validateProbe n' prefix rep = Rev2.validateProbe n prefix rep)
  /\ (unread [ "limits"; "requests" ] k ->
        Rev1.validateResources n' rep = Rev1.validateResources n rep
        /\ Rev2.validateResources n' rep = Rev2.validateResources n rep).
Proof.
  intros He.
  pose proof He as (Hn & Hn' & Hl & _).
  pose proof (isMapping_true _ Hn) as Hm. pose proof (isMapping_true _ Hn') as Hm'.
  repeat split; intros.
  - unfold Rev1.validatePod, Rev1.podApiVersion, Rev1.podKind, Rev1.podMetadata, Rev1.podSpec.
    same_fields He H.
  - unfold Rev2.validatePod, Rev2.podApiVersion, Rev2.podKind, Rev2.podMetadata, Rev2.podSpec.
    same_fields He H.
  - unfold Rev1.validateObjectMeta, Rev1.metaName, Rev1.metaNamespace, Rev1.metaLabels.
    same_fields He H.
  - unfold Rev2.validateObjectMeta, Rev2.metaName, Rev2.metaNamespace, Rev2.metaLabels.
    same_fields He H.
  - unfold Rev1.validatePodSpec, Rev1.specOs, Rev1.specContainers. same_fields He H.
  - unfold Rev2.validatePodSpec, Rev2.specOs, Rev2.specContainers. same_fields He H.
  - unfold Rev1.containersItem, Rev1.containerBody, Rev1.containerName, Rev1.containerFields,
      Rev1.containerImage, Rev1.containerPorts, Rev1.containerProbe, Rev1.containerResources.
    rewrite Hm, Hm'. same_fields He H.
  - unfold Rev2.containersItem, Rev2.validateContainer, Rev2.containerName,
      Rev2.containerFields, Rev2.containerImage, Rev2.containerPorts, Rev2.containerProbe,
      Rev2.containerResources.
    rewrite Hm, Hm'. same_fields He H.
  - unfold Rev1.validateContainerPort, Rev1.portContainerPort, Rev1.portProtocol.
    same_fields He H.
  - unfold Rev2.validateContainerPort, Rev2.portContainerPort, Rev2.portProtocol.
    same_fields He H.
  - unfold Rev1.validateProbe. rewrite Hm, Hm'. same_fields He H.
  - unfold Rev2.validateProbe. rewrite Hm, Hm'. same_fields He H.
  - unfold Rev1.validateResources. rewrite Hm, Hm'. same_fields He H.
  - unfold Rev2.validateResources. rewrite Hm, Hm'. same_fields He H.
Qed.

Lemma unread_fields_ignored_witness :
  (forall f, Rev1.validatePod f fiveFields (emptyReporter "pod.yaml")
             = Rev1.validatePod f fourFields (emptyReporter "pod.yaml"))
  /\ Rev2.validatePod fiveFields (emptyReporter "pod.yaml")
     = Rev2.validatePod fourFields (emptyReporter "pod.yaml").
Proof.
  apply (unread_fields_ignored fourFields fiveFields (str "status" 7) (emptyReporter "pod.yaml")).
  - split; [done|]. split; [done|]. split; [done|].
    exists [ str "apiVersion" 1; str "v1" 1; str "kind" 2; str "Pod" 2 ], (str "Running" 7),
      [ str "metadata" 3; mapping 4 []; str "spec" 5; mapping 6 [] ].
    by repeat split.
  - repeat constructor; by intros [_ ?].
Defined.


(** * The two revisions side by side *)

Lemma sameLines_ret {A} (a : A) : sameLines (ret a) (ret a).
Proof.
  intros rep1 rep2 _. simpl. split; [done|]. exists [], [].
  by rewrite !appendErrs_nil.
Qed.

Lemma sameLines_skip : sameLines skip skip.
Proof. apply sameLines_ret. Qed.

Lemma sameLines_panic {A} :
  sameLines (fun _ : reporter => @Panic (A * reporter)) (fun _ => Panic).
Proof. by intros rep1 rep2 _. Qed.

Lemma sameLines_emit (m1 m2 : M unit) l :
  (forall rep, exists e, line e = l /\ m1 rep = Ok (tt, appendErrs rep [e])) ->
  (forall rep, exists e, line e = l /\ m2 rep = Ok (tt, appendErrs rep [e])) ->
  sameLines m1 m2.
Proof.
  intros H1 H2 rep1 rep2 _.
  destruct (H1 rep1) as (e1 & L1 & ->), (H2 rep2) as (e2 & L2 & ->).
  split; [done|]. exists [e1], [e2]. split; [done|]. split; [done|].
  simpl. by rewrite L1, L2.
Qed.

Lemma emit_add l m rep : exists e, line e = l /\ add l m rep = Ok (tt, appendErrs rep [e]).
Proof. by eexists (mkErrOut _ l m). Qed.

Lemma emit_addRequired_1 fld rep :
  exists e, line e = 0 /\ Rev1.addRequired fld rep = Ok (tt, appendErrs rep [e]).
Proof. by eexists (mkErrOut _ 0 _). Qed.

Lemma emit_addRequiredNoLine_2 fld rep :
  exists e, line e = 0 /\ Rev2.addRequiredNoLine fld rep = Ok (tt, appendErrs rep [e]).
Proof. by eexists (mkErrOut _ 0 _). Qed.

Lemma emit_addRequiredAt_2 l fld rep :
  exists e, line e = l /\ Rev2.addRequiredAt l fld rep = Ok (tt, appendErrs rep [e]).
Proof. by eexists (mkErrOut _ l _). Qed.

Lemma sameLines_bind {A B} (m1 m2 : M A) (k1 k2 : A -> M B) :
  sameLines m1 m2 -> (forall a, sameLines (k1 a) (k2 a)) ->
  sameLines (bind m1 k1) (bind m2 k2).
Proof.
  intros Hm Hk rep1 rep2 Hf. unfold bind. specialize (Hm rep1 rep2 Hf).
  destruct (m1 rep1) as [[a1 r1]|], (m2 rep2) as [[a2 r2]|]; try done.
  destruct Hm as (<- & ds1 & ds2 & -> & -> & HP).
  specialize (Hk a1 (appendErrs rep1 ds1) (appendErrs rep2 ds2) Hf).
  destruct (k1 a1 _) as [[b1 s1]|], (k2 a1 _) as [[b2 s2]|]; try done.
  destruct Hk as (<- & es1 & es2 & -> & -> & HQ).
  split; [done|]. exists (ds1 ++ es1), (ds2 ++ es2).
  rewrite !appendErrs_app, !map_app. split; [done|]. split; [done|].
  by apply Permutation_app.
Qed.

Lemma sameLines_lift {A} (r : result A) : sameLines (lift r) (lift r).
Proof.
  intros rep1 rep2 _. unfold lift. destruct r; [|done].
  split; [done|]. exists [], []. by rewrite !appendErrs_nil.
Qed.

(** A computation that is append-only reports on the same lines as
    itself. *)
Lemma sameLines_refl {A} (m : M A) : framed m -> sameLines m m.
Proof.
  intros Hm rep1 rep2 Hf. rewrite (Hm rep1), (Hm rep2), Hf.
  destruct (m _) as [[a r0]|]; [|done].
  split; [done|]. by exists (errs r0), (errs r0).
Qed.

Lemma sameLines_ext_r {A} (m1 m2 m2' : M A) :
  (forall rep, m2 rep = m2' rep) -> sameLines m1 m2' -> sameLines m1 m2.
Proof. intros He H rep1 rep2 Hf. rewrite He. by apply H. Qed.

Lemma sameLines_forRange {A} (b1 b2 : A -> M unit) l :
  (forall x, sameLines (b1 x) (b2 x)) -> sameLines (forRange b1 l) (forRange b2 l).
Proof.
  intros Hb. induction l as [|x l IH]; simpl.
  - apply sameLines_skip.
  - apply sameLines_bind; [apply Hb|]. intros _. apply IH.
Qed.

Lemma sameLines_foldRange {A S} (b1 b2 : A -> S -> M S) l :
  (forall x s, sameLines (b1 x s) (b2 x s)) ->
  forall s, sameLines (foldRange b1 l s) (foldRange b2 l s).
Proof.
  intros Hb. induction l as [|x l IH]; intros s; simpl.
  - apply sameLines_ret.
  - apply sameLines_bind; [apply Hb|]. intros s'. apply IH.
Qed.

Lemma sameLines_forPairs b1 b2 c :
  (forall k v, sameLines (b1 k v) (b2 k v)) -> sameLines (forPairs b1 c) (forPairs b2 c).
Proof.
  intros Hb. induction c as [|k|k v rest IH] using pairs_ind.
  - apply sameLines_skip.
  - apply sameLines_panic.
  - change (sameLines (b1 k v >> forPairs b1 rest) (b2 k v >> forPairs b2 rest)).
    apply sameLines_bind; [apply Hb|]. intros _. apply IH.
Qed.

Lemma sameLines_asInt (x : Node) (k1 k2 : Z * Z * option error -> M unit) :
  (forall v e, sameLines (k1 (v, Line x, Some e)) (k2 (0, Line x, Some ErrNotInt))) ->
  (forall v, sameLines (k1 (v, Line x, None)) (k2 (v, Line x, None))) ->
  (forall v w l e e', k1 (v, l, Some e) = k1 (w, l, Some e')) ->
  (forall v w l e e', k2 (v, l, Some e) = k2 (w, l, Some e')) ->
  sameLines (k1 (Rev1.asInt x)) (k2 (Rev2.asInt x)).
Proof.
  intros He Hn Hk1 Hk2.
  destruct (asInt_agree x) as (_ & Herr & Hsame).
  pose proof (asInt_line_1 x) as L1. pose proof (asInt_line_2 x) as L2.
  destruct (Rev1.asInt x) as [[v1 l1] [e1|]] eqn:E1; simpl in *; subst l1.
  - destruct (Rev2.asInt x) as [[v2 l2] [e2|]] eqn:E2; simpl in *; subst l2; [|done].
    rewrite (Hk2 v2 0 (Line x) e2 ErrNotInt). apply He.
  - rewrite <- (Hsame eq_refl). apply Hn.
Qed.

Ltac sameLines_step :=
  match goal with
  | |- sameLines (bind _ _) (bind _ _) => apply sameLines_bind; [|intros ?]
  | |- sameLines (lift ?r) (lift ?r) => apply sameLines_lift
  | |- sameLines (ret ?a) (ret ?a) => apply sameLines_ret
  | |- sameLines skip skip => apply sameLines_skip
  | |- sameLines (forRange _ ?l) (forRange _ ?l) => apply sameLines_forRange; intros ?
  | |- sameLines (forPairs _ ?l) (forPairs _ ?l) => apply sameLines_forPairs; intros ? ?
  | |- sameLines (foldRange _ ?l ?s) (foldRange _ ?l ?s) =>
      apply sameLines_foldRange; intros ? ?
  | |- sameLines (match Rev1.asInt ?x with _ => _ end) (match Rev2.asInt ?x with _ => _ end) =>
      apply (sameLines_asInt x
               (fun r => match r with (ival, l, Some _) => _ | (ival, l, None) => _ end)
               (fun r => match r with (ival, l, Some _) => _ | (ival, l, None) => _ end));
      [intros ? ?|intros ?|done|done]
  | |- sameLines (if ?b then _ else _) (if ?b then _ else _) => destruct b
  | |- sameLines (match ?x with _ => _ end) (match ?x with _ => _ end) => destruct x
  | |- sameLines _ _ =>
      eapply sameLines_emit;
      [ intros ?;
        first [apply emit_add|apply emit_addRequired_1|apply emit_addRequiredNoLine_2
              |apply emit_addRequiredAt_2]
      | intros ?;
        first [apply emit_add|apply emit_addRequired_1|apply emit_addRequiredNoLine_2
              |apply emit_addRequiredAt_2] ]
  end.

Ltac sameLines_auto := repeat (first [ solve [auto with sameLines] | sameLines_step ]).

Create HintDb sameLines discriminated.

Lemma sameLines_validateResKV n prefix :
  sameLines (Rev1.validateResKV n prefix) (Rev2.validateResKV n prefix).
Proof.
  unfold Rev1.validateResKV, Rev2.validateResKV, Rev1.resKVBody, Rev2.resKVBody.
  sameLines_auto.
Qed.
#[global] Hint Resolve sameLines_validateResKV : sameLines.

Lemma sameLines_validateResources n :
  sameLines (Rev1.validateResources n) (Rev2.validateResources n).
Proof. unfold Rev1.validateResources, Rev2.validateResources. sameLines_auto. Qed.
#[global] Hint Resolve sameLines_validateResources : sameLines.

Lemma sameLines_validateProbe n prefix :
  sameLines (Rev1.validateProbe n prefix) (Rev2.validateProbe n prefix).
Proof. unfold Rev1.validateProbe, Rev2.validateProbe. sameLines_auto. Qed.
#[global] Hint Resolve sameLines_validateProbe : sameLines.

Lemma sameLines_validateContainerPort n :
  sameLines (Rev1.validateContainerPort n) (Rev2.validateContainerPort n).
Proof.
  unfold Rev1.validateContainerPort, Rev2.validateContainerPort,
    Rev1.portContainerPort, Rev2.portContainerPort, Rev1.portProtocol, Rev2.portProtocol.
  sameLines_auto.
Qed.
#[global] Hint Resolve sameLines_validateContainerPort : sameLines.

Lemma sameLines_containerName item seen :
  sameLines (Rev1.containerName item seen) (Rev2.containerName item seen).
Proof.
  unfold Rev1.containerName, Rev2.containerName.
  apply sameLines_bind; [apply sameLines_lift|]. intros [nm|]; [|sameLines_auto].
  destruct (notStr nm); [sameLines_auto|].
  destruct (TrimSpace (Value nm) =? "")%string; simpl; [sameLines_auto|].
  sameLines_auto.
Qed.
#[global] Hint Resolve sameLines_containerName : sameLines.

Lemma sameLines_containerFields item :
  sameLines (Rev1.containerFields item) (Rev2.containerFields item).
Proof.
  unfold Rev1.containerFields, Rev2.containerFields,
    Rev1.containerImage, Rev2.containerImage, Rev1.containerPorts, Rev2.containerPorts,
    Rev1.portsItem, Rev2.portsItem, Rev1.containerProbe, Rev2.containerProbe,
    Rev1.containerResources, Rev2.containerResources.
  sameLines_auto.
Qed.
#[global] Hint Resolve sameLines_containerFields : sameLines.

Lemma sameLines_containersItem item seen :
  sameLines (Rev1.containersItem item seen) (Rev2.containersItem item seen).
Proof.
  unfold Rev1.containersItem, Rev2.containersItem, Rev1.containerBody, Rev2.validateContainer.
  sameLines_auto.
Qed.
#[global] Hint Resolve sameLines_containersItem : sameLines.

Lemma sameLines_validatePodSpec n :
  sameLines (Rev1.validatePodSpec n) (Rev2.validatePodSpec n).
Proof.
  unfold Rev1.validatePodSpec, Rev2.validatePodSpec, Rev1.specOs, Rev2.specOs,
    Rev1.specContainers, Rev2.specContainers.
  sameLines_auto.
Qed.
#[global] Hint Resolve sameLines_validatePodSpec : sameLines.

(** The two revisions report on a label in opposite orders. *)
Lemma sameLines_labelsBody k v : sameLines (Rev1.labelsBody k v) (Rev2.labelsBody k v).
Proof.
  intros rep1 rep2 Hf. unfold Rev1.labelsBody, Rev2.labelsBody, bind, add, skip, ret.
  destruct (notStr k), (notStr v); simpl; (split; [done|]).
  - eexists [_; _], [_; _].
    split; [unfold appendErrs; simpl; by rewrite <- app_assoc|].
    split; [unfold appendErrs; simpl; by rewrite <- app_assoc|].
    simpl. apply perm_swap.
  - by eexists [_], [_].
  - by eexists [_], [_].
  - exists [], []. by rewrite !appendErrs_nil.
Qed.
#[global] Hint Resolve sameLines_labelsBody : sameLines.

Lemma sameLines_validateObjectMeta n :
  sameLines (Rev1.validateObjectMeta n) (Rev2.validateObjectMeta n).
Proof.
  unfold Rev1.validateObjectMeta, Rev2.validateObjectMeta, Rev1.metaName, Rev2.metaName,
    Rev1.metaNamespace, Rev2.metaNamespace, Rev1.metaLabels, Rev2.metaLabels.
  sameLines_auto.
Qed.
#[global] Hint Resolve sameLines_validateObjectMeta : sameLines.

Lemma sameLines_validatePod filename doc :
  sameLines (Rev1.validatePod filename doc) (Rev2.validatePod doc).
Proof.
  unfold Rev1.validatePod, Rev2.validatePod, Rev1.podApiVersion, Rev2.podApiVersion,
    Rev1.podKind, Rev2.podKind, Rev1.podMetadata, Rev2.podMetadata,
    Rev1.podSpec, Rev2.podSpec.
  sameLines_auto.
Qed.
#[global] Hint Resolve sameLines_validatePod : sameLines.

Lemma sameLines_mainLoop abs docs :
  sameLines (Rev1.mainLoop abs docs) (Rev2.mainLoop docs).
Proof.
  unfold Rev1.mainLoop, Rev2.mainLoop, Rev1.mainDocument, Rev2.mainDocument.
  sameLines_auto.
Qed.

(** X20: on the same documents the two revisions both panic, or they
    report on the same lines, give or take the order (the two reports
    of one label come in opposite orders): as many diagnostics, hence
    the same status of exit, and as many texts written. *)
Theorem revisions_same_lines (abs f : string) (docs : list Node) :
  match Rev1.mainLoop abs docs {| r_file := f; errs := [] |},
        Rev2.mainLoop docs {| r_file := f; errs := [] |} with
  | Ok (_, r1), Ok (_, r2) =>
      Permutation (List.map line (errs r1)) (List.map line (errs r2))
      /\ length (errs r1) = length (errs r2)
      /\ hasErrors r1 = hasErrors r2
  | Panic, Panic => True
  | _, _ => False
  end
  /\ match Rev1.mainReport f abs docs, Rev2.mainReport f docs with
     | Ok o1, Ok o2 =>
         status o1 = status o2 /\ length (stderr o1) = length (stdout o2)
     | Panic, Panic => True
     | _, _ => False
     end.
Proof.
  pose proof (sameLines_mainLoop abs docs {| r_file := f; errs := [] |}
                {| r_file := f; errs := [] |} eq_refl) as H.
  unfold Rev1.mainReport, Rev2.mainReport.
  destruct (Rev1.mainLoop abs docs _) as [[[] r1]|],
           (Rev2.mainLoop docs _) as [[[] r2]|]; try done.
  destruct H as (_ & ds1 & ds2 & -> & -> & HP). simpl.
  pose proof (Permutation_length HP) as HL. rewrite !length_map in HL.
  assert (hasErrors (appendErrs {| r_file := f; errs := [] |} ds1)
          = hasErrors (appendErrs {| r_file := f; errs := [] |} ds2)) as HE.
  { unfold hasErrors. simpl. by rewrite HL. }
  split; [by repeat split|]. rewrite HE. clear HE.
  destruct (hasErrors _); simpl; [|done].
  unfold Rev1.flushToStderr, Rev2.flushToStdout. simpl. by rewrite !length_map.
Qed.
